(** * numbapro.cudavec.dispatch: dispatch of compiled CUDA ufunc and gufunc kernels

    A shallow embedding of [src/numbapro/cudavec/dispatch.py].  Arrays are
    views (shape, strides, offset) on buffers of one shared store, so that
    the aliasing the dispatchers rely on ([out=], [split], [ravel] returning
    a view) is visible.  Python exceptions are values of [pyerr]; code that
    allocates, launches or copies runs in the state-and-error monad [M]. *)

From Stdlib Require Import Ascii String.
From stdpp Require Import base numbers list strings gmap pretty.

(** ** Element values *)

(** The element type of the arrays is left open.  [elem_uninit] is what an
    uninitialised cell ([np.empty], [cuda.device_array]) reads as, [elem_zero]
    what [np.zeros] fills with, [elem_one] the element [np.array((1,))]
    holds, and [as_float64] the conversion done on storing into a [float64]
    array. *)
Class Elem (V : Type) := {
  elem_uninit : V;
  elem_zero : V;
  elem_one : V;
  as_float64 : V → V
}.

(** ** Exceptions *)

Inductive pyerr :=
| TypeError (msg : string)
| ValueError (msg : string)
| ValueErrorArgs (fmt sym : string) (val held : nat)
| IndexError (msg : string)
| KeyError (key : string)
| AttributeError (name : string)
| AssertionError (msg : string)
| ZeroDivisionError
| OverflowError (msg : string)
| PyException (msg : string).

Inductive res (A : Type) : Type :=
| Ok (a : A)
| Raise (e : pyerr).
Arguments Ok {A} a.
Arguments Raise {A} e.

Definition res_bind {A B} (r : res A) (f : A → res B) : res B :=
  match r with
  | Ok a => f a
  | Raise e => Raise e
  end.

Notation "'try' x <- r ; k" := (res_bind r (fun x => k))
  (at level 10, x name, r at level 100, k at level 200, only parsing).
Notation "'try' ' p <- r ; k" := (res_bind r (fun x => match x with p => k end))
  (at level 10, p pattern, r at level 100, k at level 200, only parsing).

(** Python's [fmt % args] for the conversions this file uses: every
    [%d] and [%s] of the format consumes one argument.  Too few arguments,
    or arguments left over, are a [TypeError]. *)
Fixpoint py_format (fmt : string) (args : list string) : res string :=
  match fmt with
  | EmptyString =>
      match args with
      | [] => Ok EmptyString
      | _ :: _ =>
          Raise (TypeError "not all arguments converted during string formatting")
      end
  | String c rest =>
      if decide (c = "%"%char) then
        match rest with
        | String _ rest' =>
            match args with
            | a :: args' =>
                try r <- py_format rest' args'; Ok (a +:+ r)
            | [] => Raise (TypeError "not enough arguments for format string")
            end
        | EmptyString => Raise (ValueError "incomplete format")
        end
      else try r <- py_format rest args; Ok (String c r)
  end.

(** ** Double precision *)

(** Python's [float] is an IEEE 754 double.  Every finite double is a
    multiple of [2^-1074], so a double is held as that multiple: the
    integer [x] stands for the number [x / 2^1074].  A value of [2^1024] or
    more stands for infinity. *)
Definition pyfloat := Z.

Definition float_one : pyfloat := (2 ^ 1074)%Z.
Definition float_huge : pyfloat := (2 ^ 2098)%Z.

(** The integer nearest to [num / den]; halfway, the even one. *)
Definition round_half_even (num den : Z) : Z :=
  let q := (num / den)%Z in
  let r := (num mod den)%Z in
  if decide (2 * r < den)%Z then q
  else if decide (den < 2 * r)%Z then (q + 1)%Z
  else if Z.even q then q else (q + 1)%Z.

(** The double nearest to [a / b], for [a >= 0] and [b > 0]: the quotient
    keeps 53 significant bits, and fewer below [2^-1022], where the doubles
    are [2^-1074] apart. *)
Definition nearest (a b : Z) : pyfloat :=
  let w := (a * float_one / b)%Z in
  let j := Z.max (Z.log2 w - 52) 0 in
  (round_half_even (a * float_one) (b * 2 ^ j) * 2 ^ j)%Z.

(** [float(n)] *)
Definition float_of_int (n : Z) : res pyfloat :=
  let x := (Z.sgn n * nearest (Z.abs n) 1)%Z in
  if decide (float_huge ≤ Z.abs x)%Z
  then Raise (OverflowError "long int too large to convert to float")
  else Ok x.

(** [x / y] on two floats *)
Definition float_div (x y : pyfloat) : res pyfloat :=
  if decide (y = 0%Z) then Raise ZeroDivisionError
  else Ok (Z.sgn x * Z.sgn y * nearest (Z.abs x) (Z.abs y))%Z.

(** [math.ceil(x)], a float *)
Definition math_ceil (x : pyfloat) : pyfloat :=
  (- ((- x) / float_one) * float_one)%Z.

(** [int(x)]: the float truncated towards zero. *)
Definition int_of_float (x : pyfloat) : res Z :=
  if decide (float_huge ≤ Z.abs x)%Z
  then Raise (OverflowError "cannot convert float infinity to integer")
  else Ok (x ÷ float_one)%Z.

(** ** Arrays *)

Inductive np_dtype := bool_ | int32 | int64 | float32 | float64.

Global Instance np_dtype_eq_dec : EqDecision np_dtype.
Proof. solve_decision. Defined.

Definition dtype_name (d : np_dtype) : string :=
  match d with
  | bool_ => "bool"
  | int32 => "int32"
  | int64 => "int64"
  | float32 => "float32"
  | float64 => "float64"
  end.

(** [repr] of a dtype. *)
Definition dtype_repr (d : np_dtype) : string :=
  "dtype('" +:+ dtype_name d +:+ "')".

(** The [repr] of a tuple of dtypes, which is what [%s] formats it as: the
    elements are separated by a comma and a space, and a tuple of one
    element ends in a comma. *)
Definition dtypes_repr (ds : list np_dtype) : string :=
  match ds with
  | [] => "()"
  | [d] => "(" +:+ dtype_repr d +:+ ",)"
  | d :: ds' =>
      "(" +:+ dtype_repr d
          +:+ foldr (λ d' r, ", " +:+ dtype_repr d' +:+ r) ")" ds'
  end.

Inductive residency := Host | Device.

(** A host ([np.ndarray]) or device ([DeviceNDArray]) array: a view on the
    buffer [base] of the store.  Strides and the offset count elements, not
    bytes; a stride of 0 is a broadcast axis. *)
Record ndarray := NDArray {
  resid : residency;
  dtype : np_dtype;
  shape : list nat;
  strides : list nat;
  base : nat;
  offset : nat
}.

(** [devicearray.is_cuda_ndarray] *)
Definition is_cuda_ndarray (a : ndarray) : bool :=
  match resid a with
  | Device => true
  | Host => false
  end.

Definition ndim (a : ndarray) : nat := length (shape a).

(** [np.prod] of a shape; the empty shape has product 1. *)
Definition np_prod (sh : list nat) : nat := foldr Nat.mul 1 sh.

(** Strides of a C-ordered array of shape [sh]. *)
Fixpoint c_strides (sh : list nat) : list nat :=
  match sh with
  | [] => []
  | _ :: sh' => np_prod sh' :: c_strides sh'
  end.

(** The buffer positions of the elements of a view, in row-major order. *)
Fixpoint positions (sh st : list nat) (off : nat) : list nat :=
  match sh with
  | [] => [off]
  | d :: sh' =>
      flat_map (λ i, positions sh' (tail st) (off + i * hd 0 st)) (seq 0 d)
  end.

Fixpoint contiguous_dims (sh st : list nat) : bool :=
  match sh with
  | [] => true
  | d :: sh' =>
      (bool_decide (d = 1) || bool_decide (hd 0 st = np_prod sh'))
      && contiguous_dims sh' (tail st)
  end.

(** The [C_CONTIGUOUS] flag: the elements lie one after the other in
    row-major order (the stride of an axis of length 1 does not matter, and
    an array without elements is contiguous). *)
Definition is_c_contiguous (a : ndarray) : bool :=
  bool_decide (np_prod (shape a) = 0) || contiguous_dims (shape a) (strides a).

(** [a.shape[0]] *)
Definition shape0 (a : ndarray) : res nat :=
  match shape a with
  | d :: _ => Ok d
  | [] => Raise (IndexError "tuple index out of range")
  end.

(** [a.strides[0]] *)
Definition strides0 (a : ndarray) : res nat :=
  match strides a with
  | d :: _ => Ok d
  | [] => Raise (IndexError "tuple index out of range")
  end.

(** [arrays[0]] *)
Definition first {A} (l : list A) : res A :=
  match l with
  | a :: _ => Ok a
  | [] => Raise (IndexError "list index out of range")
  end.

(** Broadcasting of shapes, on the shapes read from the last axis. *)
Definition broadcast_dim (d1 d2 : nat) : option nat :=
  if decide (d1 = d2) then Some d1
  else if decide (d1 = 1) then Some d2
  else if decide (d2 = 1) then Some d1
  else None.

Fixpoint broadcast_rev (r1 r2 : list nat) : option (list nat) :=
  match r1, r2 with
  | [], r => Some r
  | r, [] => Some r
  | d1 :: t1, d2 :: t2 =>
      match broadcast_dim d1 d2, broadcast_rev t1 t2 with
      | Some d, Some t => Some (d :: t)
      | _, _ => None
      end
  end.

Definition broadcast_shape (shapes : list (list nat)) : option (list nat) :=
  reverse <$>
    foldl (λ acc sh, match acc with
                     | Some r => broadcast_rev r (reverse sh)
                     | None => None
                     end) (Some []) shapes.

(** Strides of a view stretched to shape [target]: a stretched or added
    axis gets stride 0. *)
Fixpoint broadcast_strides_rev (rsh rst rtarget : list nat) : list nat :=
  match rtarget with
  | [] => []
  | t :: rt =>
      match rsh with
      | [] => 0 :: broadcast_strides_rev [] [] rt
      | d :: rsh' =>
          (if decide (d = t) then hd 0 rst else 0)
            :: broadcast_strides_rev rsh' (tail rst) rt
      end
  end.

Definition broadcast_to (target : list nat) (a : ndarray) : ndarray :=
  {| resid := resid a; dtype := dtype a; shape := target;
     strides := reverse (broadcast_strides_rev (reverse (shape a))
                           (reverse (strides a)) (reverse target));
     base := base a; offset := offset a |}.

(** ** Kernels and the store *)

(** A compiled kernel is an external object.  [MAX_THREADS_PER_BLOCK] is
    [kernel.device.MAX_THREADS_PER_BLOCK]; [autotune] is [None] when reading
    [kernel.autotune] raises [RuntimeError] and otherwise holds what
    [autotune.best()] returns.  [krun grid block args count] is the launch
    of the kernel configured as [kernel[grid, block, stream]] on the
    arguments [args]: from every array argument with
    its backing buffer, and the trailing count argument when one is passed,
    it gives the new backing buffer of the last array argument. *)
Record kernel {V : Type} := Kernel {
  MAX_THREADS_PER_BLOCK : Z;
  autotune : option Z;
  krun : Z → Z → list (ndarray * list V) → option Z → list V
}.
Arguments kernel V : clear implicits.

Record launch := Launch {
  l_grid : Z;
  l_block : Z;
  l_args : list ndarray;
  l_count : option Z
}.

Record state {V : Type} := State {
  heap : list (list V);
  launches : list launch
}.
Arguments state V : clear implicits.

Definition M (V A : Type) : Type := state V → res A * state V.

Definition ret {V A} (a : A) : M V A := λ s, (Ok a, s).
Definition raise {V A} (e : pyerr) : M V A := λ s, (Raise e, s).
Definition lift {V A} (r : res A) : M V A := λ s, (r, s).
Definition bind {V A B} (m : M V A) (f : A → M V B) : M V B :=
  λ s, match m s with
       | (Ok a, s') => f a s'
       | (Raise e, s') => (Raise e, s')
       end.

Notation "'do' x <- m ; k" := (bind m (fun x => k))
  (at level 10, x name, m at level 100, k at level 200, only parsing).
Notation "'do' ' p <- m ; k" := (bind m (fun x => match x with p => k end))
  (at level 10, p pattern, m at level 100, k at level 200, only parsing).

Fixpoint mapM_ {V A B} (f : A → M V B) (l : list A) : M V (list B) :=
  match l with
  | [] => ret []
  | a :: l' => do b <- f a; do bs <- mapM_ f l'; ret (b :: bs)
  end.

(** ** The store and the array library *)

Section Store.
Context {V : Type} `{!Elem V}.

Definition buffer (s : state V) (b : nat) : list V :=
  default [] (heap s !! b).

(** Reading a cell; outside the buffer the value is unspecified. *)
Definition cell (buf : list V) (p : nat) : V :=
  default elem_uninit (buf !! p).

Definition peek (s : state V) (b p : nat) : V := cell (buffer s b) p.

(** The elements of a view, in row-major order. *)
Definition contents (s : state V) (a : ndarray) : list V :=
  map (peek s (base a)) (positions (shape a) (strides a) (offset a)).

Definition get_contents (a : ndarray) : M V (list V) :=
  λ s, (Ok (contents s a), s).

(** The buffer position of the element at a full index. *)
Fixpoint index_position (sh st idx : list nat) (off : nat) : res nat :=
  match idx, sh with
  | [], [] => Ok off
  | i :: idx', d :: sh' =>
      if decide (i < d)
      then index_position sh' (tail st) idx' (off + i * hd 0 st)
      else Raise (IndexError "index out of bounds")
  | _, _ => Raise (IndexError "invalid index")
  end.

(** [a[i]], [a[i, j]], ... for a full index. *)
Definition getitem (a : ndarray) (idx : list nat) : M V V :=
  λ s, (try p <- index_position (shape a) (strides a) idx (offset a);
        Ok (peek s (base a) p), s).

Definition alloc (buf : list V) : M V nat :=
  λ s, (Ok (length (heap s)),
        {| heap := heap s ++ [buf]; launches := launches s |}).

(** Writing the values [vs] at the positions [ps] of a buffer. *)
Definition store_at (buf : list V) (ps : list nat) (vs : list V) : list V :=
  foldl (λ b pv, <[pv.1 := pv.2]> b) buf (zip ps vs).

Definition write_view (a : ndarray) (vs : list V) : M V () :=
  λ s, (Ok (),
        {| heap := <[base a := store_at (buffer s (base a))
                                 (positions (shape a) (strides a) (offset a))
                                 vs]> (heap s);
           launches := launches s |}).

(** [np.empty(shape, dtype)] *)
Definition np_empty (sh : list nat) (dt : np_dtype) : M V ndarray :=
  do b <- alloc (replicate (np_prod sh) elem_uninit);
  ret {| resid := Host; dtype := dt; shape := sh; strides := c_strides sh;
         base := b; offset := 0 |}.

(** [np.zeros(shape, dtype)] *)
Definition np_zeros (sh : list nat) (dt : np_dtype) : M V ndarray :=
  do b <- alloc (replicate (np_prod sh) elem_zero);
  ret {| resid := Host; dtype := dt; shape := sh; strides := c_strides sh;
         base := b; offset := 0 |}.

(** A fresh C-ordered host copy of shape [sh] of the elements of [a]. *)
Definition host_copy (a : ndarray) (sh : list nat) : M V ndarray :=
  do vs <- get_contents a;
  do b <- alloc vs;
  ret {| resid := Host; dtype := dtype a; shape := sh; strides := c_strides sh;
         base := b; offset := 0 |}.

(** [np.array(a)]: always a copy. *)
Definition np_array (a : ndarray) : M V ndarray := host_copy a (shape a).

(** [np.array((1,), dtype=dt)] *)
Definition np_array_one (dt : np_dtype) : M V ndarray :=
  do b <- alloc [elem_one];
  ret {| resid := Host; dtype := dt; shape := [1]; strides := [1];
         base := b; offset := 0 |}.

(** [a.ravel()]: a 1-D view when the array is C-contiguous, else a copy. *)
Definition ravel (a : ndarray) : M V ndarray :=
  if is_c_contiguous a
  then ret {| resid := resid a; dtype := dtype a;
              shape := [np_prod (shape a)]; strides := [1];
              base := base a; offset := offset a |}
  else host_copy a [np_prod (shape a)].

(** [a.reshape(sh)]: the array itself for the shape it has, a view for a
    C-contiguous array, else a copy. *)
Definition reshape (a : ndarray) (sh : list nat) : M V ndarray :=
  if decide (np_prod sh ≠ np_prod (shape a))
  then raise (ValueError "total size of new array must be unchanged")
  else if decide (sh = shape a) then ret a
  else if is_c_contiguous a
  then ret {| resid := resid a; dtype := dtype a; shape := sh;
              strides := c_strides sh; base := base a; offset := offset a |}
  else host_copy a sh.

(** [np.ascontiguousarray(a)]: a C-contiguous array of at least one
    dimension, the argument itself when it already is one. *)
Definition np_ascontiguousarray (a : ndarray) : M V ndarray :=
  match shape a with
  | [] => host_copy a [1]
  | _ :: _ => if is_c_contiguous a then ret a else host_copy a (shape a)
  end.

(** [np.broadcast_arrays(...)]: views of one common shape. *)
Definition np_broadcast_arrays (args : list ndarray) : res (list ndarray) :=
  match broadcast_shape (map shape args) with
  | Some sh => Ok (map (broadcast_to sh) args)
  | None =>
      Raise (ValueError
               "shape mismatch: objects cannot be broadcast to a single shape")
  end.

(** Modelled from the spec: [cuda.to_device] is not in the source file.  It
    stages a host array to the device: a new device buffer with a copy of
    the array's memory, under the same shape and strides. *)
Definition to_device (a : ndarray) : M V ndarray :=
  λ s, (do b <- alloc (buffer s (base a));
        ret {| resid := Device; dtype := dtype a; shape := shape a;
               strides := strides a; base := b; offset := offset a |}) s.

(** Modelled from the spec: [cuda._auto_device] is not in the source file.
    A device array is passed on as it is; a host array is staged to the
    device.  The flag tells whether a transfer took place. *)
Definition _auto_device (a : ndarray) : M V (ndarray * bool) :=
  if is_cuda_ndarray a then ret (a, false)
  else do d <- to_device a; ret (d, true).

(** Modelled from the spec: [cuda.device_array] is not in the source file.
    It allocates an uninitialised C-ordered device array. *)
Definition device_array (sh : list nat) (dt : np_dtype) : M V ndarray :=
  do b <- alloc (replicate (np_prod sh) elem_uninit);
  ret {| resid := Device; dtype := dt; shape := sh; strides := c_strides sh;
         base := b; offset := 0 |}.

(** The number of cells a view of this shape and these strides spans. *)
Definition extent (sh st : list nat) : nat :=
  if decide (np_prod sh = 0) then 0
  else S (list_sum (zip_with (λ d k, (d - 1) * k) sh st)).

(** Modelled from the spec: [cuda.device_array_like] is not in the source
    file.  It allocates an uninitialised device array with the shape,
    strides and dtype of its argument. *)
Definition device_array_like (a : ndarray) : M V ndarray :=
  do b <- alloc (replicate (extent (shape a) (strides a)) elem_uninit);
  ret {| resid := Device; dtype := dtype a; shape := shape a;
         strides := strides a; base := b; offset := 0 |}.

(** Modelled from the spec: [DeviceNDArray.copy_to_host] is not in the
    source file.  It copies the elements of the device array into the host
    array it is given and returns that array; given none, it returns a new
    host array. *)
Definition copy_to_host (dev : ndarray) (host : option ndarray) : M V ndarray :=
  do vs <- get_contents dev;
  match host with
  | Some h => do _ <- write_view h vs; ret h
  | None =>
      do b <- alloc vs;
      ret {| resid := Host; dtype := dtype dev; shape := shape dev;
             strides := c_strides (shape dev); base := b; offset := 0 |}
  end.

(** Modelled from the spec: [DeviceNDArray.split] is not in the source
    file.  It splits a 1-D device array at an offset into two views that
    share the backing storage of the array. *)
Definition split (a : ndarray) (k : nat) : ndarray * ndarray :=
  ({| resid := resid a; dtype := dtype a; shape := [k];
      strides := strides a; base := base a; offset := offset a |},
   {| resid := resid a; dtype := dtype a; shape := [hd 0 (shape a) - k];
      strides := strides a; base := base a;
      offset := offset a + k * hd 0 (strides a) |}).

(** Modelled from the spec: [DeviceNDArray.reshape] is not in the source
    file.  It gives a view of another shape with the same number of
    elements, without a copy. *)
Definition device_reshape (a : ndarray) (sh : list nat) : res ndarray :=
  if decide (np_prod sh = np_prod (shape a))
  then Ok {| resid := resid a; dtype := dtype a; shape := sh;
             strides := c_strides sh; base := base a; offset := offset a |}
  else Raise (ValueError "total size of new array must be unchanged").

(** The launch of a kernel on array arguments, the last of which is the
    output, and an optional trailing count. *)
Definition launch_kernel (k : kernel V) (grid block : Z) (args : list ndarray)
    (count : option Z) : M V () :=
  λ s, let bufs := map (λ a, (a, buffer s (base a))) args in
       let h := match last args with
                | Some out =>
                    <[base out := krun k grid block bufs count]> (heap s)
                | None => heap s
                end in
       (Ok (), {| heap := h;
                  launches := launches s ++ [Launch grid block args count] |}).

(** The cell thread [t] of an elementwise kernel works on. *)
Definition thread_pos (a : ndarray) (t : nat) : nat :=
  offset a + t * hd 0 (strides a).

(** Modelled from the spec: the compiled kernels are not in the source
    file.  The kernel of a ufunc with scalar function [f] runs one thread
    per index below the launch size [grid * block]; a thread whose index is
    below the count passed to the kernel (or, when none is passed, below
    the size of the output) reads its element of every input and writes
    [f] of them to its element of the output. *)
Definition elementwise (f : list V → V) (grid block : Z)
    (args : list (ndarray * list V)) (count : option Z) : list V :=
  match last args with
  | None => []
  | Some (out, obuf) =>
      let ins := removelast args in
      let bound := match count with
                   | Some c => c
                   | None => Z.of_nat (np_prod (shape out))
                   end in
      let threads := Z.to_nat (Z.min (grid * block) bound) in
      foldl (λ buf t,
               <[thread_pos out t :=
                   f (map (λ ab, cell ab.2 (thread_pos ab.1 t)) ins)]> buf)
            obuf (seq 0 threads)
  end.
End Store.

(** ** The dispatchers *)

(** The keyword arguments of a call.  [stream] only orders the device work
    and is left out; another keyword fails the assertion at the head of
    [__call__] and is excluded by the type. *)
Record kwargs := Kwargs { kw_out : option ndarray }.

(** A dispatcher object.  [functions] is the table from input dtypes to
    the result dtype and kernel, [max_blocksize_attr] the private attribute
    behind the [max_blocksize] property.  [inputsig] and [outputsig]
    are what the constructor of the generalized dispatcher stores;
    [input_symbols] and [output_symbols] are read by its
    [_determine_output_shape] and set by no code in this file ([None]: the
    attribute is missing). *)
Record dispatcher {V : Type} := Dispatcher {
  functions : list (list np_dtype * (np_dtype * kernel V));
  max_blocksize_attr : option Z;
  inputsig : list (list string);
  outputsig : list string;
  input_symbols : option (list (list string));
  output_symbols : option (list string)
}.
Arguments dispatcher V : clear implicits.

(** The methods a subclass overrides; [__call__] goes through this table. *)
Record methods {V : Type} := Methods {
  m_prepare_inputs : list ndarray → M V (list ndarray);
  m_adjust_dimension : list ndarray → M V (list ndarray);
  m_allocate_output : dispatcher V → list ndarray → np_dtype → M V ndarray;
  m_determine_output_shape : dispatcher V → list ndarray → res (list nat);
  m_determine_element_count : list ndarray → res Z;
  m_arguments_requirement : list ndarray → res ()
}.
Arguments methods V : clear implicits.

(** [dict[key]] on a table kept as an association list. *)
Fixpoint table_lookup {K A} `{EqDecision K} (t : list (K * A)) (k : K) : option A :=
  match t with
  | [] => None
  | (k', a) :: t' => if decide (k' = k) then Some a else table_lookup t' k
  end.

Module CudaUFuncDispatcher.
Section Methods.
Context {V : Type} `{!Elem V}.

(** [__init__]: only the table is stored. *)
Definition __init__ (types_to_retty_kernels :
    list (list np_dtype * (np_dtype * kernel V))) : dispatcher V :=
  {| functions := types_to_retty_kernels; max_blocksize_attr := None;
     inputsig := []; outputsig := [];
     input_symbols := None; output_symbols := None |}.

Definition max_blocksize (self : dispatcher V) : Z :=
  default (2 ^ 30)%Z (max_blocksize_attr self).

Definition _prepare_inputs (args : list ndarray) : M V (list ndarray) :=
  lift (np_broadcast_arrays args).

Definition _apply_autotuning (func : kernel V) (max_threads : Z) : res Z :=
  match autotune func with
  | None => Ok max_threads
  | Some best =>
      if decide (best = 0%Z)
      then Raise (PyException
                    "insufficient resources to run kernelat any thread-per-block.")
      else Ok best
  end.

Definition _adjust_dimension (broadcast_arrays : list ndarray)
    : M V (list ndarray) :=
  mapM_ (λ ary, if decide (1 < ndim ary) then ravel ary else ret ary)
        broadcast_arrays.

Definition _determine_output_shape (self : dispatcher V)
    (broadcast_arrays : list ndarray) : res (list nat) :=
  try a <- first broadcast_arrays; Ok (shape a).

Definition _allocate_output (self : dispatcher V)
    (broadcast_arrays : list ndarray) (result_dtype : np_dtype) : M V ndarray :=
  do a <- lift (first broadcast_arrays);
  np_empty (shape a) result_dtype.

Definition _get_function_by_dtype (self : dispatcher V)
    (dtypes : list np_dtype) : res (np_dtype * kernel V) :=
  match table_lookup (functions self) dtypes with
  | Some rk => Ok rk
  | None =>
      try msg <- py_format "Input dtypes not supported by ufunc %s"
                   [dtypes_repr dtypes];
      Raise (TypeError msg)
  end.

Definition _determine_element_count (broadcast_arrays : list ndarray) : res Z :=
  try a <- first broadcast_arrays; Ok (Z.of_nat (np_prod (shape a))).

(** The first loop of [_arguments_requirement]. *)
Fixpoint check_1d (i : nat) (args : list ndarray) : res () :=
  match args with
  | [] => Ok ()
  | a :: args' =>
      if decide (ndim a ≠ 1)
      then try msg <- py_format "arg %d is not a 1D array" [pretty i];
           Raise (ValueError msg)
      else check_1d (S i) args'
  end.

(** Its second loop: index and length of the arguments of non-zero stride. *)
Fixpoint collect_shapes (i : nat) (args : list ndarray) : res (list (nat * nat)) :=
  match args with
  | [] => Ok []
  | a :: args' =>
      try st <- strides0 a;
      if decide (st ≠ 0)
      then try n <- shape0 a;
           try r <- collect_shapes (S i) args';
           Ok ((i, n) :: r)
      else collect_shapes (S i) args'
  end.

(** Its last loop.  The message is formatted with the single value [ms]. *)
Fixpoint check_lengths (ms : nat) (array_shapes : list (nat * nat)) : res () :=
  match array_shapes with
  | [] => Ok ()
  | (i, s) :: rest =>
      if decide (ms ≠ s)
      then try msg <- py_format "arg %d should have length %d" [pretty ms];
           Raise (ValueError msg)
      else check_lengths ms rest
  end.

Definition _arguments_requirement (args : list ndarray) : res () :=
  try _ <- check_1d 0 args;
  try array_shapes <- collect_shapes 0 args;
  try '(_, ms) <- first array_shapes;
  check_lengths ms (tail array_shapes).

(** [int(math.ceil(float(n) / max_thread))] is computed in double
    precision: [n] is converted to a float, [max_thread] is converted for
    the division, and the quotient is rounded before its ceiling is
    taken. *)
Definition _determine_dimensions (n max_thread : Z) : res (Z * Z) :=
  let thread_count := Z.min max_thread n in
  try x <- float_of_int n;
  try y <- float_of_int max_thread;
  try q <- float_div x y;
  try block_count <- int_of_float (math_ceil q);
  Ok (block_count, thread_count).

Definition cls : methods V :=
  {| m_prepare_inputs := _prepare_inputs;
     m_adjust_dimension := _adjust_dimension;
     m_allocate_output := _allocate_output;
     m_determine_output_shape := _determine_output_shape;
     m_determine_element_count := _determine_element_count;
     m_arguments_requirement := _arguments_requirement |}.

(** The conversion of an array scalar on the device path:
    [np.ndarray(shape=(1,), strides=(0,))] is a [float64] array. *)
Definition scalar_to_zero_strided (ary : ndarray) : M V ndarray :=
  match shape ary with
  | [] =>
      do data <- getitem ary [];
      do b <- alloc [as_float64 data];
      ret {| resid := Host; dtype := float64; shape := [1]; strides := [0];
             base := b; offset := 0 |}
  | _ :: _ => ret ary
  end.

(** [__call__].  The arguments are arrays: an argument that is none is
    turned into a host array by [np.asarray] before anything else looks
    at it.  On the host path every broadcast array is a host array, so the
    assertion before the transfers holds and is left out. *)
Definition __call__ (cls : methods V) (self : dispatcher V)
    (args : list ndarray) (kws : kwargs) : M V ndarray :=
  let has_device_array_arg := existsb is_cuda_ndarray args in
  let dtypes := map dtype args in
  do '(result_dtype, cuda_func) <- lift (_get_function_by_dtype self dtypes);
  let max_threads :=
    Z.min (MAX_THREADS_PER_BLOCK cuda_func) (max_blocksize self) in
  do max_threads <-
    lift (if decide (max_threads = MAX_THREADS_PER_BLOCK cuda_func)
          then _apply_autotuning cuda_func max_threads
          else Ok max_threads);
  if has_device_array_arg then
    do args <- mapM_ scalar_to_zero_strided args;
    do _ <- lift (m_arguments_requirement cls args);
    do conv <- mapM_ _auto_device args;
    let args := map fst conv in
    do element_count <- lift (m_determine_element_count cls args);
    do '(nctaid, ntid) <- lift (_determine_dimensions element_count max_threads);
    do device_out <-
      match kw_out kws with
      | None =>
          do out_shape <- lift (m_determine_output_shape cls self args);
          device_array out_shape result_dtype
      | Some device_out =>
          if is_cuda_ndarray device_out then ret device_out
          else raise (TypeError "output array must be a device array")
      end;
    do _ <- launch_kernel cuda_func nctaid ntid (args ++ [device_out])
              (Some element_count);
    ret device_out
  else
    do broadcast_arrays <- m_prepare_inputs cls args;
    do element_count <- lift (m_determine_element_count cls broadcast_arrays);
    do out <-
      match kw_out kws with
      | None => m_allocate_output cls self broadcast_arrays result_dtype
      | Some out =>
          if is_cuda_ndarray out
          then raise (TypeError "output array must not be a device array")
          else
            do o0 <- lift (shape0 out);
            do b <- lift (first broadcast_arrays);
            do b0 <- lift (shape0 b);
            if decide (o0 < b0)
            then raise (ValueError "insufficient storage for output array")
            else ret out
      end;
    let reshape_ := shape out in
    do outs <- m_adjust_dimension cls [out];
    match outs with
    | [out] =>
        do broadcast_arrays <- m_adjust_dimension cls broadcast_arrays;
        do '(nctaid, ntid) <-
          lift (_determine_dimensions element_count max_threads);
        do device_ins <- mapM_ to_device broadcast_arrays;
        do device_out <- device_array_like out;
        do _ <- launch_kernel cuda_func nctaid ntid (device_ins ++ [device_out])
                  None;
        do _ <- copy_to_host device_out (Some out);
        reshape out reshape_
    | _ => raise (ValueError "wrong number of values to unpack")
    end.

(** [__reduce]; [fuel] bounds the depth of the recursion. *)
Fixpoint __reduce (fuel : nat) (cls : methods V) (self : dispatcher V)
    (mem : ndarray) (gpu_mems : list ndarray) : M V (ndarray * list ndarray) :=
  match fuel with
  | 0 => raise (PyException "maximum recursion depth exceeded")
  | S fuel' =>
      do n <- lift (shape0 mem);
      if decide (n mod 2 ≠ 0) then
        let '(fatcut, thincut) := split mem (n - 1) in
        let gpu_mems := gpu_mems ++ [fatcut; thincut] in
        do '(out, gpu_mems) <- __reduce fuel' cls self fatcut gpu_mems;
        let gpu_mems := gpu_mems ++ [out] in
        do r <- __call__ cls self [out; thincut] {| kw_out := Some out |};
        ret (r, gpu_mems)
      else
        let '(left_, right_) := split mem (n / 2) in
        let gpu_mems := gpu_mems ++ [left_; right_] in
        do _ <- __call__ cls self [left_; right_] {| kw_out := Some left_ |};
        if decide (1 < n / 2)
        then __reduce fuel' cls self left_ gpu_mems
        else ret (left_, gpu_mems)
  end.

(** [reduce].  A recursion that shortens the array needs no more calls
    than the array is long, so the length is the fuel.  The stream and its
    [auto_synchronize] scope only order the device work and are left out. *)
Definition reduce (cls : methods V) (self : dispatcher V) (arg : ndarray)
    : M V V :=
  do key0 <- lift (first (functions self));
  if decide (length key0.1 ≠ 2)
  then raise (AssertionError "must be a binary ufunc")
  else if decide (ndim arg ≠ 1)
  then raise (AssertionError "must use 1d array")
  else
    do n <- lift (shape0 arg);
    if decide (n = 0) then raise (TypeError "Reduction on an empty array.")
    else if decide (n = 1) then getitem arg [0]
    else
      do mem <- (if is_cuda_ndarray arg then ret arg else to_device arg);
      do '(out, _) <- __reduce n cls self mem [];
      do buf <- np_array_one (dtype arg);
      do _ <- copy_to_host out (Some buf);
      getitem buf [0].
End Methods.
End CudaUFuncDispatcher.

Module CudaGUFuncDispatcher.
Section Methods.
Context {V : Type} `{!Elem V}.

(** [__init__]: the table, and the two halves of the signature. *)
Definition __init__ (types_to_retty_kernel :
    list (list np_dtype * (np_dtype * kernel V)))
    (signature : list (list string) * list string) : dispatcher V :=
  {| functions := types_to_retty_kernel; max_blocksize_attr := None;
     inputsig := signature.1; outputsig := signature.2;
     input_symbols := None; output_symbols := None |}.

Definition _arguments_requirement (args : list ndarray) : res () := Ok ().

Definition _prepare_inputs (args : list ndarray) : M V (list ndarray) :=
  mapM_ np_ascontiguousarray args.

Definition _adjust_dimension (broadcast_arrays : list ndarray)
    : M V (list ndarray) :=
  ret broadcast_arrays.

(** The inner loop of [_determine_output_shape]: the symbols of one input
    against the sizes of its axes. *)
Fixpoint bind_symbols (shapeholders : gmap string nat)
    (pairs : list (string * nat)) : res (gmap string nat) :=
  match pairs with
  | [] => Ok shapeholders
  | (sym, val) :: rest =>
      match shapeholders !! sym with
      | Some held =>
          if decide (held ≠ val)
          then Raise (ValueErrorArgs "dimension %s mismatch: %d != %d"
                        sym val held)
          else bind_symbols (<[sym := val]> shapeholders) rest
      | None => bind_symbols (<[sym := val]> shapeholders) rest
      end
  end.

(** Its outer loop, over the inputs zipped with their symbols. *)
Fixpoint bind_inputs (shapeholders : gmap string nat)
    (inputs : list (ndarray * list string)) : res (gmap string nat) :=
  match inputs with
  | [] => Ok shapeholders
  | (ary, symbols) :: rest =>
      let remain_shape := tail (shape ary) in
      try shapeholders <- bind_symbols shapeholders (zip symbols remain_shape);
      bind_inputs shapeholders rest
  end.

(** [tuple(shapeholders[sym] for sym in self.output_symbols)] *)
Fixpoint lookup_symbols (shapeholders : gmap string nat)
    (symbols : list string) : res (list nat) :=
  match symbols with
  | [] => Ok []
  | sym :: rest =>
      match shapeholders !! sym with
      | Some val =>
          try r <- lookup_symbols shapeholders rest; Ok (val :: r)
      | None => Raise (KeyError sym)
      end
  end.

Definition _determine_output_shape (self : dispatcher V)
    (broadcast_arrays : list ndarray) : res (list nat) :=
  match input_symbols self with
  | None => Raise (AttributeError "input_symbols")
  | Some isyms =>
      try shapeholders <- bind_inputs ∅ (zip broadcast_arrays isyms);
      match output_symbols self with
      | None => Raise (AttributeError "output_symbols")
      | Some osyms =>
          try innershape <- lookup_symbols shapeholders osyms;
          try a <- first broadcast_arrays;
          try d <- shape0 a;
          Ok (d :: innershape)
      end
  end.

Definition _allocate_output (self : dispatcher V)
    (broadcast_arrays : list ndarray) (result_dtype : np_dtype) : M V ndarray :=
  do sh <- lift (_determine_output_shape self broadcast_arrays);
  do a <- lift (first broadcast_arrays);
  np_zeros sh (dtype a).

Definition _determine_element_count (broadcast_arrays : list ndarray) : res Z :=
  try a <- first broadcast_arrays;
  try d <- shape0 a;
  Ok (Z.of_nat d).

Definition cls : methods V :=
  {| m_prepare_inputs := _prepare_inputs;
     m_adjust_dimension := _adjust_dimension;
     m_allocate_output := _allocate_output;
     m_determine_output_shape := _determine_output_shape;
     m_determine_element_count := _determine_element_count;
     m_arguments_requirement := _arguments_requirement |}.

(** [__call__] and [reduce] are inherited. *)
Definition __call__ (self : dispatcher V) (args : list ndarray) (kws : kwargs)
    : M V ndarray :=
  CudaUFuncDispatcher.__call__ cls self args kws.
End Methods.
End CudaGUFuncDispatcher.

(** What the external shape-inference engine returns for the shapes of the
    inputs of a call. *)
Record schedule_t := Schedule {
  output_shapes : list (list nat);
  loopn : Z;
  loopdims : list nat;
  ishapes : list (list nat);
  oshapes : list (list nat)
}.

Record engine_t := Engine {
  nout : nat;
  schedule : list (list nat) → res schedule_t
}.

Module CUDAGenerializedUFunc.
Section Methods.
Context {V : Type} `{!Elem V}.

Record t := Make {
  kernelmap : list (list np_dtype * (np_dtype * kernel V));
  engine : engine_t;
  max_blocksize : Z
}.

Definition __init__ (kernelmap : list (list np_dtype * (np_dtype * kernel V)))
    (engine : engine_t) : res t :=
  if decide (nout engine = 1)
  then Ok {| kernelmap := kernelmap; engine := engine;
             max_blocksize := (2 ^ 30)%Z |}
  else Raise (AssertionError "only support single output").

Definition _apply_autotuning (func : kernel V) (max_threads : Z) : res Z :=
  match autotune func with
  | None => Ok max_threads
  | Some best =>
      if decide (best = 0%Z)
      then Raise (PyException
                    "insufficient resources to run kernel at any thread-per-block.")
      else Ok best
  end.

(** [ncta_real] is the quotient [float(nelem) / ntid] in double
    precision; [ncta] is [ncta_real] truncated, plus one when that is below
    [ncta_real]. *)
Definition _launch_kernel (self : t) (kernel_ : kernel V) (nelem : Z)
    (args : list ndarray) : M V () :=
  let max_threads :=
    Z.min (MAX_THREADS_PER_BLOCK kernel_) (max_blocksize self) in
  do ntid <- lift (_apply_autotuning kernel_ max_threads);
  do x <- lift (float_of_int nelem);
  do y <- lift (float_of_int ntid);
  do ncta_real <- lift (float_div x y);
  do ncta <- lift (int_of_float ncta_real);
  let ncta := if decide (ncta * float_one < ncta_real)%Z
              then (ncta + 1)%Z else ncta in
  launch_kernel kernel_ ncta ntid args None.

(** [p.reshape(d, *cs) for p, cs in zip(params, shapes)] *)
Fixpoint reshape_all (d : nat) (params : list ndarray)
    (shapes : list (list nat)) : res (list ndarray) :=
  match params, shapes with
  | p :: params', cs :: shapes' =>
      try p' <- device_reshape p (d :: cs);
      try r <- reshape_all d params' shapes';
      Ok (p' :: r)
  | _, _ => Ok []
  end.

(** The block of [__call__] under its [execute] comment: the launch, on
    arrays reshaped by the number of loop dimensions of the schedule. *)
Definition execute (self : t) (kernel_ : kernel V) (schedule_ : schedule_t)
    (params : list ndarray) (retval : ndarray) : M V () :=
  if decide (loopn schedule_ ≤ 0)%Z
  then raise (AssertionError "zero looping dimension")
  else
    match loopdims schedule_ with
    | [] =>
        do newparams <- lift (reshape_all 1 params (map shape params));
        do newretval <- lift (device_reshape retval (1 :: shape retval));
        _launch_kernel self kernel_ (loopn schedule_) (newparams ++ [newretval])
    | _ :: _ :: _ =>
        let odim := Z.to_nat (loopn schedule_) in
        do newparams <- lift (reshape_all odim params (ishapes schedule_));
        do osh <- lift (first (oshapes schedule_));
        do newretval <- lift (device_reshape retval (odim :: osh));
        _launch_kernel self kernel_ (loopn schedule_) (newparams ++ [newretval])
    | [_] =>
        _launch_kernel self kernel_ (loopn schedule_) (params ++ [retval])
    end.

Definition __call__ (self : t) (args : list ndarray) (kws : kwargs)
    : M V ndarray :=
  let is_device_array := map is_cuda_ndarray args in
  if negb (eqb (existsb id is_device_array) (forallb id is_device_array))
  then raise (TypeError
                "if device array is used, all arguments must be device array.")
  else
    let out := kw_out kws in
    let need_cuda_conv := negb (existsb id is_device_array) in
    do inputs <- (if need_cuda_conv then mapM_ np_array args else ret args);
    let input_shapes := map shape inputs in
    do schedule_ <- lift (schedule (engine self) input_shapes);
    let idtypes := map dtype inputs in
    do '(outdtype, kernel_) <-
      lift (match table_lookup (kernelmap self) idtypes with
            | Some rk => Ok rk
            | None => Raise (KeyError (dtypes_repr idtypes))
            end);
    do _ <-
      lift (match out with
            | Some o =>
                try osh <- first (output_shapes schedule_);
                if decide (osh ≠ shape o)
                then Raise (ValueError "output shape mismatch")
                else Ok ()
            | None => Ok ()
            end);
    do params <- (if need_cuda_conv then mapM_ to_device inputs else ret inputs);
    do retval <-
      match out with
      | Some o =>
          if need_cuda_conv
          then do osh <- lift (first (output_shapes schedule_));
               device_array osh outdtype
          else ret o
      | None =>
          do osh <- lift (first (output_shapes schedule_));
          device_array osh outdtype
      end;
    do _ <- execute self kernel_ schedule_ params retval;
      if need_cuda_conv then copy_to_host retval out
    else match out with
         | None => ret retval
         | Some o => ret o
         end.
End Methods.
End CUDAGenerializedUFunc.


(** ** Vocabulary of the properties *)

(** The pairs of a signature symbol and an axis length that
    [_determine_output_shape] meets, in the order it meets them: for every
    input, its symbols against its axes after the first. *)
Definition symbol_bindings (arrays : list ndarray) (isyms : list (list string))
    : list (string * nat) :=
  concat (map (λ p, zip p.2 (tail (shape p.1))) (zip arrays isyms)).

(** No symbol is paired with two different lengths. *)
Definition consistent (b : list (string * nat)) : Prop :=
  ∀ sym v1 v2, (sym, v1) ∈ b → (sym, v2) ∈ b → v1 = v2.

(** The view [DeviceNDArray.reshape] gives: the same storage under another
    shape. *)
Definition reshaped (a : ndarray) (sh : list nat) : ndarray :=
  {| resid := resid a; dtype := dtype a; shape := sh; strides := c_strides sh;
     base := base a; offset := offset a |}.

(** The array lives in the store. *)
Definition valid {V} (s : state V) (a : ndarray) : Prop :=
  base a < length (heap s).

(** [s'] is [s] after allocations only. *)
Definition extends {V} (s s' : state V) : Prop :=
  ∃ extra, heap s' = heap s ++ extra.

(** The thread ceiling [__call__] arrives at for a kernel: the smaller of
    the hardware limit and [max_blocksize], autotuned when it is the
    hardware limit. *)
Definition max_threads_of {V} (self : dispatcher V) (cuda_func : kernel V)
    : res Z :=
  let max_threads :=
    Z.min (MAX_THREADS_PER_BLOCK cuda_func)
      (CudaUFuncDispatcher.max_blocksize self) in
  if decide (max_threads = MAX_THREADS_PER_BLOCK cuda_func)
  then CudaUFuncDispatcher._apply_autotuning cuda_func max_threads
  else Ok max_threads.

(** What an elementwise kernel with scalar function [f] leaves in its
    output for the inputs [ins], given by their elements in row-major
    order. *)
Definition elementwise_result {V} `{!Elem V} (f : list V → V)
    (ins : list (list V)) (n : nat) : list V :=
  map (λ t, f (map (λ vs, cell vs t) ins)) (seq 0 n).

(** Python's [reduce(op, l)]: the left-to-right fold of a non-empty list. *)
Definition fold_left1 {V} `{!Elem V} (op : V → V → V) (l : list V) : V :=
  match l with
  | [] => elem_uninit
  | x :: l' => foldl op x l'
  end.

(** The binary operation of a kernel with scalar function [f]. *)
Definition binary {V} (f : list V → V) (x y : V) : V := f [x; y].

(** The order in which [__reduce] combines the elements of its array: a
    list of odd length is cut into all but its last element and the last
    one, the first part is folded and the last element is combined with
    the result; a list of even length is halved, the halves are combined
    element by element, and the half is folded in turn while it is longer
    than one.  [fuel] bounds the depth as in [__reduce]. *)
Fixpoint halving_fold {V} `{!Elem V} (fuel : nat) (op : V → V → V)
    (l : list V) : V :=
  match fuel with
  | 0 => elem_uninit
  | S fuel' =>
      let n := length l in
      if decide (n mod 2 ≠ 0) then
        op (halving_fold fuel' op (take (n - 1) l)) (cell l (n - 1))
      else
        let l' := zip_with op (take (n / 2) l) (drop (n / 2) l) in
        if decide (1 < n / 2) then halving_fold fuel' op l' else cell l' 0
  end.

(** The buffer after the threads below [T] have each written [h t] to the
    cell [g t]. *)
Definition writes {V} (g : nat → nat) (h : nat → V) (T : nat) (ob : list V)
    : list V :=
  foldl (λ buf t, <[g t := h t]> buf) ob (seq 0 T).

Section Vocabulary.
Context {V : Type} `{!Elem V}.

(** The dictionary [m] holds exactly the pairs met so far. *)
Definition holds (m : gmap string nat) (seen : list (string * nat)) : Prop :=
  ∀ sym v, m !! sym = Some v ↔ (sym, v) ∈ seen.

(** A computation that records no launch, whether it returns or raises. *)
Definition quiet {A} (m : M V A) : Prop :=
  ∀ s, launches (m s).2 = launches s.

(** What [_adjust_dimension] makes of one array: an array of at most one
    axis with the same elements. *)
Definition flattened (s : state V) (a b : ndarray) : Prop :=
  valid s a ∧ valid s b ∧ ndim b ≤ 1 ∧ resid b = resid a
  ∧ np_prod (shape b) = np_prod (shape a)
  ∧ contents s b = contents s a.

(** What staging makes of one array: a device array on a buffer with the
    same cells, under the same shape, strides and offset. *)
Definition staged (s : state V) (a d : ndarray) : Prop :=
  valid s a ∧ valid s d ∧ resid d = Device
  ∧ buffer s (base d) = buffer s (base a)
  ∧ shape d = shape a ∧ strides d = strides a ∧ offset d = offset a.

(** The output array after [_adjust_dimension]. *)
Definition flat_out (out : ndarray) : ndarray :=
  if decide (1 < ndim out)
  then {| resid := resid out; dtype := dtype out;
          shape := [np_prod (shape out)]; strides := [1];
          base := base out; offset := offset out |}
  else out.

(** What the caller's output array must be for the host path to write the
    result into it: a C-ordered host array of the broadcast shape, of at
    least one axis, that lies within its buffer. *)
Definition out_fits (s : state V) (sh : list nat) (o : ndarray) : Prop :=
  resid o = Host ∧ valid s o ∧ strides o = c_strides (shape o)
  ∧ shape o = sh ∧ sh ≠ []
  ∧ offset o + np_prod sh ≤ length (buffer s (base o)).

(** A 1-D device array of unit stride on buffer [bb]. *)
Definition dview (dt : np_dtype) (bb o n : nat) : ndarray :=
  {| resid := Device; dtype := dt; shape := [n]; strides := [1]; base := bb;
     offset := o |}.

(** The part of the host path after the output array is settled. *)
Definition host_tail (cls : methods V) (cuda_func : kernel V)
    (max_threads element_count : Z) (broadcast_arrays : list ndarray)
    (out : ndarray) : M V ndarray :=
  let reshape_ := shape out in
  do outs <- m_adjust_dimension cls [out];
  match outs with
  | [out] =>
      do broadcast_arrays <- m_adjust_dimension cls broadcast_arrays;
      do '(nctaid, ntid) <-
        lift (CudaUFuncDispatcher._determine_dimensions element_count
                max_threads);
      do device_ins <- mapM_ to_device broadcast_arrays;
      do device_out <- device_array_like out;
      do _ <- launch_kernel cuda_func nctaid ntid (device_ins ++ [device_out])
                None;
      do _ <- copy_to_host device_out (Some out);
      reshape out reshape_
  | _ => raise (ValueError "wrong number of values to unpack")
  end.

(** The device path, after the kernel and the thread ceiling are found. *)
Definition device_path (cls : methods V) (self : dispatcher V)
    (result_dtype : np_dtype) (cuda_func : kernel V) (max_threads : Z)
    (args : list ndarray) (kws : kwargs) : M V ndarray :=
  do args <- mapM_ CudaUFuncDispatcher.scalar_to_zero_strided args;
  do _ <- lift (m_arguments_requirement cls args);
  do conv <- mapM_ _auto_device args;
  let args := map fst conv in
  do element_count <- lift (m_determine_element_count cls args);
  do '(nctaid, ntid) <-
    lift (CudaUFuncDispatcher._determine_dimensions element_count max_threads);
  do device_out <-
    match kw_out kws with
    | None =>
        do out_shape <- lift (m_determine_output_shape cls self args);
        device_array out_shape result_dtype
    | Some device_out =>
        if is_cuda_ndarray device_out then ret device_out
        else raise (TypeError "output array must be a device array")
    end;
  do _ <- launch_kernel cuda_func nctaid ntid (args ++ [device_out])
            (Some element_count);
  ret device_out.
End Vocabulary.


(** ** Objects for the examples *)

(** Integer elements; an uninitialised cell reads as -1. *)
Global Instance Z_Elem : Elem Z :=
  {| elem_uninit := (-1)%Z; elem_zero := 0%Z; elem_one := 1%Z; as_float64 := id |}.

Definition empty_state : state Z := {| heap := []; launches := [] |}.

(** A binary kernel for integer addition. *)
Definition add_kernel : kernel Z :=
  {| MAX_THREADS_PER_BLOCK := 1024; autotune := None;
     krun := elementwise (λ l, foldr Z.add 0%Z l) |}.

Definition add_dispatcher : dispatcher Z :=
  {| functions := [([int64; int64], (int64, add_kernel))];
     max_blocksize_attr := None; inputsig := []; outputsig := [];
     input_symbols := None; output_symbols := None |}.

(** A C-ordered 1-D array of [n] elements on buffer [b]. *)
Definition vector (r : residency) (dt : np_dtype) (b n : nat) : ndarray :=
  {| resid := r; dtype := dt; shape := [n]; strides := [1]; base := b;
     offset := 0 |}.

(** An array scalar (0-d array) on buffer [b]. *)
Definition array_scalar (r : residency) (dt : np_dtype) (b : nat) : ndarray :=
  {| resid := r; dtype := dt; shape := []; strides := []; base := b;
     offset := 0 |}.

(** A generalized dispatcher object for the signature [(i,j),(j,k)->(i,k)]
    whose [input_symbols] and [output_symbols] have been set by hand; the
    constructor sets neither (see [gufunc_dispatcher]). *)
Definition matmul_dispatcher : dispatcher Z :=
  {| functions := [([int64; int64], (int64, add_kernel))];
     max_blocksize_attr := None;
     inputsig := [["i"; "j"]; ["j"; "k"]]; outputsig := ["i"; "k"];
     input_symbols := Some [["i"; "j"]; ["j"; "k"]];
     output_symbols := Some ["i"; "k"] |}.

(** A C-ordered host array of shape [sh] on buffer [b]. *)
Definition host_array (dt : np_dtype) (b : nat) (sh : list nat) : ndarray :=
  {| resid := Host; dtype := dt; shape := sh; strides := c_strides sh;
     base := b; offset := 0 |}.

(** A binary kernel that keeps its first argument unless it is zero: an
    associative operation that is not commutative. *)
Definition first_nonzero (l : list Z) : Z :=
  match l with
  | [x; y] => if decide (x = 0%Z) then y else x
  | _ => 0%Z
  end.

Definition first_nonzero_kernel : kernel Z :=
  {| MAX_THREADS_PER_BLOCK := 1024; autotune := None;
     krun := elementwise first_nonzero |}.

Definition first_nonzero_dispatcher : dispatcher Z :=
  {| functions := [([int64; int64], (int64, first_nonzero_kernel))];
     max_blocksize_attr := None; inputsig := []; outputsig := [];
     input_symbols := None; output_symbols := None |}.

(** A store with two 2x2 operands and a zeroed 2x2 output buffer. *)
Definition matrices_state : state Z :=
  {| heap := [[1; 2; 3; 4]; [10; 20; 30; 40]; [0; 0; 0; 0]]%Z;
     launches := [] |}.

(** A Fortran-ordered 2x2 host array on buffer 2. *)
Definition fortran_out : ndarray :=
  {| resid := Host; dtype := int64; shape := [2; 2]; strides := [1; 2];
     base := 2; offset := 0 |}.

(** A column of two elements and a row of three. *)
Definition column_row_state : state Z :=
  {| heap := [[1; 2]; [10; 20; 30]]%Z; launches := [] |}.

Definition column : ndarray :=
  {| resid := Host; dtype := int64; shape := [2; 1]; strides := [1; 1];
     base := 0; offset := 0 |}.

Definition row : ndarray :=
  {| resid := Host; dtype := int64; shape := [1; 3]; strides := [3; 1];
     base := 1; offset := 0 |}.

(** A schedule with the two loop dimensions 2 and 3 over inner shape (4,),
    and a generalized ufunc object to run it. *)
Definition two_loops : schedule_t :=
  {| output_shapes := [[2; 3; 4]]; loopn := 6; loopdims := [2; 3];
     ishapes := [[4]; [4]]; oshapes := [[4]] |}.

Definition gufunc_object : CUDAGenerializedUFunc.t (V := Z) :=
  {| CUDAGenerializedUFunc.kernelmap := [([int64; int64], (int64, add_kernel))];
     CUDAGenerializedUFunc.engine :=
       {| nout := 1; schedule := λ _, Ok two_loops |};
     CUDAGenerializedUFunc.max_blocksize := (2 ^ 30)%Z |}.

Definition device_cube (b : nat) : ndarray :=
  {| resid := Device; dtype := int64; shape := [2; 3; 4];
     strides := c_strides [2; 3; 4]; base := b; offset := 0 |}.

Definition cubes_state : state Z :=
  {| heap := [replicate 24 1%Z; replicate 24 2%Z; replicate 24 0%Z];
     launches := [] |}.

(** A kernel whose autotuner finds no usable thread count, and a
    dispatcher for it as the constructor builds it. *)
Definition starved_kernel : kernel Z :=
  {| MAX_THREADS_PER_BLOCK := 1024; autotune := Some 0%Z;
     krun := elementwise (λ l, foldr Z.add 0%Z l) |}.

Definition starved_dispatcher : dispatcher Z :=
  CudaUFuncDispatcher.__init__ [([int64; int64], (int64, starved_kernel))].

(** The same table under a [max_blocksize] of 2. *)
Definition capped_dispatcher : dispatcher Z :=
  {| functions := [([int64; int64], (int64, starved_kernel))];
     max_blocksize_attr := Some 2%Z; inputsig := []; outputsig := [];
     input_symbols := None; output_symbols := None |}.

(** A 1-D array of [n] elements that all read the first cell of buffer
    [b]. *)
Definition repeated (r : residency) (dt : np_dtype) (b n : nat) : ndarray :=
  {| resid := r; dtype := dt; shape := [n]; strides := [0]; base := b;
     offset := 0 |}.

(** A generalized dispatcher as its constructor builds it. *)
Definition gufunc_dispatcher : dispatcher Z :=
  CudaGUFuncDispatcher.__init__ [([int64; int64], (int64, add_kernel))]
    ([["i"; "j"]; ["j"; "k"]], ["i"; "k"]).

(** A store with one buffer of five elements. *)
Definition five_state : state Z :=
  {| heap := [[1; 2; 3; 4; 5]]%Z; launches := [] |}.


(** * Properties *)

Section Properties.
Context {V : Type} `{!Elem V}.

(** ** Double precision *)

Section Doubles.
Local Open Scope Z_scope.

Lemma rhe_exact (q den : Z) : 0 < den → round_half_even (q * den) den = q.
Proof.
  intros Hd. unfold round_half_even.
  rewrite Z.div_mul, Z.mod_mul by lia. by rewrite decide_True by lia.
Qed.

Lemma rhe_scale (a b c : Z) :
  0 < b → 0 < c → round_half_even (a * c) (b * c) = round_half_even a b.
Proof.
  intros Hb Hc. unfold round_half_even.
  rewrite Z.div_mul_cancel_r by lia.
  rewrite Zmult_mod_distr_r.
  repeat case_decide; try done; nia.
Qed.

Lemma rhe_bounds (a b : Z) :
  0 < b → a / b ≤ round_half_even a b ≤ a / b + 1.
Proof.
  intros Hb. unfold round_half_even. repeat case_decide; try lia.
  destruct (Z.even _); lia.
Qed.

Lemma rhe_le (a b N : Z) : 0 < b → a ≤ N * b → round_half_even a b ≤ N.
Proof.
  intros Hb Ha. unfold round_half_even.
  pose proof (Z.div_mod a b ltac:(lia)) as Hdm.
  pose proof (Z.mod_pos_bound a b Hb) as Hm.
  assert (a / b ≤ N) by nia.
  destruct (decide (a / b = N)) as [Hq|Hq].
  - assert (a mod b = 0) by nia. rewrite decide_True by lia. lia.
  - repeat case_decide; try lia. destruct (Z.even _); lia.
Qed.

Lemma rhe_up (a b q r : Z) :
  0 < b → a = q * b + r → 0 ≤ r < b → b < 2 * r → round_half_even a b = q + 1.
Proof.
  intros Hb Ha Hr H2. unfold round_half_even.
  assert (a / b = q) as Hq.
  { symmetry. apply (Z.div_unique_pos a b q r); lia. }
  assert (a mod b = r) as Hm.
  { symmetry. apply (Z.mod_unique_pos a b q r); lia. }
  rewrite Hq, Hm. rewrite decide_False by lia. by rewrite decide_True by lia.
Qed.

Lemma float_one_pos : 0 < float_one.
Proof. unfold float_one. apply Z.pow_pos_nonneg; lia. Qed.

Lemma nearest_scale (a b c : Z) :
  0 < b → 0 < c → nearest (a * c) (b * c) = nearest a b.
Proof.
  intros Hb Hc. unfold nearest.
  replace (a * c * float_one) with (a * float_one * c) by lia.
  rewrite Z.div_mul_cancel_r by lia.
  set (j := Z.max _ 0).
  replace (b * c * 2 ^ j) with (b * 2 ^ j * c) by lia.
  rewrite rhe_scale; [done| |done].
  assert (0 < 2 ^ j) by (apply Z.pow_pos_nonneg; lia). nia.
Qed.

(** Integers up to [2^53] are doubles. *)
Lemma nearest_int (n : Z) :
  0 ≤ n ≤ 2 ^ 53 → nearest n 1 = n * float_one.
Proof.
  intros Hn. unfold nearest. rewrite Z.div_1_r.
  destruct (decide (n = 0)) as [->|Hn0].
  { by rewrite !Z.mul_0_l. }
  assert (Z.log2 (n * float_one) = 1074 + Z.log2 n) as ->.
  { unfold float_one. apply Z.log2_mul_pow2; lia. }
  pose proof (Z.log2_nonneg n) as Hl0.
  assert (Z.log2 n ≤ 53) as Hl53.
  { rewrite <- (Z.log2_pow2 53) by lia. apply Z.log2_le_mono. lia. }
  rewrite Z.max_l by lia.
  set (l := Z.log2 n) in *.
  destruct (decide (l = 53)) as [Hl|Hl].
  - assert (n = 2 ^ 53) as ->.
    { pose proof (Z.log2_spec n ltac:(lia)) as [Hlo _]. fold l in Hlo.
      rewrite Hl in Hlo. lia. }
    rewrite Hl. replace (1074 + 53 - 52) with 1075 by lia.
    replace (2 ^ 53 * float_one) with (2 ^ 52 * 2 ^ 1075).
    2:{ unfold float_one. rewrite <- !Z.pow_add_r by lia. done. }
    rewrite Z.mul_1_l, rhe_exact; [done|]. apply Z.pow_pos_nonneg; lia.
  - set (j := 1074 + l - 52).
    assert (float_one = 2 ^ (52 - l) * 2 ^ j) as Hone.
    { unfold float_one, j. rewrite <- Z.pow_add_r by lia. f_equal. lia. }
    rewrite Z.mul_1_l. rewrite Hone at 1.
    rewrite Z.mul_assoc, rhe_exact by (apply Z.pow_pos_nonneg; lia).
    rewrite Hone. lia.
Qed.

(** The quotient of an integer up to [2^53] by a positive integer is
    rounded to a double that lies between the same integers. *)
Lemma nearest_quotient (n d : Z) :
  0 ≤ n ≤ 2 ^ 53 → 1 ≤ d < 2 ^ 1024 →
  (- ((- n) / d) - 1) * float_one < nearest n d ≤ - ((- n) / d) * float_one.
Proof.
  intros Hn Hd.
  pose proof float_one_pos as H1.
  pose proof (Z.div_mod n d ltac:(lia)) as Hdm.
  pose proof (Z.mod_pos_bound n d ltac:(lia)) as Hmod.
  set (k := n / d) in *. set (r := n mod d) in *.
  assert (0 ≤ k) as Hk0 by (apply Z.div_pos; lia).
  destruct (decide (r = 0)) as [Hr|Hr].
  - (* the quotient is an integer *)
    assert (- ((- n) / d) = k) as ->.
    { replace (- n) with ((- k) * d) by lia. rewrite Z.div_mul by lia. lia. }
    replace (nearest n d) with (nearest (k * d) (1 * d)) by (f_equal; lia).
    rewrite nearest_scale by lia.
    rewrite nearest_int by nia. lia.
  - assert (- ((- n) / d) = k + 1) as ->.
    { assert ((- n) / d = - k - 1); [|lia].
      symmetry. apply (Z.div_unique_pos (- n) d (- k - 1) (d - r)); lia. }
    assert (2 ≤ d) as Hd2 by lia.
    unfold nearest.
    set (w := n * float_one / d).
    assert (w * d ≤ n * float_one) as Hw.
    { unfold w. rewrite Z.mul_comm. apply Z.mul_div_le. lia. }
    assert (0 ≤ w) as Hw0 by (apply Z.div_pos; nia).
    set (j := Z.max (Z.log2 w - 52) 0).
    assert (0 ≤ j ≤ 1074) as Hj.
    { split; [lia|]. apply Z.max_lub; [|lia].
      assert (Z.log2 w ≤ 1126); [|lia].
      rewrite <- (Z.log2_pow2 1126) by lia. apply Z.log2_le_mono.
      assert (w * 2 ≤ 2 ^ 53 * float_one) by nia.
      assert (2 ^ 53 * float_one = 2 ^ 1126 * 2) as Heq.
      { unfold float_one. rewrite <- !Z.pow_add_r by lia. done. }
      lia. }
    set (T := 2 ^ (1074 - j)).
    assert (0 < T) as HT by (apply Z.pow_pos_nonneg; lia).
    assert (0 < 2 ^ j) as Hpj by (apply Z.pow_pos_nonneg; lia).
    assert (float_one = T * 2 ^ j) as Hone.
    { unfold float_one, T. rewrite <- Z.pow_add_r by lia. f_equal. lia. }
    replace (n * float_one) with (n * T * 2 ^ j) by (rewrite Hone; lia).
    rewrite rhe_scale by lia.
    assert (round_half_even (n * T) d ≤ (k + 1) * T) as Hup.
    { apply rhe_le; [lia|]. nia. }
    assert (k * T + 1 ≤ round_half_even (n * T) d) as Hlo.
    { pose proof (rhe_bounds (n * T) d ltac:(lia)) as [Hfl _].
      assert (k * T ≤ n * T / d) as Hq.
      { apply Z.div_le_lower_bound; [lia|]. nia. }
      destruct (decide (k * T + 1 ≤ n * T / d)) as [?|Hnot]; [lia|].
      assert (n * T / d = k * T) as Hq' by lia.
      assert (r * T < d) as HrT.
      { pose proof (Z.div_mod (n * T) d ltac:(lia)) as Hdm'.
        pose proof (Z.mod_pos_bound (n * T) d ltac:(lia)) as Hm'.
        rewrite Hq' in Hdm'. nia. }
      rewrite (rhe_up (n * T) d (k * T) (r * T)); [lia|lia|nia|nia|].
      (* half a unit in the last place is below the remainder *)
      destruct (decide (j = 0)) as [Hj0|Hj0].
      { assert (T = float_one) as HTe by (rewrite Hone, Hj0; lia).
        assert (2 ^ 1024 ≤ float_one).
        { unfold float_one. apply Z.pow_le_mono_r; lia. }
        nia. }
      assert (j = Z.log2 w - 52) as Hje by lia.
      assert (0 < w) as Hwpos.
      { destruct (decide (w = 0)) as [Hw00|]; [|lia].
        rewrite Hw00 in Hje. simpl in Hje. lia. }
      pose proof (Z.log2_spec w Hwpos) as [Hlw _].
      replace (Z.log2 w) with (j + 52) in Hlw by lia.
      rewrite Z.pow_add_r in Hlw by lia.
      assert (2 ^ 52 * d ≤ n * T) as Hd52.
      { assert (2 ^ j * (2 ^ 52 * d) ≤ 2 ^ j * (n * T)); [|nia].
        replace (2 ^ j * (n * T)) with (n * float_one) by (rewrite Hone; lia).
        nia. }
      assert (d ≤ 2 * T) as HdT by nia.
      destruct (decide (2 ≤ r)) as [?|?]; [nia|].
      assert (r = 1) as Hr1 by lia.
      destruct (decide (d = 2 * T)) as [HdE|?]; [|nia].
      exfalso.
      assert (n = 2 ^ 53) as HnE by nia.
      assert (T = 2 ^ (1073 - j) * 2 ∨ T = 1) as [HTE|HTE].
      { destruct (decide (j = 1074)) as [->|?].
        - right. done.
        - left. unfold T. replace (1074 - j) with (1073 - j + 1) by lia.
          rewrite Z.pow_add_r by lia. by rewrite Z.pow_1_r. }
      + assert (0 < 2 ^ (1073 - j)) by (apply Z.pow_pos_nonneg; lia).
        assert (2 ^ 53 = 2 ^ 52 * 2) as H53 by done.
        lia.
      + assert (2 ^ 53 = 2 ^ 52 * 2) as H53 by done. lia. }
    split; nia.
Qed.

(** Larger integers are rounded to integers from [2^53] on. *)
Lemma nearest_large_int (m : Z) :
  2 ^ 53 ≤ m →
  ∃ y, nearest m 1 = y * float_one ∧ 2 ^ 53 ≤ y.
Proof.
  intros Hm. unfold nearest. rewrite Z.div_1_r, Z.mul_1_l.
  assert (Z.log2 (m * float_one) = 1074 + Z.log2 m) as Hlog.
  { unfold float_one. apply Z.log2_mul_pow2; lia. }
  assert (53 ≤ Z.log2 m) as Hl.
  { rewrite <- (Z.log2_pow2 53) by lia. by apply Z.log2_le_mono. }
  rewrite Hlog, Z.max_l by lia.
  set (j := 1074 + Z.log2 m - 52).
  assert (2 ^ j = 2 ^ (j - 1074) * float_one) as Hj.
  { unfold float_one. rewrite <- Z.pow_add_r by lia. f_equal. lia. }
  assert (0 < 2 ^ j) as Hpj by (apply Z.pow_pos_nonneg; lia).
  assert (2 * 1 ≤ 2 ^ (j - 1074)) as Hp1.
  { rewrite <- (Z.pow_1_r 2) at 1. rewrite Z.mul_1_r.
    apply Z.pow_le_mono_r; lia. }
  exists (round_half_even (m * float_one) (2 ^ j) * 2 ^ (j - 1074)).
  split; [rewrite Hj at 2; lia|].
  pose proof (rhe_bounds (m * float_one) (2 ^ j) Hpj) as [Hfl _].
  assert (2 ^ 52 ≤ m * float_one / 2 ^ j) as Hq.
  { apply Z.div_le_lower_bound; [done|].
    pose proof (Z.log2_spec (m * float_one)) as [Hlo _].
    { pose proof float_one_pos. nia. }
    rewrite Hlog in Hlo.
    replace (1074 + Z.log2 m) with (j + 52) in Hlo by lia.
    rewrite Z.pow_add_r in Hlo by lia. lia. }
  assert (2 ^ 53 = 2 ^ 52 * 2) as -> by done. nia.
Qed.

Lemma float_huge_one : float_huge = 2 ^ 1024 * float_one.
Proof. unfold float_huge, float_one. by rewrite <- Z.pow_add_r by lia. Qed.

Lemma float_of_int_exact (n : Z) :
  0 ≤ n ≤ 2 ^ 53 → float_of_int n = Ok (n * float_one).
Proof.
  intros Hn. unfold float_of_int.
  pose proof float_one_pos. pose proof float_huge_one.
  rewrite (Z.abs_eq n) by lia. rewrite nearest_int by done.
  assert (2 ^ 53 < 2 ^ 1024) by (apply Z.pow_lt_mono_r; done).
  assert (Z.sgn n * (n * float_one) = n * float_one) as ->.
  { destruct (decide (n = 0)) as [->|?]; [done|].
    rewrite Z.sgn_pos by lia. lia. }
  rewrite decide_False; [done|]. rewrite Z.abs_eq by nia. nia.
Qed.

(** A thread ceiling converts to a positive integer, the ceiling itself
    up to [2^53] and some integer from [2^53] on above. *)
Lemma float_of_int_positive (m : Z) (y : Z) :
  1 ≤ m → float_of_int m = Ok y →
  ∃ d, y = d * float_one ∧ 1 ≤ d < 2 ^ 1024
       ∧ (m ≤ 2 ^ 53 → d = m) ∧ (2 ^ 53 ≤ m → 2 ^ 53 ≤ d).
Proof.
  intros Hm Hy. pose proof float_one_pos. pose proof float_huge_one.
  assert (2 ^ 53 < 2 ^ 1024) by (apply Z.pow_lt_mono_r; done).
  destruct (decide (m ≤ 2 ^ 53)) as [Hle|Hgt].
  - rewrite float_of_int_exact in Hy by lia. injection Hy as <-.
    exists m. repeat split; lia.
  - unfold float_of_int in Hy. rewrite (Z.abs_eq m), Z.sgn_pos in Hy by lia.
    destruct (nearest_large_int m ltac:(lia)) as (d & Hd & Hd53).
    rewrite Hd in Hy. rewrite Z.mul_1_l in Hy.
    destruct (decide _) as [|Hfin]; [done|]. injection Hy as <-.
    rewrite Z.abs_eq in Hfin by nia.
    exists d. repeat split; try lia. nia.
Qed.

Lemma int_of_ceil (q c : Z) :
  0 ≤ c ≤ 2 ^ 53 → (c - 1) * float_one < q ≤ c * float_one →
  int_of_float (math_ceil q) = Ok c.
Proof.
  intros Hc Hq. pose proof float_one_pos. pose proof float_huge_one.
  assert (2 ^ 53 < 2 ^ 1024) by (apply Z.pow_lt_mono_r; done).
  assert (math_ceil q = c * float_one) as ->.
  { unfold math_ceil. f_equal.
    assert ((- q) / float_one = - c); [|lia].
    symmetry. apply (Z.div_unique_pos (- q) float_one (- c) (c * float_one - q)); lia. }
  unfold int_of_float. rewrite decide_False by (rewrite Z.abs_eq; nia).
  by rewrite Z.quot_mul by lia.
Qed.

Lemma ceil_below (n d : Z) : 1 ≤ n ≤ d → - ((- n) / d) = 1.
Proof.
  intros Hn. assert ((- n) / d = - 1); [|lia].
  symmetry. apply (Z.div_unique_pos (- n) d (- 1) (d - n)); lia.
Qed.

(** The quotient of a count up to [2^53] by a positive integer that
    converts to a float: the double it rounds to lies between the same
    integers as the quotient itself. *)
Lemma float_quotient (n m : Z) (y : pyfloat) :
  0 ≤ n ≤ 2 ^ 53 → 1 ≤ m → float_of_int m = Ok y →
  ∃ q, float_of_int n = Ok (n * float_one)
       ∧ float_div (n * float_one) y = Ok q
       ∧ 0 ≤ q
       ∧ (- ((- n) / m) - 1) * float_one < q ≤ - ((- n) / m) * float_one
       ∧ 0 ≤ - ((- n) / m) ≤ 2 ^ 53.
Proof.
  intros Hn Hm Hy. pose proof float_one_pos.
  destruct (float_of_int_positive m y Hm Hy)
    as (d & -> & Hd & Hsmall & Hlarge).
  eexists. split; [by apply float_of_int_exact|].
  unfold float_div. rewrite decide_False by lia.
  split; [reflexivity|].
  rewrite !Z.abs_eq by nia. rewrite nearest_scale by lia.
  pose proof (nearest_quotient n d Hn Hd) as Hq.
  assert (- ((- n) / d) = - ((- n) / m)) as Hc.
  { destruct (decide (m ≤ 2 ^ 53)) as [?|?]; [by rewrite Hsmall|].
    destruct (decide (n = 0)) as [->|?]; [by rewrite !Z.div_0_l by lia|].
    rewrite !ceil_below; lia. }
  rewrite Hc in Hq.
  assert (0 ≤ - ((- n) / m) ≤ 2 ^ 53 ∧ (1 ≤ n → 1 ≤ - ((- n) / m)))
    as [Hcb Hc1].
  { pose proof (Z.div_mod (- n) m ltac:(lia)).
    pose proof (Z.mod_pos_bound (- n) m ltac:(lia)). nia. }
  rewrite (Z.sgn_pos (d * float_one)) by nia.
  destruct (decide (n = 0)) as [->|?].
  - assert (- ((- 0) / m) = 0) as Hz.
    { change (- 0) with 0. by rewrite Z.div_0_l by lia. }
    rewrite Hz in *. rewrite Z.mul_0_l. simpl Z.sgn. lia.
  - rewrite Z.sgn_pos by nia. specialize (Hc1 ltac:(lia)).
    split; [nia|]. split; [lia|done].
Qed.

(** [int(x)], plus one when that is below [x], is the ceiling of [x]. *)
Lemma int_of_float_up (q c : Z) :
  0 ≤ c ≤ 2 ^ 53 → 0 ≤ q → (c - 1) * float_one < q ≤ c * float_one →
  ∃ t, int_of_float q = Ok t
       ∧ (if decide (t * float_one < q) then t + 1 else t) = c.
Proof.
  intros Hc Hq0 Hq. pose proof float_one_pos. pose proof float_huge_one.
  assert (2 ^ 53 < 2 ^ 1024) by (apply Z.pow_lt_mono_r; done).
  unfold int_of_float. rewrite decide_False by (rewrite Z.abs_eq; nia).
  eexists. split; [reflexivity|].
  rewrite Z.quot_div_nonneg by lia.
  pose proof (Z.div_mod q float_one ltac:(lia)) as Hdm.
  pose proof (Z.mod_pos_bound q float_one ltac:(lia)) as Hmod.
  case_decide; nia.
Qed.

End Doubles.

(** ** Launch geometry *)

Lemma ceiling_bounds (n m : Z) :
  (1 ≤ m)%Z →
  ((- ((- n) / m) - 1) * m < n ≤ - ((- n) / m) * m)%Z.
Proof.
  intros Hm.
  pose proof (Z.div_mod (- n) m ltac:(lia)) as Hdm.
  pose proof (Z.mod_pos_bound (- n) m ltac:(lia)) as Hb.
  set (q := ((- n) / m)%Z) in *. set (r := ((- n) mod m)%Z) in *. nia.
Qed.

Lemma blocks_cover (n m : Z) :
  (0 ≤ n)%Z → (1 ≤ m)%Z → (n ≤ - ((- n) / m) * Z.min m n)%Z.
Proof.
  intros Hn Hm. pose proof (ceiling_bounds n m Hm) as Hc.
  set (c := (- ((- n) / m))%Z) in *.
  destruct (decide (n = 0%Z)) as [->|Hn0]; [lia|].
  assert (1 ≤ c)%Z by nia.
  destruct (Z.min_spec m n) as [[? ->]|[? ->]]; nia.
Qed.

(** The quotient of a count up to [2^53] by a thread ceiling that
    converts to a float rounds to a double between the same integers as
    the quotient itself, so the block count is the exact ceiling. *)
Lemma determine_dimensions_spec (n max_thread : Z) (y : pyfloat) :
  (0 ≤ n ≤ 2 ^ 53)%Z → (1 ≤ max_thread)%Z →
  float_of_int max_thread = Ok y →
  CudaUFuncDispatcher._determine_dimensions n max_thread
  = Ok ((- ((- n) / max_thread))%Z, Z.min max_thread n).
Proof.
  intros Hn Hm Hy.
  destruct (float_quotient n max_thread y Hn Hm Hy)
    as (q & Hx & Hdiv & Hq0 & Hq & Hc).
  unfold CudaUFuncDispatcher._determine_dimensions.
  rewrite Hx, Hy. simpl. rewrite Hdiv. simpl.
  by rewrite (int_of_ceil q _ Hc Hq).
Qed.

(** C3, as amended.  For an element count [n] from 1 to [2^53] and a
    thread ceiling [max_thread >= 1] that converts to a float,
    [_determine_dimensions] returns the thread count [min(max_thread, n)]
    and the block count [ceil(n / max_thread)], that is the one integer
    [b] with [(b - 1) * max_thread < n <= b * max_thread]; the blocks times
    the threads cover [n], and the thread count does not exceed the
    ceiling. *)
Theorem determine_dimensions_geometry (n max_thread : Z) (y : pyfloat) :
  (1 ≤ n ≤ 2 ^ 53)%Z → (1 ≤ max_thread)%Z →
  float_of_int max_thread = Ok y →
  ∃ block_count thread_count,
    CudaUFuncDispatcher._determine_dimensions n max_thread
      = Ok (block_count, thread_count)
    ∧ thread_count = Z.min max_thread n
    ∧ ((block_count - 1) * max_thread < n ≤ block_count * max_thread)%Z
    ∧ (n ≤ block_count * thread_count)%Z
    ∧ (thread_count ≤ max_thread)%Z.
Proof.
  intros Hn Hm Hy. eexists _, _.
  split; [apply (determine_dimensions_spec n max_thread y); [lia|done|done]|].
  split; [done|]. split; [by apply ceiling_bounds|].
  split; [apply blocks_cover; lia|lia].
Qed.

(** ** Checks on device-resident arguments *)

(** Formatting the length message with the one value [ms] fails. *)
Lemma length_message_fails (ms : nat) :
  py_format "arg %d should have length %d" [pretty ms]
  = Raise (TypeError "not enough arguments for format string").
Proof. reflexivity. Qed.

(** So the last loop of [_arguments_requirement] either passes or raises
    that [TypeError]; it passes exactly when all lengths are [ms]. *)
Lemma check_lengths_outcome (ms : nat) (array_shapes : list (nat * nat)) :
  (Forall (λ p, p.2 = ms) array_shapes
   ∧ CudaUFuncDispatcher.check_lengths ms array_shapes = Ok ())
  ∨ (¬ Forall (λ p, p.2 = ms) array_shapes
     ∧ CudaUFuncDispatcher.check_lengths ms array_shapes
       = Raise (TypeError "not enough arguments for format string")).
Proof.
  induction array_shapes as [|[i n] l IH]; simpl.
  - left. split; [constructor|reflexivity].
  - destruct (decide (ms ≠ n)) as [Hne|Heq].
    + right. split; [|reflexivity].
      intros HF. inversion HF; subst. simpl in *. congruence.
    + assert (n = ms) as ->.
      { destruct (decide (n = ms)) as [|Hn]; [done|].
        exfalso. apply Heq. intros E. by apply Hn. }
      destruct IH as [[HF ->]|[HF ->]].
      * left. split; [constructor; done|reflexivity].
      * right. split; [|reflexivity].
        intros HF'. inversion HF'; subst. done.
Qed.

(** The generalized ufunc object does reject a call that mixes host and
    device arrays, before it does anything else. *)
Lemma generalized_call_rejects_mixed (self : CUDAGenerializedUFunc.t)
    (args : list ndarray) (kws : kwargs) (s : state V) (a b : ndarray) :
  a ∈ args → is_cuda_ndarray a = true →
  b ∈ args → is_cuda_ndarray b = false →
  CUDAGenerializedUFunc.__call__ self args kws s
  = (Raise (TypeError
              "if device array is used, all arguments must be device array."),
     s).
Proof.
  intros Ha Hda Hb Hdb. unfold CUDAGenerializedUFunc.__call__.
  assert (existsb id (map is_cuda_ndarray args) = true) as ->.
  { apply existsb_exists. exists true. split; [|done].
    apply in_map_iff. exists a. split; [done|]. by apply list_elem_of_In. }
  assert (forallb id (map is_cuda_ndarray args) = false) as ->.
  { apply not_true_is_false. intros HF.
    rewrite forallb_forall in HF.
    specialize (HF false). simpl in HF. assert (false = true); [|done].
    apply HF. apply in_map_iff. exists b. split; [done|].
    by apply list_elem_of_In. }
  reflexivity.
Qed.

(** ** Views and the store *)

Lemma length_positions (sh st : list nat) (off : nat) :
  length (positions sh st off) = np_prod sh.
Proof.
  revert st off. induction sh as [|d sh IH]; intros st off; [done|].
  simpl. generalize 0 at 2. induction d as [|d IHd]; intros k; [done|].
  simpl. rewrite length_app, IH, IHd. done.
Qed.

Lemma flat_map_seq_blocks (n d off k : nat) :
  flat_map (λ i, seq (off + i * n) n) (seq k d) = seq (off + k * n) (d * n).
Proof.
  revert k. induction d as [|d IH]; intros k; [done|].
  simpl. rewrite IH, seq_app. do 2 f_equal. lia.
Qed.

Lemma positions_contiguous_dims (sh st : list nat) (off : nat) :
  contiguous_dims sh st = true → positions sh st off = seq off (np_prod sh).
Proof.
  revert st off. induction sh as [|d sh IH]; intros st off Hc; [done|].
  simpl in Hc. apply andb_true_iff in Hc as [Hd Hc]. simpl.
  apply orb_true_iff in Hd as [Hd|Hd].
  - apply bool_decide_eq_true in Hd as ->. simpl.
    rewrite app_nil_r, IH by done. f_equal; lia.
  - apply bool_decide_eq_true in Hd as ->.
    erewrite flat_map_ext; [|intros i; apply IH, Hc].
    rewrite (flat_map_seq_blocks (np_prod sh) d off 0). f_equal. lia.
Qed.

Lemma positions_contiguous (a : ndarray) :
  is_c_contiguous a = true →
  positions (shape a) (strides a) (offset a)
  = seq (offset a) (np_prod (shape a)).
Proof.
  unfold is_c_contiguous. intros Hc. apply orb_true_iff in Hc as [Hc|Hc].
  - apply bool_decide_eq_true in Hc.
    rewrite Hc. simpl. apply nil_length_inv.
    by rewrite length_positions.
  - by apply positions_contiguous_dims.
Qed.

Lemma contiguous_c_strides (sh : list nat) :
  contiguous_dims sh (c_strides sh) = true.
Proof.
  induction sh as [|d sh IH]; [done|]. simpl.
  rewrite IH, (bool_decide_eq_true_2 (np_prod sh = np_prod sh)) by done.
  by rewrite orb_true_r.
Qed.

Lemma cells_of_replicate (n : nat) (x : V) :
  map (cell (replicate n x)) (seq 0 n) = replicate n x.
Proof.
  apply list_eq. intros i. rewrite list_lookup_fmap.
  destruct (decide (i < n)) as [Hi|Hi].
  - rewrite lookup_seq_lt by done. simpl. unfold cell.
    rewrite !lookup_replicate_2 by done. done.
  - rewrite lookup_seq_ge by lia. rewrite (proj1 (lookup_replicate_None n x i)) by lia.
    done.
Qed.

Lemma buffer_alloc (s : state V) (buf : list V) :
  buffer (alloc buf s).2 (length (heap s)) = buf.
Proof.
  unfold buffer, alloc. simpl.
  rewrite lookup_app_r by done. by rewrite Nat.sub_diag.
Qed.

(** ** Output allocation *)

(** Whenever the shape resolution returns a shape (which takes a
    dispatcher object with its symbols set), the array [_allocate_output]
    of the generalized dispatcher returns has that shape, the dtype of the
    first input whatever the result dtype of the kernel table is, and
    holds zeros only; the elementwise dispatcher allocates with the result
    dtype. *)
Lemma allocate_output_with_symbols (self : dispatcher V)
    (arrays : list ndarray) (result_dtype : np_dtype) (sh : list nat)
    (s : state V) :
  CudaGUFuncDispatcher._determine_output_shape self arrays = Ok sh →
  ∃ a out s',
    first arrays = Ok a
    ∧ m_allocate_output CudaGUFuncDispatcher.cls self arrays result_dtype s
      = (Ok out, s')
    ∧ dtype out = dtype a
    ∧ shape out = sh
    ∧ contents s' out = replicate (np_prod sh) elem_zero
    ∧ ∃ out' s'',
        m_allocate_output CudaUFuncDispatcher.cls self arrays result_dtype s
        = (Ok out', s'')
        ∧ dtype out' = result_dtype.
Proof.
  intros Hsh. destruct arrays as [|a rest].
  { unfold CudaGUFuncDispatcher._determine_output_shape in Hsh.
    destruct (input_symbols self); [|done]. simpl in Hsh.
    destruct (output_symbols self); [|done].
    destruct (CudaGUFuncDispatcher.lookup_symbols _ _); done. }
  exists a. simpl.
  unfold CudaGUFuncDispatcher._allocate_output, bind, lift. rewrite Hsh. simpl.
  eexists _, _. split; [done|]. split; [reflexivity|]. simpl.
  split; [done|]. split; [done|]. split.
  - unfold contents. simpl.
    rewrite positions_contiguous_dims by apply contiguous_c_strides.
    unfold peek, buffer. simpl.
    rewrite lookup_app_r by done. rewrite Nat.sub_diag. simpl.
    apply cells_of_replicate.
  - unfold CudaUFuncDispatcher._allocate_output, bind, lift. simpl.
    eexists _, _. split; [reflexivity|done].
Qed.

(** ** Shapes of a generalized signature *)

Lemma consistent_snoc (seen : list (string * nat)) (sym : string) (v : nat) :
  consistent seen →
  (∀ v', (sym, v') ∈ seen → v' = v) →
  consistent (seen ++ [(sym, v)]).
Proof.
  intros Hc Hv s v1 v2 H1 H2.
  apply elem_of_app in H1 as [H1|H1]; apply elem_of_app in H2 as [H2|H2].
  - by eapply Hc.
  - apply list_elem_of_singleton in H2. injection H2 as -> ->. by apply Hv.
  - apply list_elem_of_singleton in H1. injection H1 as -> ->.
    symmetry. by apply Hv.
  - apply list_elem_of_singleton in H1. apply list_elem_of_singleton in H2.
    congruence.
Qed.

Lemma holds_insert (m : gmap string nat) (seen : list (string * nat))
    (sym : string) (v : nat) :
  holds m seen →
  (∀ v', (sym, v') ∈ seen → v' = v) →
  holds (<[sym := v]> m) (seen ++ [(sym, v)]).
Proof.
  intros Hm Hv s w. rewrite elem_of_app, list_elem_of_singleton.
  destruct (decide (sym = s)) as [->|Hne].
  - rewrite lookup_insert_eq. split.
    + intros [= ->]. by right.
    + intros [Hin|[= ->]]; [|done]. f_equal. symmetry. by apply Hv.
  - rewrite lookup_insert_ne by done. rewrite (Hm s w). split.
    + by left.
    + intros [Hin|[= E _]]; [done|]. by destruct Hne.
Qed.

Lemma bind_symbols_spec (pairs seen : list (string * nat))
    (m : gmap string nat) :
  holds m seen → consistent seen →
  match CudaGUFuncDispatcher.bind_symbols m pairs with
  | Ok m' => holds m' (seen ++ pairs) ∧ consistent (seen ++ pairs)
  | Raise (ValueErrorArgs fmt sym val held) =>
      fmt = "dimension %s mismatch: %d != %d"
      ∧ (sym, val) ∈ seen ++ pairs ∧ (sym, held) ∈ seen ++ pairs ∧ val ≠ held
  | Raise _ => False
  end.
Proof.
  revert seen m. induction pairs as [|[sym val] rest IH]; intros seen m Hm Hc.
  - simpl. by rewrite app_nil_r.
  - simpl. destruct (m !! sym) as [held|] eqn:Hlk.
    + destruct (decide (held ≠ val)) as [Hne|Heq].
      * split; [done|]. split; [|split].
        -- apply elem_of_app. right. by left.
        -- apply elem_of_app. left. by apply Hm.
        -- congruence.
      * assert (held = val) as ->.
        { destruct (decide (held = val)); [done|]. by destruct Heq. }
        assert (∀ v', (sym, v') ∈ seen → v' = val) as Hv.
        { intros v' Hin. apply Hm in Hin. congruence. }
        specialize (IH (seen ++ [(sym, val)]) (<[sym := val]> m)
                      (holds_insert _ _ _ _ Hm Hv)
                      (consistent_snoc _ _ _ Hc Hv)).
        by rewrite <- app_assoc in IH.
    + assert (∀ v', (sym, v') ∈ seen → v' = val) as Hv.
      { intros v' Hin. apply Hm in Hin. congruence. }
      specialize (IH (seen ++ [(sym, val)]) (<[sym := val]> m)
                    (holds_insert _ _ _ _ Hm Hv)
                    (consistent_snoc _ _ _ Hc Hv)).
      by rewrite <- app_assoc in IH.
Qed.

Lemma bind_inputs_spec (inputs : list (ndarray * list string))
    (seen : list (string * nat)) (m : gmap string nat) :
  let all := seen ++ concat (map (λ p, zip p.2 (tail (shape p.1))) inputs) in
  holds m seen → consistent seen →
  match CudaGUFuncDispatcher.bind_inputs m inputs with
  | Ok m' => holds m' all ∧ consistent all
  | Raise (ValueErrorArgs fmt sym val held) =>
      fmt = "dimension %s mismatch: %d != %d"
      ∧ (sym, val) ∈ all ∧ (sym, held) ∈ all ∧ val ≠ held
  | Raise _ => False
  end.
Proof.
  revert seen m. induction inputs as [|[ary symbols] rest IH];
    intros seen m all Hm Hc; subst all.
  - simpl. by rewrite app_nil_r.
  - simpl.
    pose proof (bind_symbols_spec (zip symbols (tail (shape ary))) seen m Hm Hc)
      as Hb.
    destruct (CudaGUFuncDispatcher.bind_symbols m _) as [m'|e]; simpl.
    + destruct Hb as [Hm' Hc']. specialize (IH _ _ Hm' Hc').
      simpl in IH. by rewrite <- app_assoc in IH.
    + destruct e; try done. destruct Hb as (Hf & H1 & H2 & H3).
      rewrite app_assoc. split; [done|]. split; [|split]; [| |done].
      * apply elem_of_app. by left.
      * apply elem_of_app. by left.
Qed.

Lemma lookup_symbols_spec (m : gmap string nat) (symbols : list string) :
  match CudaGUFuncDispatcher.lookup_symbols m symbols with
  | Ok inner => Forall2 (λ sym v, m !! sym = Some v) symbols inner
  | Raise (KeyError sym) => sym ∈ symbols ∧ m !! sym = None
  | Raise _ => False
  end.
Proof.
  induction symbols as [|sym rest IH]; simpl; [constructor|].
  destruct (m !! sym) as [v|] eqn:Hlk.
  - destruct (CudaGUFuncDispatcher.lookup_symbols m rest) as [inner|e]; simpl.
    + by constructor.
    + destruct e; try done. destruct IH. split; [by right|done].
  - split; [by left|done].
Qed.

(** The shape resolution of a dispatcher object whose [input_symbols] and
    [output_symbols] are set (the constructor sets neither):
    [_determine_output_shape] has one of four outcomes.  It returns a shape only when no symbol is
    met with two lengths (the first axis of every input left out), and the
    shape is then the first axis of the first input followed by the lengths
    of the output symbols, in their order.  When a symbol is met with two
    different lengths it raises the [ValueError] that carries the symbol and
    both lengths.  The other two failures, an output symbol no input binds
    and a first input without axes, occur only for consistent lengths. *)
Lemma determine_output_shape_with_symbols (self : dispatcher V)
    (arrays : list ndarray) (isyms : list (list string)) (osyms : list string) :
  input_symbols self = Some isyms →
  output_symbols self = Some osyms →
  let b := symbol_bindings arrays isyms in
  match CudaGUFuncDispatcher._determine_output_shape self arrays with
  | Ok sh =>
      consistent b
      ∧ ∃ a rest d rsh inner,
          arrays = a :: rest ∧ shape a = d :: rsh ∧ sh = d :: inner
          ∧ Forall2 (λ sym v, (sym, v) ∈ b) osyms inner
  | Raise (ValueErrorArgs fmt sym val held) =>
      fmt = "dimension %s mismatch: %d != %d"
      ∧ (sym, val) ∈ b ∧ (sym, held) ∈ b ∧ val ≠ held
  | Raise (KeyError sym) =>
      consistent b ∧ sym ∈ osyms ∧ ∀ v, (sym, v) ∉ b
  | Raise (IndexError _) =>
      consistent b ∧ (arrays = [] ∨ ∃ a rest, arrays = a :: rest ∧ shape a = [])
  | Raise _ => False
  end.
Proof.
  intros Hi Ho b. unfold CudaGUFuncDispatcher._determine_output_shape.
  rewrite Hi, Ho.
  assert (holds ∅ []) as H0.
  { intros sym v. rewrite lookup_empty. split; [done|]. by intros ?%elem_of_nil. }
  assert (consistent []) as Hc0.
  { intros sym v1 v2 ?%elem_of_nil. done. }
  pose proof (bind_inputs_spec (zip arrays isyms) [] ∅ H0 Hc0) as Hb.
  simpl in Hb. fold (symbol_bindings arrays isyms) in Hb. fold b in Hb.
  destruct (CudaGUFuncDispatcher.bind_inputs ∅ (zip arrays isyms)) as [m|e];
    simpl.
  - destruct Hb as [Hm Hc].
    pose proof (lookup_symbols_spec m osyms) as Hl.
    destruct (CudaGUFuncDispatcher.lookup_symbols m osyms) as [inner|e]; simpl.
    + destruct arrays as [|a rest]; simpl.
      { split; [done|by left]. }
      unfold shape0. destruct (shape a) as [|d rsh] eqn:Hsa; simpl.
      { split; [done|]. right. by exists a, rest. }
      split; [done|]. exists a, rest, d, rsh, inner.
      repeat split; try done.
      eapply Forall2_impl; [exact Hl|]. intros sym v Hv. by apply Hm.
    + destruct e; try done. destruct Hl as [Hin Hnone].
      split; [done|]. split; [done|].
      intros v Hv. apply Hm in Hv. congruence.
  - destruct e; done.
Qed.

(** ** The launch of the schedule-driven call *)

Lemma device_reshape_ok (a : ndarray) (sh : list nat) :
  np_prod sh = np_prod (shape a) → device_reshape a sh = Ok (reshaped a sh).
Proof.
  intros Hp. unfold device_reshape. by rewrite decide_True.
Qed.

Lemma reshape_all_ok (d : nat) (params : list ndarray) (shapes : list (list nat)) :
  Forall2 (λ p cs, np_prod (shape p) = d * np_prod cs) params shapes →
  CUDAGenerializedUFunc.reshape_all d params shapes
  = Ok (zip_with (λ p cs, reshaped p (d :: cs)) params shapes).
Proof.
  induction 1 as [|p cs params shapes Hp _ IH]; [done|].
  simpl. rewrite device_reshape_ok by (simpl; lia). simpl.
  rewrite IH. done.
Qed.

Lemma reshape_all_prefix_one (params : list ndarray) :
  CUDAGenerializedUFunc.reshape_all 1 params (map shape params)
  = Ok (map (λ p, reshaped p (1 :: shape p)) params).
Proof.
  rewrite reshape_all_ok.
  - f_equal. induction params as [|p params IH]; [done|].
    simpl. by rewrite IH.
  - induction params as [|p params IH]; constructor; [lia|done].
Qed.

(** The launch of [_launch_kernel] for a positive thread count that
    converts to a float and an element count up to [2^53]: the number of
    blocks is the exact ceiling of the quotient. *)
Lemma launch_kernel_geometry (self : CUDAGenerializedUFunc.t) (k : kernel V)
    (nelem ntid : Z) (y : pyfloat) (args : list ndarray) (s : state V) :
  CUDAGenerializedUFunc._apply_autotuning k
    (Z.min (MAX_THREADS_PER_BLOCK k) (CUDAGenerializedUFunc.max_blocksize self))
  = Ok ntid →
  (1 ≤ ntid)%Z → float_of_int ntid = Ok y → (0 ≤ nelem ≤ 2 ^ 53)%Z →
  ∃ ncta,
    CUDAGenerializedUFunc._launch_kernel self k nelem args s
    = launch_kernel k ncta ntid args None s
    ∧ ((ncta - 1) * ntid < nelem ≤ ncta * ntid)%Z.
Proof.
  intros Ha Ht Hy Hn. unfold CUDAGenerializedUFunc._launch_kernel.
  destruct (float_quotient nelem ntid y Hn Ht Hy)
    as (q & Hx & Hdiv & Hq0 & Hq & Hc).
  destruct (int_of_float_up q _ Hc Hq0 Hq) as (t & Hint & Hup).
  unfold bind, lift. rewrite Ha, Hx, Hy, Hdiv, Hint, Hup.
  eexists. split; [reflexivity|]. by apply ceiling_bounds.
Qed.

Lemma launch_kernel_covers (self : CUDAGenerializedUFunc.t) (k : kernel V)
    (nelem ntid : Z) (args : list ndarray) (s : state V) :
  CUDAGenerializedUFunc._apply_autotuning k
    (Z.min (MAX_THREADS_PER_BLOCK k) (CUDAGenerializedUFunc.max_blocksize self))
  = Ok ntid →
  (1 ≤ ntid ≤ 2 ^ 53)%Z → (0 < nelem ≤ 2 ^ 53)%Z →
  ∃ ncta s',
    CUDAGenerializedUFunc._launch_kernel self k nelem args s = (Ok (), s')
    ∧ ((ncta - 1) * ntid < nelem ≤ ncta * ntid)%Z
    ∧ launches s' = launches s ++ [Launch ncta ntid args None].
Proof.
  intros Ha Ht Hn.
  destruct (launch_kernel_geometry self k nelem ntid (ntid * float_one)%Z
              args s Ha) as (ncta & -> & Hcov); [lia| |lia|].
  { apply float_of_int_exact. lia. }
  unfold launch_kernel. eexists ncta, _. split; [reflexivity|].
  split; [done|reflexivity].
Qed.

(** What [_launch_kernel] records when it returns: one launch of its
    arguments, without a trailing count. *)
Lemma launch_kernel_returns (self : CUDAGenerializedUFunc.t) (k : kernel V)
    (nelem : Z) (args : list ndarray) (s s' : state V) :
  CUDAGenerializedUFunc._launch_kernel self k nelem args s = (Ok (), s') →
  ∃ ncta ntid, launches s' = launches s ++ [Launch ncta ntid args None].
Proof.
  unfold CUDAGenerializedUFunc._launch_kernel, bind, lift.
  destruct (CUDAGenerializedUFunc._apply_autotuning k _) as [ntid|]; [|done].
  destruct (float_of_int nelem) as [x|]; [|done].
  destruct (float_of_int ntid) as [y|]; [|done].
  destruct (float_div x y) as [q|]; [|done].
  destruct (int_of_float q) as [t|]; [|done].
  unfold launch_kernel. intros [= <-]. by eexists _, _.
Qed.

(** The reshapes of the block under the [execute] comment. *)
Lemma execute_unfold (self : CUDAGenerializedUFunc.t) (k : kernel V)
    (sch : schedule_t) (params : list ndarray) (retval : ndarray)
    (osh : list nat) (s : state V) :
  (0 < loopn sch)%Z →
  (1 < length (loopdims sch) →
   Forall2 (λ p cs, np_prod (shape p) = Z.to_nat (loopn sch) * np_prod cs)
     params (ishapes sch)
   ∧ first (oshapes sch) = Ok osh
   ∧ np_prod (shape retval) = Z.to_nat (loopn sch) * np_prod osh) →
  CUDAGenerializedUFunc.execute self k sch params retval s
  = CUDAGenerializedUFunc._launch_kernel self k (loopn sch)
      match loopdims sch with
      | [] => map (λ p, reshaped p (1 :: shape p)) (params ++ [retval])
      | [_] => params ++ [retval]
      | _ :: _ :: _ =>
          zip_with (λ p cs, reshaped p (Z.to_nat (loopn sch) :: cs)) params
            (ishapes sch)
            ++ [reshaped retval (Z.to_nat (loopn sch) :: osh)]
      end s.
Proof.
  intros Hn Hfit. unfold CUDAGenerializedUFunc.execute.
  rewrite decide_False by lia.
  destruct (loopdims sch) as [|d1 [|d2 rest]].
  - unfold bind at 1 2, lift at 1 2. rewrite reshape_all_prefix_one.
    rewrite device_reshape_ok by (simpl; lia).
    by rewrite map_app.
  - done.
  - destruct Hfit as (Hp & Ho & Hr); [simpl; lia|].
    unfold bind at 1 2 3, lift at 1 2 3. rewrite (reshape_all_ok _ _ _ Hp), Ho.
    by rewrite device_reshape_ok by (simpl; lia).
Qed.

(** C7.  The launch of the schedule-driven call, for a positive loop
    count.  The block is one call of [_launch_kernel] with the loop count:
    without loop dimensions on every input and the output under their
    shape prefixed with an axis of length 1; with exactly one loop
    dimension on the arrays as they are; with more than one (where the
    schedule must fit the arrays) on every input under [loopn] followed by
    its inner shape, and so the output.  When the block returns it has
    made one launch of these arrays, without a trailing count.  It does
    return when the thread count is positive and the loop count and the
    thread count are at most [2^53], and then the blocks times the threads
    cover [loopn]. *)
Theorem execute_launch_by_loop_dimensions (self : CUDAGenerializedUFunc.t)
    (k : kernel V) (sch : schedule_t) (params : list ndarray)
    (retval : ndarray) (osh : list nat) (s : state V) :
  let odim := Z.to_nat (loopn sch) in
  let launched :=
    match loopdims sch with
    | [] => map (λ p, reshaped p (1 :: shape p)) (params ++ [retval])
    | [_] => params ++ [retval]
    | _ :: _ :: _ =>
        zip_with (λ p cs, reshaped p (odim :: cs)) params (ishapes sch)
          ++ [reshaped retval (odim :: osh)]
    end in
  (0 < loopn sch)%Z →
  (1 < length (loopdims sch) →
   Forall2 (λ p cs, np_prod (shape p) = odim * np_prod cs) params (ishapes sch)
   ∧ first (oshapes sch) = Ok osh
   ∧ np_prod (shape retval) = odim * np_prod osh) →
  CUDAGenerializedUFunc.execute self k sch params retval s
  = CUDAGenerializedUFunc._launch_kernel self k (loopn sch) launched s
  ∧ (∀ s',
       CUDAGenerializedUFunc.execute self k sch params retval s = (Ok (), s') →
       ∃ ncta ntid,
         launches s' = launches s ++ [Launch ncta ntid launched None])
  ∧ (∀ ntid,
       CUDAGenerializedUFunc._apply_autotuning k
         (Z.min (MAX_THREADS_PER_BLOCK k)
            (CUDAGenerializedUFunc.max_blocksize self))
       = Ok ntid →
       (1 ≤ ntid ≤ 2 ^ 53)%Z → (loopn sch ≤ 2 ^ 53)%Z →
       ∃ ncta s',
         CUDAGenerializedUFunc.execute self k sch params retval s
         = (Ok (), s')
         ∧ ((ncta - 1) * ntid < loopn sch ≤ ncta * ntid)%Z
         ∧ launches s' = launches s ++ [Launch ncta ntid launched None]).
Proof.
  intros odim launched Hn Hfit.
  pose proof (execute_unfold self k sch params retval osh s Hn Hfit) as He.
  fold odim in He. fold launched in He.
  split; [exact He|]. split.
  - intros s' Hs. rewrite He in Hs. by apply launch_kernel_returns in Hs.
  - intros ntid Ha Ht Hl. rewrite He. apply launch_kernel_covers; [done|lia|lia].
Qed.

(** ** Running the monad *)

Lemma bind_ok {A B} (m : M V A) (f : A → M V B) (s s' : state V) (a : A) :
  m s = (Ok a, s') → bind m f s = f a s'.
Proof. intros Hm. unfold bind. by rewrite Hm. Qed.

Lemma bind_raise {A B} (m : M V A) (f : A → M V B) (s s' : state V) (e : pyerr) :
  m s = (Raise e, s') → bind m f s = (Raise e, s').
Proof. intros Hm. unfold bind. by rewrite Hm. Qed.

Global Instance extends_refl : Reflexive (@extends V).
Proof. intros s. exists []. by rewrite app_nil_r. Qed.

Global Instance extends_trans : Transitive (@extends V).
Proof.
  intros s1 s2 s3 [e1 H1] [e2 H2]. exists (e1 ++ e2).
  by rewrite H2, H1, app_assoc.
Qed.

Lemma extends_length (s s' : state V) :
  extends s s' → length (heap s) ≤ length (heap s').
Proof. intros [e He]. rewrite He, length_app. lia. Qed.

Lemma valid_extends (s s' : state V) (a : ndarray) :
  extends s s' → valid s a → valid s' a.
Proof. unfold valid. intros He%extends_length Hv. lia. Qed.

Lemma buffer_extends (s s' : state V) (b : nat) :
  extends s s' → b < length (heap s) → buffer s' b = buffer s b.
Proof.
  intros [e He] Hb. unfold buffer. rewrite He. by rewrite lookup_app_l.
Qed.

Lemma contents_extends (s s' : state V) (a : ndarray) :
  extends s s' → valid s a → contents s' a = contents s a.
Proof.
  intros He Hv. unfold contents, peek. by rewrite (buffer_extends s s').
Qed.

Lemma alloc_spec (buf : list V) (s : state V) :
  ∃ s', alloc buf s = (Ok (length (heap s)), s')
        ∧ extends s s'
        ∧ length (heap s') = S (length (heap s))
        ∧ buffer s' (length (heap s)) = buf
        ∧ launches s' = launches s.
Proof.
  eexists. split; [reflexivity|]. simpl. split; [by eexists|].
  split; [rewrite length_app; simpl; lia|]. split; [|done].
  apply buffer_alloc.
Qed.

Lemma length_contents (s : state V) (a : ndarray) :
  length (contents s a) = np_prod (shape a).
Proof. unfold contents. by rewrite length_map, length_positions. Qed.

(** For an array of at most one axis, thread [t] of an elementwise kernel
    works on element [t]. *)
Lemma positions_flat (a : ndarray) :
  ndim a ≤ 1 →
  positions (shape a) (strides a) (offset a)
  = map (thread_pos a) (seq 0 (np_prod (shape a))).
Proof.
  unfold ndim, thread_pos. destruct (shape a) as [|n [|? ?]]; simpl; [| |lia].
  - intros _. f_equal. lia.
  - intros _. rewrite Nat.mul_1_r. generalize 0 at 2 4.
    induction n as [|n IH]; intros k; [done|]. simpl. by rewrite IH.
Qed.

Lemma cell_contents_flat (s : state V) (a : ndarray) (t : nat) :
  ndim a ≤ 1 → t < np_prod (shape a) →
  cell (contents s a) t = cell (buffer s (base a)) (thread_pos a t).
Proof.
  intros Hf Ht. unfold contents, cell at 1. rewrite positions_flat by done.
  rewrite list_lookup_fmap, list_lookup_fmap, lookup_seq_lt by done. done.
Qed.

(** ** Writes of a launch *)

Section Writes.
Context (g : nat → nat) (h : nat → V).

Lemma writes_S (T : nat) (ob : list V) :
  writes g h (S T) ob = <[g T := h T]> (writes g h T ob).
Proof. unfold writes. by rewrite seq_S, foldl_app. Qed.

Lemma length_writes (T : nat) (ob : list V) :
  length (writes g h T ob) = length ob.
Proof.
  induction T as [|T IH]; [done|]. by rewrite writes_S, length_insert.
Qed.

Lemma writes_other (T : nat) (ob : list V) (p : nat) :
  (∀ t, t < T → g t ≠ p) → writes g h T ob !! p = ob !! p.
Proof.
  induction T as [|T IH]; intros Hp; [done|].
  rewrite writes_S, list_lookup_insert_ne by (apply Hp; lia).
  apply IH. intros t Ht. apply Hp. lia.
Qed.

Lemma writes_lookup (T : nat) (ob : list V) (t : nat) :
  (∀ t1 t2, t1 < T → t2 < T → g t1 = g t2 → t1 = t2) →
  t < T → g t < length ob → writes g h T ob !! g t = Some (h t).
Proof.
  induction T as [|T IH]; intros Hinj Ht Hlen; [lia|].
  rewrite writes_S. destruct (decide (t = T)) as [->|Hne].
  - apply list_lookup_insert_eq. by rewrite length_writes.
  - rewrite list_lookup_insert_ne.
    + apply IH; [|lia|done]. intros t1 t2 H1 H2. apply Hinj; lia.
    + intros Heq. apply Hne. symmetry. apply Hinj; [lia|lia|done].
Qed.
End Writes.

Lemma writes_ext (g g' : nat → nat) (h h' : nat → V) (T : nat) (ob : list V) :
  (∀ t, t < T → g t = g' t) → (∀ t, t < T → h t = h' t) →
  writes g h T ob = writes g' h' T ob.
Proof.
  induction T as [|T IH]; intros Hg Hh; [done|].
  rewrite !writes_S, IH.
  - by rewrite (Hg T), (Hh T) by lia.
  - intros t Ht. apply Hg. lia.
  - intros t Ht. apply Hh. lia.
Qed.

Lemma cells_of_list (l : list V) :
  map (cell l) (seq 0 (length l)) = l.
Proof.
  apply list_eq. intros i. rewrite list_lookup_fmap.
  destruct (decide (i < length l)) as [Hi|Hi].
  - rewrite lookup_seq_lt by done. simpl. unfold cell.
    destruct (lookup_lt_is_Some_2 l i Hi) as [x Hx]. by rewrite Hx.
  - rewrite lookup_seq_ge by lia. simpl. symmetry.
    apply lookup_ge_None. lia.
Qed.

Lemma contents_contiguous (s : state V) (a : ndarray) :
  is_c_contiguous a = true →
  contents s a = map (peek s (base a)) (seq (offset a) (np_prod (shape a))).
Proof. intros Hc. unfold contents. by rewrite positions_contiguous. Qed.

(** ** The array library on the store *)

Lemma mapM_spec {A B} (f : A → M V B) (P : state V → A → Prop)
    (Q : state V → A → B → Prop) (l : list A) (s : state V) :
  (∀ s s' a, extends s s' → P s a → P s' a) →
  (∀ s s' a b, extends s s' → Q s a b → Q s' a b) →
  (∀ s a, a ∈ l → P s a →
     ∃ b s', f a s = (Ok b, s') ∧ extends s s'
             ∧ launches s' = launches s ∧ Q s' a b) →
  Forall (P s) l →
  ∃ bs s', mapM_ f l s = (Ok bs, s') ∧ extends s s'
           ∧ launches s' = launches s ∧ Forall2 (Q s') l bs.
Proof.
  intros HP HQ Hf. revert s. induction l as [|a l IH]; intros s Hl.
  - exists [], s. repeat split; [reflexivity|constructor].
  - inversion Hl as [|? ? Ha Hl']; subst.
    destruct (Hf s a ltac:(by left) Ha) as (b & s1 & Hfa & He1 & Hl1 & Hq).
    destruct (IH ltac:(intros; apply Hf; [by right|done]) s1) as
      (bs & s2 & Hm & He2 & Hl2 & Hqs).
    { eapply Forall_impl; [exact Hl'|]. intros x. by apply HP. }
    exists (b :: bs), s2. simpl.
    rewrite (bind_ok _ _ _ _ _ Hfa), (bind_ok _ _ _ _ _ Hm).
    repeat split.
    + by etrans.
    + congruence.
    + constructor; [by eapply HQ|done].
Qed.

Lemma host_copy_spec (a : ndarray) (sh : list nat) (s : state V) :
  np_prod sh = np_prod (shape a) →
  ∃ s', host_copy a sh s
        = (Ok {| resid := Host; dtype := dtype a; shape := sh;
                 strides := c_strides sh; base := length (heap s);
                 offset := 0 |}, s')
        ∧ extends s s'
        ∧ length (heap s') = S (length (heap s))
        ∧ buffer s' (length (heap s)) = contents s a
        ∧ launches s' = launches s.
Proof.
  intros Hp. unfold host_copy, get_contents, bind.
  destruct (alloc_spec (contents s a) s) as (s' & Ha & He & Hl & Hb & Hla).
  rewrite Ha. exists s'. done.
Qed.

Lemma contents_fresh (s : state V) (r : residency) (dt : np_dtype)
    (sh : list nat) (b : nat) (vs : list V) :
  buffer s b = vs → length vs = np_prod sh →
  contents s {| resid := r; dtype := dt; shape := sh; strides := c_strides sh;
                base := b; offset := 0 |} = vs.
Proof.
  intros Hb Hl. unfold contents. simpl.
  rewrite positions_contiguous_dims by apply contiguous_c_strides.
  unfold peek. rewrite Hb, <- Hl. apply cells_of_list.
Qed.

Lemma flattened_extends (s s' : state V) (a b : ndarray) :
  extends s s' → flattened s a b → flattened s' a b.
Proof.
  intros He (Ha & Hb & Hn & Hr & Hp & Hc).
  repeat split; try done; try by eapply valid_extends.
  by rewrite !(contents_extends s s').
Qed.

Lemma ravel_spec (a : ndarray) (s : state V) :
  valid s a → resid a = Host →
  ∃ b s', ravel a s = (Ok b, s') ∧ extends s s'
          ∧ launches s' = launches s ∧ flattened s' a b
          ∧ shape b = [np_prod (shape a)] ∧ strides b = [1]
          ∧ (is_c_contiguous a = true →
             s' = s ∧ base b = base a ∧ offset b = offset a).
Proof.
  intros Hv Hr. unfold ravel. destruct (is_c_contiguous a) eqn:Hc.
  - eexists _, s. split; [reflexivity|]. split; [reflexivity|].
    split; [done|]. split; [|done].
    repeat split; try done; simpl; try lia.
    rewrite (contents_contiguous s a Hc). unfold contents. simpl.
    f_equal.
    pose proof (flat_map_seq_blocks 1 (np_prod (shape a)) (offset a) 0) as Hb.
    simpl in Hb. rewrite Nat.add_0_r, Nat.mul_1_r in Hb. exact Hb.
  - destruct (host_copy_spec a [np_prod (shape a)] s) as
      (s' & Hh & He & Hl & Hb & Hla); [simpl; lia|].
    eexists _, s'. split; [exact Hh|]. split; [done|]. split; [done|].
    split; [|done].
    repeat split; simpl; try done; try lia.
    + by eapply valid_extends.
    + unfold valid. simpl. lia.
    + rewrite (contents_extends s s' a He Hv).
      apply (contents_fresh s' Host (dtype a) [np_prod (shape a)]); [done|].
      rewrite length_contents. simpl. lia.
Qed.

Lemma threads_of_launch (n : nat) (mt : Z) :
  (1 ≤ mt ≤ 2 ^ 53)%Z → (Z.of_nat n ≤ 2 ^ 53)%Z →
  ∃ bc tc,
    CudaUFuncDispatcher._determine_dimensions (Z.of_nat n) mt = Ok (bc, tc)
    ∧ Z.to_nat (Z.min (bc * tc) (Z.of_nat n)) = n.
Proof.
  intros Hm Hn. eexists _, _.
  split.
  { apply (determine_dimensions_spec _ _ (mt * float_one)%Z); [lia|lia|].
    apply float_of_int_exact. lia. }
  pose proof (blocks_cover (Z.of_nat n) mt ltac:(lia) ltac:(lia)). lia.
Qed.

Lemma c_strides_contiguous (a : ndarray) :
  strides a = c_strides (shape a) → is_c_contiguous a = true.
Proof.
  intros Hs. unfold is_c_contiguous. rewrite Hs, contiguous_c_strides.
  apply orb_true_r.
Qed.

Lemma to_device_spec (a : ndarray) (s : state V) :
  ∃ s', to_device a s
        = (Ok {| resid := Device; dtype := dtype a; shape := shape a;
                 strides := strides a; base := length (heap s);
                 offset := offset a |}, s')
        ∧ extends s s'
        ∧ length (heap s') = S (length (heap s))
        ∧ buffer s' (length (heap s)) = buffer s (base a)
        ∧ launches s' = launches s.
Proof.
  unfold to_device, bind.
  destruct (alloc_spec (buffer s (base a)) s) as (s' & Ha & He & Hl & Hb & Hla).
  rewrite Ha. by exists s'.
Qed.

Lemma staged_extends (s s' : state V) (a d : ndarray) :
  extends s s' → staged s a d → staged s' a d.
Proof.
  intros He (Ha & Hd & Hr & Hb & Hrest).
  repeat split; try tauto; try by eapply valid_extends.
  by rewrite !(buffer_extends s s').
Qed.

Lemma to_device_all (l : list ndarray) (s : state V) :
  Forall (valid s) l →
  ∃ ds s', mapM_ to_device l s = (Ok ds, s') ∧ extends s s'
           ∧ launches s' = launches s ∧ Forall2 (staged s') l ds.
Proof.
  apply (mapM_spec to_device valid staged).
  - intros. by eapply valid_extends.
  - intros. by eapply staged_extends.
  - intros s0 a _ Ha.
    destruct (to_device_spec a s0) as (s' & Ht & He & Hl & Hb & Hla).
    eexists _, s'. split; [exact Ht|]. split; [done|]. split; [done|].
    repeat split; simpl; try done.
    + by eapply valid_extends.
    + unfold valid. simpl. lia.
    + rewrite Hb. symmetry. by apply buffer_extends.
Qed.

Lemma adjust_dimension_all (l : list ndarray) (s : state V) :
  Forall (λ a, valid s a ∧ resid a = Host) l →
  ∃ bs s', CudaUFuncDispatcher._adjust_dimension l s = (Ok bs, s')
           ∧ extends s s' ∧ launches s' = launches s
           ∧ Forall2 (flattened s') l bs.
Proof.
  apply (mapM_spec _ (λ s a, valid s a ∧ resid a = Host) flattened).
  - intros s0 s' a He [Hv Hr]. split; [by eapply valid_extends|done].
  - intros. by eapply flattened_extends.
  - intros s0 a _ [Hv Hr]. destruct (decide (1 < ndim a)) as [Hn|Hn].
    + destruct (ravel_spec a s0 Hv Hr) as (b & s' & H1 & H2 & H3 & H4 & _).
      by exists b, s'.
    + exists a, s0. split; [done|]. split; [done|]. split; [done|].
      repeat split; try done. lia.
Qed.

Lemma adjust_dimension_out (out : ndarray) (s : state V) :
  strides out = c_strides (shape out) →
  CudaUFuncDispatcher._adjust_dimension [out] s = (Ok [flat_out out], s).
Proof.
  intros Hs. unfold CudaUFuncDispatcher._adjust_dimension, flat_out. simpl.
  destruct (decide (1 < ndim out)) as [Hn|Hn]; [|done].
  unfold ravel. rewrite (c_strides_contiguous out Hs). done.
Qed.

Lemma flat_out_props (out : ndarray) :
  strides out = c_strides (shape out) →
  ndim (flat_out out) ≤ 1
  ∧ strides (flat_out out) = c_strides (shape (flat_out out))
  ∧ np_prod (shape (flat_out out)) = np_prod (shape out)
  ∧ base (flat_out out) = base out
  ∧ offset (flat_out out) = offset out.
Proof.
  intros Hs. unfold flat_out. destruct (decide (1 < ndim out)); simpl.
  - repeat split; try done; try lia.
  - repeat split; try done. lia.
Qed.

Lemma reshape_flat_out (out : ndarray) (s : state V) :
  strides out = c_strides (shape out) →
  reshape (flat_out out) (shape out) s = (Ok out, s).
Proof.
  intros Hs. unfold reshape.
  destruct (flat_out_props out Hs) as (Hn & Hst & Hp & Hb & Ho).
  rewrite decide_False by (intros Hne; by apply Hne).
  clear Hn Hst Hp Hb Ho.
  unfold flat_out in *. destruct (decide (1 < ndim out)) as [Hd|Hd]; simpl.
  - rewrite decide_False.
    + unfold is_c_contiguous. simpl.
      rewrite orb_true_r. simpl. rewrite orb_true_r.
      unfold ret. f_equal. destruct out; simpl in *. by rewrite Hs.
    + intros Heq. unfold ndim in Hd. rewrite Heq in Hd. simpl in Hd. lia.
  - by rewrite decide_True.
Qed.

Lemma bind_lift_ok {A B} (r : res A) (f : A → M V B) (s : state V) (a : A) :
  r = Ok a → bind (lift r) f s = f a s.
Proof. intros ->. done. Qed.

Lemma elementwise_snoc (f : list V → V) (grid block : Z)
    (ins : list (ndarray * list V)) (out : ndarray) (obuf : list V)
    (count : option Z) :
  elementwise f grid block (ins ++ [(out, obuf)]) count
  = writes (thread_pos out)
      (λ t, f (map (λ ab, cell ab.2 (thread_pos ab.1 t)) ins))
      (Z.to_nat (Z.min (grid * block)
                   match count with
                   | Some c => c
                   | None => Z.of_nat (np_prod (shape out))
                   end))
      obuf.
Proof.
  unfold elementwise. by rewrite last_snoc, removelast_last.
Qed.

Lemma launch_kernel_snoc (k : kernel V) (grid block : Z) (ins : list ndarray)
    (out : ndarray) (count : option Z) (s : state V) :
  launch_kernel k grid block (ins ++ [out]) count s
  = (Ok (),
     {| heap := <[base out :=
                    krun k grid block
                      (map (λ a, (a, buffer s (base a))) ins
                         ++ [(out, buffer s (base out))]) count]> (heap s);
        launches := launches s ++ [Launch grid block (ins ++ [out]) count] |}).
Proof.
  unfold launch_kernel. by rewrite last_snoc, map_app.
Qed.

Lemma flat_c_strides (a : ndarray) :
  ndim a ≤ 1 → strides a = c_strides (shape a) →
  (∀ t, t < np_prod (shape a) → thread_pos a t = offset a + t)
  ∧ extent (shape a) (strides a) = np_prod (shape a).
Proof.
  unfold ndim, thread_pos, extent. intros Hn ->.
  destruct (shape a) as [|n [|? ?]]; simpl in *; [| |lia].
  - split; [intros t Ht; lia|done].
  - split; [intros t Ht; lia|].
    destruct (decide (n * 1 = 0)); lia.
Qed.

Lemma store_at_writes (g : nat → nat) (h : nat → V) (l : list nat)
    (buf : list V) :
  store_at buf (map g l) (map h l) = foldl (λ b t, <[g t := h t]> b) buf l.
Proof.
  unfold store_at. revert buf. induction l as [|t l IH]; intros buf; [done|].
  simpl. apply IH.
Qed.

Lemma buffer_insert (s : state V) (b b' : nat) (buf : list V)
    (ls : list launch) :
  buffer {| heap := <[b := buf]> (heap s); launches := ls |} b'
  = if decide (b = b' ∧ b < length (heap s)) then buf else buffer s b'.
Proof.
  unfold buffer. simpl. destruct (decide (b = b')) as [->|Hne].
  - destruct (decide (b' < length (heap s))) as [Hlt|Hge].
    + rewrite decide_True by done. by rewrite list_lookup_insert_eq.
    + rewrite decide_False by tauto. by rewrite list_insert_ge by lia.
  - rewrite decide_False by tauto. by rewrite list_lookup_insert_ne.
Qed.

(** Writing [vs] to a contiguous view that lies within its buffer. *)
Lemma write_contiguous (buf vs : list V) (o : nat) :
  o + length vs ≤ length buf →
  map (cell (store_at buf (seq o (length vs)) vs)) (seq o (length vs)) = vs.
Proof.
  intros Hb. set (n := length vs) in *.
  assert (store_at buf (seq o n) vs = writes (λ t, o + t) (cell vs) n buf)
    as ->.
  { transitivity (store_at buf (map (λ t, o + t) (seq 0 n))
                    (map (cell vs) (seq 0 n))).
    - f_equal; [by rewrite fmap_add_seq, Nat.add_0_r|].
      symmetry. apply cells_of_list.
    - apply store_at_writes. }
  apply list_eq. intros i. rewrite list_lookup_fmap.
  destruct (decide (i < n)) as [Hi|Hi].
  - rewrite lookup_seq_lt by done. simpl. unfold cell at 1.
    rewrite (writes_lookup (λ t, o + t) (cell vs) n buf i);
      [|intros; lia|done|lia].
    simpl. unfold cell.
    destruct (lookup_lt_is_Some_2 vs i Hi) as [x Hx]. by rewrite Hx.
  - rewrite lookup_seq_ge by lia. simpl. symmetry.
    apply lookup_ge_None. lia.
Qed.

(** ** The host path of [__call__] *)

Lemma call_host_unfold (cls : methods V) (self : dispatcher V)
    (args : list ndarray) (kws : kwargs) :
  existsb is_cuda_ndarray args = false →
  CudaUFuncDispatcher.__call__ cls self args kws
  = (do '(result_dtype, cuda_func) <-
       lift (CudaUFuncDispatcher._get_function_by_dtype self (map dtype args));
     do max_threads <- lift (max_threads_of self cuda_func);
     do broadcast_arrays <- m_prepare_inputs cls args;
     do element_count <- lift (m_determine_element_count cls broadcast_arrays);
     do out <-
       match kw_out kws with
       | None => m_allocate_output cls self broadcast_arrays result_dtype
       | Some out =>
           if is_cuda_ndarray out
           then raise (TypeError "output array must not be a device array")
           else
             do o0 <- lift (shape0 out);
             do b <- lift (first broadcast_arrays);
             do b0 <- lift (shape0 b);
             if decide (o0 < b0)
             then raise (ValueError "insufficient storage for output array")
             else ret out
       end;
     host_tail cls cuda_func max_threads element_count broadcast_arrays out).
Proof.
  intros Hd. unfold CudaUFuncDispatcher.__call__. rewrite Hd. reflexivity.
Qed.

Lemma copy_to_host_some (dev h : ndarray) (s : state V) :
  copy_to_host dev (Some h) s
  = (Ok h,
     {| heap := <[base h := store_at (buffer s (base h))
                              (positions (shape h) (strides h) (offset h))
                              (contents s dev)]> (heap s);
        launches := launches s |}).
Proof. reflexivity. Qed.

Lemma staged_cells (s s3 s4 s5 : state V) (n : nat)
    (bs bs' dins : list ndarray) (t : nat) :
  extends s s3 → extends s3 s4 → extends s4 s5 →
  Forall (λ b, valid s b ∧ resid b = Host ∧ np_prod (shape b) = n) bs →
  Forall2 (flattened s3) bs bs' →
  Forall2 (staged s4) bs' dins →
  t < n →
  map (λ d, cell (buffer s5 (base d)) (thread_pos d t)) dins
  = map (λ b, cell (contents s b) t) bs.
Proof.
  intros He3 He4 He5 Hbs Hfl Hst Ht. revert dins Hst.
  induction Hfl as [|b b' bs bs' Hf1 _ IH]; intros dins Hst;
    inversion Hst as [|? d ? dins' Hs1 Hst']; subst; [done|].
  inversion Hbs as [|? ? (Hvb & _ & Hnb) Hbs']; subst.
  simpl. f_equal; [|by apply IH].
  destruct Hf1 as (_ & Hvb' & Hnd & _ & Hp & Hc).
  destruct Hs1 as (_ & Hvd & _ & Hbuf & Hsh & Hstr & Hoff).
  rewrite (buffer_extends s4 s5) by done. rewrite Hbuf.
  rewrite (buffer_extends s3 s4) by done.
  replace (thread_pos d t) with (thread_pos b' t)
    by (unfold thread_pos; by rewrite Hoff, Hstr).
  rewrite <- cell_contents_flat by (done || lia).
  by rewrite Hc, (contents_extends s s3).
Qed.

Lemma host_tail_spec (k : kernel V) (f : list V → V) (mt : Z)
    (bs : list ndarray) (out : ndarray) (n : nat) (s : state V) :
  krun k = elementwise f →
  (1 ≤ mt ≤ 2 ^ 53)%Z → (Z.of_nat n ≤ 2 ^ 53)%Z →
  Forall (λ b, valid s b ∧ resid b = Host ∧ np_prod (shape b) = n) bs →
  valid s out →
  strides out = c_strides (shape out) →
  np_prod (shape out) = n →
  offset out + n ≤ length (buffer s (base out)) →
  ∃ s',
    host_tail CudaUFuncDispatcher.cls k mt (Z.of_nat n) bs out s = (Ok out, s')
    ∧ contents s' out = elementwise_result f (map (contents s) bs) n
    ∧ length (launches s') = S (length (launches s)).
Proof.
  intros Hk Hmt Hn53 Hbs Hvo Hso Hno Hbo.
  unfold host_tail. simpl.
  rewrite (bind_ok _ _ _ _ _ (adjust_dimension_out out s Hso)).
  destruct (flat_out_props out Hso) as (Hfn & Hfs & Hfp & Hfb & Hfo).
  set (out1 := flat_out out) in *.
  destruct (adjust_dimension_all bs s) as (bs' & s3 & Hadj & He3 & Hl3 & Hfl).
  { eapply Forall_impl; [exact Hbs|]. simpl. tauto. }
  rewrite (bind_ok _ _ _ _ _ Hadj).
  destruct (threads_of_launch n mt Hmt Hn53) as (bc & tc & Hdim & HT).
  rewrite (bind_lift_ok _ _ _ _ Hdim).
  destruct (to_device_all bs' s3) as (dins & s4 & Hdev & He4 & Hl4 & Hst).
  { clear -Hfl. induction Hfl as [|? ? ? ? Hx]; constructor; [|done].
    destruct Hx as (_ & Hx & _). done. }
  rewrite (bind_ok _ _ _ _ _ Hdev).
  unfold device_array_like at 1.
  destruct (alloc_spec (replicate (extent (shape out1) (strides out1))
                          elem_uninit) s4) as (s5 & Ha5 & He5 & Hlen5 & Hb5 & Hl5).
  rewrite (bind_ok _ _ _ _ _ (bind_ok _ _ _ _ _ Ha5)).
  set (dout := {| resid := Device; dtype := dtype out1; shape := shape out1;
                  strides := strides out1; base := length (heap s4);
                  offset := 0 |}).
  rewrite (bind_ok _ _ _ _ _ (launch_kernel_snoc k bc tc dins dout None s5)).
  set (s6 := {| heap := _; launches := _ |}).
  rewrite (bind_ok _ _ _ _ _ (copy_to_host_some dout out1 s6)).
  rewrite (reshape_flat_out out _ Hso).
  eexists. split; [reflexivity|].
  assert (extends s s5) as He by (by etrans; [|etrans]).
  assert (base dout ≠ base out) as Hne.
  { simpl. unfold valid in Hvo.
    pose proof (extends_length s s3 He3). pose proof (extends_length s3 s4 He4).
    lia. }
  assert (buffer s6 (base out) = buffer s (base out)) as Hb6.
  { unfold s6. rewrite buffer_insert, decide_False by tauto.
    by apply buffer_extends. }
  destruct (flat_c_strides dout) as [Hpos Hext]; [done|done|].
  simpl in Hpos, Hext.
  assert (np_prod (shape out1) = n) as Hn1 by congruence.
  assert (contents s6 dout = elementwise_result f (map (contents s) bs) n)
    as Hvs.
  { unfold contents at 1. rewrite (positions_flat dout) by done.
    simpl. rewrite Hn1. unfold elementwise_result.
    rewrite map_map. apply map_ext_in. intros t Ht%in_seq.
    unfold peek, s6. rewrite buffer_insert, decide_True.
    2:{ split; [done|]. simpl. rewrite Hlen5. lia. }
    rewrite Hk, elementwise_snoc. simpl. rewrite Hn1, HT.
    unfold cell at 1.
    rewrite (writes_lookup (thread_pos dout) _ n _ t).
    - simpl. f_equal. rewrite !map_map. simpl.
      apply (staged_cells s s3 s4 s5 n bs bs'); try done. lia.
    - intros t1 t2 H1 H2. rewrite !Hpos by lia. done.
    - lia.
    - simpl. rewrite Hb5, length_replicate, Hext, Hpos by lia. lia. }
  split; [|simpl; rewrite length_app, Hl5, Hl4, Hl3; simpl; lia].
  unfold contents at 1.
  rewrite (positions_contiguous out (c_strides_contiguous out Hso)).
  unfold peek. rewrite buffer_insert, decide_True.
  2:{ split; [done|]. unfold s6. simpl. rewrite length_insert, Hfb.
      unfold valid in Hvo. pose proof (extends_length s s5 He). lia. }
  rewrite (positions_contiguous out1 (c_strides_contiguous out1 Hfs)).
  rewrite Hfb, Hfo, Hn1, Hno, Hb6.
  assert (length (contents s6 dout) = n) as Hlen.
  { rewrite length_contents. done. }
  rewrite <- Hvs. set (vs := contents s6 dout) in *. rewrite <- Hlen.
  apply write_contiguous. lia.
Qed.

Lemma broadcast_arrays_props (args bs : list ndarray) (b0 : ndarray)
    (s : state V) :
  Forall (λ a, resid a = Host ∧ valid s a) args →
  np_broadcast_arrays args = Ok bs → first bs = Ok b0 →
  bs = map (broadcast_to (shape b0)) args
  ∧ Forall (λ b, valid s b ∧ resid b = Host
                 ∧ np_prod (shape b) = np_prod (shape b0)) bs.
Proof.
  intros Ha Hb H0. unfold np_broadcast_arrays in Hb.
  destruct (broadcast_shape (map shape args)) as [sh|]; [|done].
  injection Hb as <-.
  assert (shape b0 = sh) as ->.
  { destruct args as [|a args]; [done|]. simpl in H0. by injection H0 as <-. }
  split; [done|]. apply Forall_map.
  eapply Forall_impl; [exact Ha|]. intros a [Hr Hv]. done.
Qed.

Lemma host_call_spec (self : dispatcher V) (args : list ndarray) (kws : kwargs)
    (s : state V) (rdt : np_dtype) (k : kernel V) (f : list V → V) (mt : Z)
    (bs : list ndarray) (b0 : ndarray) :
  Forall (λ a, resid a = Host ∧ valid s a) args →
  table_lookup (functions self) (map dtype args) = Some (rdt, k) →
  krun k = elementwise f →
  max_threads_of self k = Ok mt → (1 ≤ mt ≤ 2 ^ 53)%Z →
  np_broadcast_arrays args = Ok bs → first bs = Ok b0 →
  (Z.of_nat (np_prod (shape b0)) ≤ 2 ^ 53)%Z →
  match kw_out kws with
  | None => True
  | Some o => out_fits s (shape b0) o
  end →
  ∃ r s',
    CudaUFuncDispatcher.__call__ CudaUFuncDispatcher.cls self args kws s
    = (Ok r, s')
    ∧ shape r = shape b0
    ∧ strides r = c_strides (shape r)
    ∧ resid r = Host
    ∧ contents s' r
      = elementwise_result f (map (contents s) bs) (np_prod (shape b0))
    ∧ match kw_out kws with
      | None => dtype r = rdt ∧ base r = length (heap s) ∧ offset r = 0
      | Some o => r = o
      end
    ∧ length (launches s') = S (length (launches s)).
Proof.
  intros Hargs Hlk Hk Hmt Hmt1 Hb H0 Hn53 Hout.
  destruct (broadcast_arrays_props args bs b0 s Hargs Hb H0) as [Hbs Hbv].
  rewrite call_host_unfold.
  2:{ apply not_true_is_false. intros (a & Hin & Hd)%existsb_exists.
      rewrite Forall_forall in Hargs.
      destruct (Hargs a ltac:(by apply list_elem_of_In)) as [Hr _].
      unfold is_cuda_ndarray in Hd. by rewrite Hr in Hd. }
  unfold CudaUFuncDispatcher._get_function_by_dtype. rewrite Hlk.
  rewrite (bind_lift_ok _ _ _ _ eq_refl).
  rewrite (bind_lift_ok _ _ _ _ Hmt). simpl.
  unfold CudaUFuncDispatcher._prepare_inputs.
  rewrite (bind_lift_ok _ _ _ _ Hb).
  unfold CudaUFuncDispatcher._determine_element_count. rewrite H0. simpl.
  rewrite (bind_lift_ok _ _ _ _ eq_refl).
  destruct (kw_out kws) as [o|].
  - destruct Hout as (Hr & Hv & Hs & Hsh & Hne & Hbd).
    unfold is_cuda_ndarray. rewrite Hr.
    unfold shape0. rewrite Hsh.
    destruct (shape b0) as [|d rsh] eqn:Hsb; [done|].
    erewrite bind_ok;
      [|unfold bind, lift; simpl; rewrite Hsb; rewrite decide_False by lia;
        reflexivity].
    destruct (host_tail_spec k f mt bs o (np_prod (d :: rsh)) s)
      as (s' & Ht & Hc & Hl); try done.
    { by rewrite Hsh. }
    exists o, s'. split; [exact Ht|]. repeat split; done.
  - unfold CudaUFuncDispatcher._allocate_output.
    rewrite (bind_ok _ _ _ _ _
               (bind_lift_ok _ (λ a, np_empty (shape a) rdt) s b0 H0)).
    set (s1 := {| heap := _; launches := _ |}).
    set (out := {| resid := Host; dtype := rdt; shape := shape b0;
                   strides := _; base := _; offset := 0 |}).
    assert (extends s s1) as He by (by eexists).
    destruct (host_tail_spec k f mt bs out (np_prod (shape b0)) s1)
      as (s' & Ht & Hc & Hl); try done.
    { eapply Forall_impl; [exact Hbv|]. intros b (Hv & Hr & Hp).
      split; [by eapply valid_extends|done]. }
    { unfold valid. simpl. rewrite length_app. simpl. lia. }
    { simpl. unfold buffer, s1. simpl.
      rewrite lookup_app_r by done. rewrite Nat.sub_diag. simpl.
      by rewrite length_replicate. }
    exists out, s'. split; [exact Ht|]. repeat split; try done.
    rewrite Hc. f_equal. apply map_ext_in. intros b Hin.
    apply contents_extends; [done|].
    rewrite Forall_forall in Hbv.
    by destruct (Hbv b ltac:(by apply list_elem_of_In)).
Qed.

(** ** Broadcasting on the host path *)

Lemma length_flat_map_blocks {A} (g : nat → list A) (L d k : nat) :
  (∀ i, length (g i) = L) → length (flat_map g (seq k d)) = d * L.
Proof.
  intros Hg. revert k. induction d as [|d IH]; intros k; [done|].
  simpl. by rewrite length_app, Hg, IH.
Qed.

Lemma lookup_flat_map_blocks {A} (g : nat → list A) (L d i j : nat) :
  (∀ i, length (g i) = L) → i < d → j < L →
  flat_map g (seq 0 d) !! (i * L + j) = g i !! j.
Proof.
  intros Hg Hi Hj. induction d as [|d IH]; [lia|].
  rewrite seq_S, flat_map_app. simpl. rewrite app_nil_r.
  destruct (decide (i = d)) as [->|Hne].
  - rewrite lookup_app_r; rewrite (length_flat_map_blocks g L d 0 Hg); [|lia].
    f_equal. lia.
  - rewrite lookup_app_l; [apply IH; lia|].
    rewrite (length_flat_map_blocks g L d 0 Hg). nia.
Qed.

Lemma positions_2d (m n s0 s1 off i j : nat) :
  i < m → j < n →
  positions [m; n] [s0; s1] off !! (i * n + j) = Some (off + i * s0 + j * s1).
Proof.
  intros Hi Hj. simpl.
  rewrite (lookup_flat_map_blocks _ n m i j); [| |done|done].
  - pose proof (lookup_flat_map_blocks (λ j', [off + i * s0 + j' * s1]) 1 n j 0
                  (λ _, eq_refl) Hj ltac:(lia)) as H.
    rewrite Nat.mul_1_r, Nat.add_0_r in H. exact H.
  - intros i'.
    rewrite (length_flat_map_blocks (λ j', [off + i' * s0 + j' * s1]) 1 n 0
               (λ _, eq_refl)).
    lia.
Qed.

Lemma broadcast_dim_1_l (n : nat) : broadcast_dim 1 n = Some n.
Proof.
  unfold broadcast_dim. destruct (decide (1 = n)) as [<-|]; [done|].
  by rewrite decide_True.
Qed.

Lemma broadcast_dim_1_r (m : nat) : broadcast_dim m 1 = Some m.
Proof.
  unfold broadcast_dim. destruct (decide (m = 1)) as [->|]; done.
Qed.

Lemma contents_2d (s : state V) (a : ndarray) (m n s0 s1 i j : nat) :
  shape a = [m; n] → strides a = [s0; s1] → i < m → j < n →
  cell (contents s a) (i * n + j)
  = peek s (base a) (offset a + i * s0 + j * s1).
Proof.
  intros Hsh Hst Hi Hj. unfold contents, cell. rewrite Hsh, Hst.
  by rewrite list_lookup_fmap, positions_2d.
Qed.

Lemma getitem_2d (s : state V) (a : ndarray) (m n s0 s1 i j : nat) :
  shape a = [m; n] → strides a = [s0; s1] → i < m → j < n →
  getitem a [i; j] s = (Ok (peek s (base a) (offset a + i * s0 + j * s1)), s).
Proof.
  intros Hsh Hst Hi Hj. unfold getitem. rewrite Hsh, Hst. simpl.
  by rewrite !decide_True.
Qed.

(** C2.  Host arrays [A] of shape (m,1) and [B] of shape (1,n) whose dtype
    pair is registered with an elementwise kernel of scalar function [f]:
    the call returns an array of shape (m,n), and its element at (i,j) is
    [f] of [A[i,0]] and [B[0,j]].
    Counts are within the integers a double holds exactly: [m * n] and the
    thread ceiling are at most [2^53]. *)
Theorem host_call_broadcasts_column_and_row (self : dispatcher V)
    (A B : ndarray) (m n a0 a1 b0 b1 : nat) (rdt : np_dtype) (k : kernel V)
    (f : list V → V) (mt : Z) (s : state V) :
  resid A = Host → valid s A → shape A = [m; 1] → strides A = [a0; a1] →
  resid B = Host → valid s B → shape B = [1; n] → strides B = [b0; b1] →
  table_lookup (functions self) [dtype A; dtype B] = Some (rdt, k) →
  krun k = elementwise f →
  max_threads_of self k = Ok mt → (1 ≤ mt ≤ 2 ^ 53)%Z →
  (Z.of_nat (m * n) ≤ 2 ^ 53)%Z →
  ∃ r s',
    CudaUFuncDispatcher.__call__ CudaUFuncDispatcher.cls self [A; B]
      (Kwargs None) s = (Ok r, s')
    ∧ shape r = [m; n]
    ∧ ∀ i j, i < m → j < n →
        ∃ x y,
          getitem A [i; 0] s = (Ok x, s)
          ∧ getitem B [0; j] s = (Ok y, s)
          ∧ getitem r [i; j] s' = (Ok (f [x; y]), s').
Proof.
  intros HrA HvA HshA HstA HrB HvB HshB HstB Hlk Hk Hmt Hmt1 Hn53.
  set (A' := broadcast_to [m; n] A). set (B' := broadcast_to [m; n] B).
  assert (np_broadcast_arrays [A; B] = Ok [A'; B']) as Hb.
  { unfold np_broadcast_arrays, broadcast_shape. simpl.
    rewrite HshA, HshB. simpl.
    by rewrite broadcast_dim_1_l, broadcast_dim_1_r. }
  destruct (host_call_spec self [A; B] (Kwargs None) s rdt k f mt [A'; B'] A')
    as (r & s' & Hcall & Hsh & Hst & Hres & Hc & (Hdt & Hbase & Hoff) & Hl);
    try done.
  { by repeat constructor. }
  { simpl. by rewrite Nat.mul_1_r. }
  simpl in Hsh, Hc.
  exists r, s'. split; [done|]. split; [done|].
  intros i j Hi Hj.
  exists (peek s (base A) (offset A + i * a0 + 0 * a1)),
         (peek s (base B) (offset B + 0 * b0 + j * b1)).
  split; [apply (getitem_2d s A m 1); try done; lia|].
  split; [apply (getitem_2d s B 1 n); try done; lia|].
  rewrite Hsh in Hst. simpl in Hst.
  rewrite (getitem_2d s' r m n _ _ i j Hsh Hst Hi Hj). do 2 f_equal.
  rewrite <- (contents_2d s' r m n _ _ i j Hsh Hst Hi Hj), Hc.
  assert (i * n + j < m * (n * 1)) as Ht by nia.
  unfold elementwise_result, cell at 1.
  rewrite list_lookup_fmap, lookup_seq_lt by done. simpl. f_equal.
  f_equal; [|f_equal].
  - rewrite (contents_2d s A' m n a0 (if decide (1 = n) then a1 else 0) i j);
      try done.
    + simpl. f_equal. case_decide; [|lia]. subst n.
      assert (j = 0) as -> by lia. lia.
    + unfold A', broadcast_to. simpl. rewrite HshA, HstA. simpl.
      by rewrite (decide_True (P := m = m)).
  - rewrite (contents_2d s B' m n (if decide (1 = m) then b0 else 0) b1 i j);
      try done.
    + simpl. f_equal. case_decide; [|lia]. subst m.
      assert (i = 0) as -> by lia. lia.
    + unfold B', broadcast_to. simpl. rewrite HshB, HstB. simpl.
      by rewrite (decide_True (P := n = n)).
Qed.

(** X26.  A host-path call with an elementwise kernel, and for [out=] a
    host array of the broadcast shape, with at least one axis, whose
    strides are the C strides of that shape: the call returns that very
    array (the same buffer, offset, shape and strides), and its elements
    are those of the array the call without [out=] returns.
    Counts are within the integers a double holds exactly: the broadcast
    shape has at most [2^53] elements and the thread ceiling is at most
    [2^53]. *)
Theorem host_call_out_is_returned (self : dispatcher V) (args : list ndarray)
    (out : ndarray) (rdt : np_dtype) (k : kernel V) (f : list V → V) (mt : Z)
    (bs : list ndarray) (b0 : ndarray) (s : state V) :
  Forall (λ a, resid a = Host ∧ valid s a) args →
  table_lookup (functions self) (map dtype args) = Some (rdt, k) →
  krun k = elementwise f →
  max_threads_of self k = Ok mt → (1 ≤ mt ≤ 2 ^ 53)%Z →
  np_broadcast_arrays args = Ok bs → first bs = Ok b0 →
  (Z.of_nat (np_prod (shape b0)) ≤ 2 ^ 53)%Z →
  out_fits s (shape b0) out →
  ∃ r1 s1 s2,
    CudaUFuncDispatcher.__call__ CudaUFuncDispatcher.cls self args
      (Kwargs None) s = (Ok r1, s1)
    ∧ CudaUFuncDispatcher.__call__ CudaUFuncDispatcher.cls self args
        (Kwargs (Some out)) s = (Ok out, s2)
    ∧ shape r1 = shape out
    ∧ contents s2 out = contents s1 r1.
Proof.
  intros Hargs Hlk Hk Hmt Hmt1 Hb H0 Hn53 Hout.
  destruct (host_call_spec self args (Kwargs None) s rdt k f mt bs b0)
    as (r1 & s1 & Hc1 & Hsh1 & _ & _ & Hv1 & _); try done.
  destruct (host_call_spec self args (Kwargs (Some out)) s rdt k f mt bs b0)
    as (r2 & s2 & Hc2 & Hsh2 & _ & _ & Hv2 & Heq & _); try done.
  simpl in Heq. subst r2.
  exists r1, s1, s2. repeat split; try done; congruence.
Qed.

(** ** The device path of [__call__] *)

Lemma call_device_unfold (cls : methods V) (self : dispatcher V)
    (args : list ndarray) (kws : kwargs) :
  existsb is_cuda_ndarray args = true →
  CudaUFuncDispatcher.__call__ cls self args kws
  = (do '(result_dtype, cuda_func) <-
       lift (CudaUFuncDispatcher._get_function_by_dtype self (map dtype args));
     do max_threads <- lift (max_threads_of self cuda_func);
     device_path cls self result_dtype cuda_func max_threads args kws).
Proof.
  intros Hd. unfold CudaUFuncDispatcher.__call__. rewrite Hd. reflexivity.
Qed.

(** The call [self(a, b, out=a)] of the reduction, on two views of one
    length: element [t] of [a] becomes [f] of the elements [t] of [a] and
    [b]; one launch is made. *)
Lemma device_call_in_place (self : dispatcher V) (dt rdt : np_dtype)
    (k : kernel V) (f : list V → V) (mt : Z) (bb oa ob n : nat)
    (s : state V) :
  table_lookup (functions self) [dt; dt] = Some (rdt, k) →
  krun k = elementwise f →
  max_threads_of self k = Ok mt → (1 ≤ mt ≤ 2 ^ 53)%Z →
  (Z.of_nat n ≤ 2 ^ 53)%Z →
  ∃ l,
    CudaUFuncDispatcher.__call__ CudaUFuncDispatcher.cls self
      [dview dt bb oa n; dview dt bb ob n]
      (Kwargs (Some (dview dt bb oa n))) s
    = (Ok (dview dt bb oa n),
       {| heap :=
            <[bb := writes (λ t, oa + t)
                      (λ t, f [cell (buffer s bb) (oa + t);
                               cell (buffer s bb) (ob + t)])
                      n (buffer s bb)]> (heap s);
          launches := launches s ++ [l] |}).
Proof.
  intros Hlk Hk Hmt Hmt1 Hn53.
  rewrite call_device_unfold by done.
  unfold CudaUFuncDispatcher._get_function_by_dtype. simpl. rewrite Hlk.
  rewrite (bind_lift_ok _ _ _ _ eq_refl).
  rewrite (bind_lift_ok _ _ _ _ Hmt).
  unfold device_path. simpl.
  unfold bind at 1. simpl.
  unfold CudaUFuncDispatcher._arguments_requirement. simpl.
  rewrite (decide_False (P := n ≠ n)) by (intros Hne; by apply Hne).
  simpl. unfold bind at 1. simpl.
  erewrite bind_ok; [|reflexivity]. simpl.
  rewrite (bind_lift_ok _ _ _ (Z.of_nat (n * 1)) eq_refl).
  rewrite Nat.mul_1_r.
  destruct (threads_of_launch n mt Hmt1 Hn53) as (bc & tc & Hdim & HT).
  rewrite (bind_lift_ok _ _ _ _ Hdim).
  unfold bind. simpl. rewrite Hk.
  change [(dview dt bb oa n, buffer s bb); (dview dt bb ob n, buffer s bb);
          (dview dt bb oa n, buffer s bb)]
    with ([(dview dt bb oa n, buffer s bb); (dview dt bb ob n, buffer s bb)]
            ++ [(dview dt bb oa n, buffer s bb)]).
  rewrite elementwise_snoc. rewrite HT. eexists. unfold ret. do 3 f_equal.
  apply writes_ext; intros t _; unfold thread_pos; simpl;
    by rewrite ?Nat.mul_1_r.
Qed.

(** ** The reduction *)

Section Fold.
Context (op : V → V → V).
Hypothesis op_assoc : ∀ x y z, op (op x y) z = op x (op y z).
Hypothesis op_comm : ∀ x y, op x y = op y x.

Lemma foldl_op_last (a b : V) (l : list V) :
  foldl op (op a b) l = op (foldl op a l) b.
Proof.
  revert a. induction l as [|x l IH]; intros a; [done|]. simpl.
  rewrite <- IH. f_equal.
  by rewrite !op_assoc, (op_comm b x).
Qed.

Lemma foldl_zip_with (a : V) (xs ys : list V) :
  length xs = length ys →
  foldl op a (zip_with op xs ys) = foldl op (foldl op a xs) ys.
Proof.
  revert a ys. induction xs as [|x xs IH]; intros a [|y ys] Hl; try done.
  simpl in *. rewrite IH by lia. f_equal.
  by rewrite <- foldl_op_last, op_assoc.
Qed.

(** Combining the two halves elementwise and folding the result is folding
    the whole. *)
Lemma fold_left1_halves (xs ys : list V) :
  length xs = length ys → xs ≠ [] →
  fold_left1 op (zip_with op xs ys) = fold_left1 op (xs ++ ys).
Proof.
  destruct xs as [|x xs], ys as [|y ys]; try done. intros Hl _.
  simpl in *. rewrite foldl_zip_with by lia.
  rewrite foldl_app. simpl. by rewrite foldl_op_last.
Qed.
End Fold.

Lemma fold_left1_snoc (op : V → V → V) (l : list V) (x : V) :
  l ≠ [] → fold_left1 op (l ++ [x]) = op (fold_left1 op l) x.
Proof.
  destruct l as [|y l]; [done|]. intros _. simpl. by rewrite foldl_app.
Qed.

Lemma split_dview (dt : np_dtype) (bb o n k : nat) :
  split (dview dt bb o n) k = (dview dt bb o k, dview dt bb (o + k) (n - k)).
Proof.
  unfold split, dview. simpl. by rewrite Nat.mul_1_r.
Qed.

Lemma reduce_unfold (fuel : nat) (cls : methods V) (self : dispatcher V)
    (mem : ndarray) (gpu_mems : list ndarray) :
  CudaUFuncDispatcher.__reduce (S fuel) cls self mem gpu_mems
  = (do n <- lift (shape0 mem);
     if decide (n mod 2 ≠ 0) then
       let '(fatcut, thincut) := split mem (n - 1) in
       let gpu_mems := gpu_mems ++ [fatcut; thincut] in
       do '(out, gpu_mems) <-
         CudaUFuncDispatcher.__reduce fuel cls self fatcut gpu_mems;
       let gpu_mems := gpu_mems ++ [out] in
       do r <- CudaUFuncDispatcher.__call__ cls self [out; thincut]
                 {| kw_out := Some out |};
       ret (r, gpu_mems)
     else
       let '(left_, right_) := split mem (n / 2) in
       let gpu_mems := gpu_mems ++ [left_; right_] in
       do _ <- CudaUFuncDispatcher.__call__ cls self [left_; right_]
                 {| kw_out := Some left_ |};
       if decide (1 < n / 2)
       then CudaUFuncDispatcher.__reduce fuel cls self left_ gpu_mems
       else ret (left_, gpu_mems)).
Proof. reflexivity. Qed.

(** The store after the in-place call on the views at [oa] and [ob]. *)
Lemma in_place_store (s : state V) (bb oa ob n : nat) (f : list V → V)
    (ls : list launch) :
  bb < length (heap s) →
  oa + n ≤ length (buffer s bb) →
  let s1 := {| heap :=
                 <[bb := writes (λ t, oa + t)
                           (λ t, f [cell (buffer s bb) (oa + t);
                                    cell (buffer s bb) (ob + t)])
                           n (buffer s bb)]> (heap s);
               launches := ls |} in
  length (heap s1) = length (heap s)
  ∧ (∀ b', b' ≠ bb → buffer s1 b' = buffer s b')
  ∧ length (buffer s1 bb) = length (buffer s bb)
  ∧ (∀ p, p < oa ∨ oa + n ≤ p → cell (buffer s1 bb) p = cell (buffer s bb) p)
  ∧ (∀ t, t < n →
       cell (buffer s1 bb) (oa + t)
       = binary f (cell (buffer s bb) (oa + t)) (cell (buffer s bb) (ob + t))).
Proof.
  intros Hbb Hb s1.
  assert (buffer s1 bb = writes (λ t, oa + t)
                           (λ t, f [cell (buffer s bb) (oa + t);
                                    cell (buffer s bb) (ob + t)])
                           n (buffer s bb)) as Hb1.
  { unfold s1. rewrite buffer_insert. by rewrite decide_True. }
  split; [by simpl; rewrite length_insert|].
  split.
  { intros b' Hne. unfold s1. rewrite buffer_insert. rewrite decide_False; [done|].
    intros [-> _]. done. }
  rewrite Hb1. split; [by rewrite length_writes|]. split.
  - intros p Hp. unfold cell. rewrite writes_other; [done|]. intros t Ht. lia.
  - intros t Ht. unfold cell at 1.
    rewrite (writes_lookup (λ t, oa + t) _ n _ t); [done| |done|lia].
    intros; lia.
Qed.

Section Reduce.
Context (self : dispatcher V) (dt rdt : np_dtype) (k : kernel V)
  (f : list V → V) (mt : Z) (bb : nat).
Hypothesis Hlk : table_lookup (functions self) [dt; dt] = Some (rdt, k).
Hypothesis Hk : krun k = elementwise f.
Hypothesis Hmt : max_threads_of self k = Ok mt.
Hypothesis Hmt1 : (1 ≤ mt ≤ 2 ^ 53)%Z.
Hypothesis op_assoc :
  ∀ x y z, binary f (binary f x y) z = binary f x (binary f y z).
Hypothesis op_comm : ∀ x y, binary f x y = binary f y x.

Lemma cells_split (buf : list V) (o h : nat) :
  map (cell buf) (seq o (h + h))
  = map (cell buf) (seq o h) ++ map (cell buf) (seq (o + h) h).
Proof. by rewrite seq_app, map_app. Qed.

Lemma cells_zip (buf buf1 : list V) (o h : nat) :
  (∀ t, t < h →
     cell buf1 (o + t) = binary f (cell buf (o + t)) (cell buf (o + h + t))) →
  map (cell buf1) (seq o h)
  = zip_with (binary f) (map (cell buf) (seq o h))
      (map (cell buf) (seq (o + h) h)).
Proof.
  intros Hc. rewrite <- (Nat.add_0_r o) at 1 2.
  rewrite <- (Nat.add_0_r (o + h)).
  rewrite <- !fmap_add_seq.
  change (map ?g ?l) with (g <$> l).
  rewrite <- !list_fmap_compose.
  rewrite zip_with_fmap_l, zip_with_fmap_r, zip_with_diag.
  apply list_fmap_ext. intros i t Ht.
  apply lookup_seq in Ht as [-> Ht]. simpl. by apply Hc.
Qed.

Lemma reduce_rec_spec (fuel : nat) :
  ∀ n o gm s,
    2 ≤ n → n ≤ fuel → (Z.of_nat n ≤ 2 ^ 53)%Z →
    o + n ≤ length (buffer s bb) → bb < length (heap s) →
    ∃ gm' s',
      CudaUFuncDispatcher.__reduce fuel CudaUFuncDispatcher.cls self
        (dview dt bb o n) gm s
      = (Ok (dview dt bb o 1, gm'), s')
      ∧ length (heap s') = length (heap s)
      ∧ (∀ b', b' ≠ bb → buffer s' b' = buffer s b')
      ∧ length (buffer s' bb) = length (buffer s bb)
      ∧ (∀ p, p < o ∨ o + n ≤ p →
           cell (buffer s' bb) p = cell (buffer s bb) p)
      ∧ cell (buffer s' bb) o
        = fold_left1 (binary f) (map (cell (buffer s bb)) (seq o n))
      ∧ length (launches s) < length (launches s').
Proof.
  induction fuel as [|fuel IH]; intros n o gm s Hn Hf Hn53 Hb Hbb; [lia|].
  rewrite reduce_unfold. rewrite (bind_lift_ok _ _ _ n eq_refl).
  destruct (decide (n mod 2 ≠ 0)) as [Hodd|Heven].
  - (* odd *)
    rewrite split_dview. replace (n - (n - 1)) with 1 by lia.
    destruct (IH (n - 1) o (gm ++ [dview dt bb o (n - 1);
                                   dview dt bb (o + (n - 1)) 1]) s)
      as (gm1 & s1 & Hr & Hh1 & Ho1 & Hl1 & Hf1 & Hv1 & Hla1); try lia.
    { assert (n ≠ 2) by (intros ->; by apply Hodd). lia. }
    rewrite (bind_ok _ _ _ _ _ Hr).
    destruct (device_call_in_place self dt rdt k f mt bb o (o + (n - 1)) 1 s1
                Hlk Hk Hmt Hmt1 ltac:(lia)) as (l & Hcall).
    rewrite (bind_ok _ _ _ _ _ Hcall).
    eexists _, _. split; [reflexivity|].
    destruct (in_place_store s1 bb o (o + (n - 1)) 1 f (launches s1 ++ [l]))
      as (Hh2 & Ho2 & Hl2 & Hf2 & Hv2); [lia|lia|].
    split; [lia|]. split; [intros b' Hne; by rewrite Ho2, Ho1|].
    split; [lia|]. split.
    { intros p Hp. rewrite Hf2 by lia. apply Hf1. lia. }
    split; [|simpl; rewrite length_app; simpl; lia].
    specialize (Hv2 0 ltac:(lia)). rewrite !Nat.add_0_r in Hv2.
    rewrite Hv2, Hv1. rewrite (Hf1 (o + (n - 1))) by lia.
    replace n with ((n - 1) + 1) at 3 by lia.
    rewrite seq_app, map_app. simpl.
    rewrite fold_left1_snoc; [done|].
    destruct (n - 1) as [|m] eqn:E; [lia|done].
  - (* even *)
    assert (n mod 2 = 0) as Hmod.
    { destruct (decide (n mod 2 = 0)); [done|]. by destruct Heven. }
    set (h := n / 2).
    assert (n = h + h) as Hnh.
    { pose proof (Nat.div_mod n 2 ltac:(done)). unfold h. lia. }
    rewrite split_dview. replace (n - h) with h by lia.
    destruct (device_call_in_place self dt rdt k f mt bb o (o + h) h s
                Hlk Hk Hmt Hmt1 ltac:(lia)) as (l & Hcall).
    rewrite (bind_ok _ _ _ _ _ Hcall).
    destruct (in_place_store s bb o (o + h) h f (launches s ++ [l]))
      as (Hh1 & Ho1 & Hl1 & Hf1 & Hv1); [lia|lia|].
    set (s1 := {| heap := _; launches := _ |}) in *.
    assert (map (cell (buffer s1 bb)) (seq o h)
            = zip_with (binary f) (map (cell (buffer s bb)) (seq o h))
                (map (cell (buffer s bb)) (seq (o + h) h))) as Hz.
    { by apply cells_zip. }
    assert (fold_left1 (binary f) (map (cell (buffer s1 bb)) (seq o h))
            = fold_left1 (binary f) (map (cell (buffer s bb)) (seq o n)))
      as Hfold.
    { rewrite Hz, Hnh, cells_split.
      apply fold_left1_halves; [done|done| |].
      - by rewrite !length_map, !length_seq.
      - destruct h; [lia|done]. }
    destruct (decide (1 < h)) as [Hh|Hh].
    + destruct (IH h o (gm ++ [dview dt bb o h; dview dt bb (o + h) h]) s1)
        as (gm2 & s2 & Hr & Hh2 & Ho2 & Hl2 & Hf2 & Hv2 & Hla2); try lia.
      exists gm2, s2. split; [exact Hr|].
      split; [lia|]. split; [intros b' Hne; by rewrite Ho2, Ho1|].
      split; [lia|]. split.
      { intros p Hp. rewrite Hf2 by lia. apply Hf1. lia. }
      split; [by rewrite Hv2|].
      unfold s1 in Hla2. simpl in Hla2. rewrite length_app in Hla2.
      simpl in Hla2. lia.
    + assert (h = 1) as Hh1' by lia.
      eexists _, s1. split; [by rewrite Hh1'|].
      split; [done|]. split; [done|]. split; [done|]. split.
      { intros p Hp. apply Hf1. lia. }
      split; [|unfold s1; simpl; rewrite length_app; simpl; lia].
      rewrite <- Hfold. rewrite Hh1'. simpl. done.
Qed.
End Reduce.

(** The end of [reduce]: the one element of [out] is fetched through a
    one-element host buffer. *)
Lemma reduce_fetch (dt dt' : np_dtype) (bb o : nat) (s : state V) :
  bb < length (heap s) →
  ∃ s',
    (do buf <- np_array_one dt';
     do _ <- copy_to_host (dview dt bb o 1) (Some buf);
     getitem buf [0]) s
    = (Ok (cell (buffer s bb) o), s').
Proof.
  intros Hbb. unfold np_array_one.
  destruct (alloc_spec [elem_one] s) as (s1 & Ha & He & Hlen & Hb & Hl).
  rewrite (bind_ok _ _ _ _ _ (bind_ok _ _ _ _ _ Ha)).
  rewrite (bind_ok _ _ _ _ _ (copy_to_host_some _ _ _)).
  eexists. unfold getitem. simpl. f_equal. f_equal.
  unfold peek. rewrite buffer_insert, decide_True by (split; [done|lia]).
  rewrite Hb. unfold contents, peek. simpl.
  rewrite (buffer_extends s s1) by done.
  rewrite Nat.add_0_r. done.
Qed.

(** C1, as amended.  A dispatcher whose table starts with a binary entry
    and holds, for the dtype of the array, an elementwise kernel whose
    binary operation is associative and commutative; a 1-D array of unit
    stride that lies within its buffer.  For length 0, [reduce] raises
    the error for an empty array; for length 1, it returns the one element
    and leaves the store and the launches as they are; for any length
    from 2 on, it returns the left-to-right fold of the operation over the
    elements.
    Counts are within the integers a double holds exactly: the array has at
    most [2^53] elements and the thread ceiling is at most [2^53]. *)
Theorem reduce_is_left_fold (self : dispatcher V) (arg : ndarray)
    (entry : list np_dtype * (np_dtype * kernel V)) (rdt : np_dtype)
    (k : kernel V) (f : list V → V) (mt : Z) (n : nat) (s : state V) :
  first (functions self) = Ok entry → length entry.1 = 2 →
  table_lookup (functions self) [dtype arg; dtype arg] = Some (rdt, k) →
  krun k = elementwise f →
  max_threads_of self k = Ok mt → (1 ≤ mt ≤ 2 ^ 53)%Z →
  (∀ x y z, binary f (binary f x y) z = binary f x (binary f y z)) →
  (∀ x y, binary f x y = binary f y x) →
  valid s arg → shape arg = [n] → strides arg = [1] →
  offset arg + n ≤ length (buffer s (base arg)) →
  (Z.of_nat n ≤ 2 ^ 53)%Z →
  (n = 0 →
   CudaUFuncDispatcher.reduce CudaUFuncDispatcher.cls self arg s
   = (Raise (TypeError "Reduction on an empty array."), s))
  ∧ (n = 1 →
     ∃ x, contents s arg = [x]
          ∧ CudaUFuncDispatcher.reduce CudaUFuncDispatcher.cls self arg s
            = (Ok x, s))
  ∧ (2 ≤ n →
     ∃ s',
       CudaUFuncDispatcher.reduce CudaUFuncDispatcher.cls self arg s
       = (Ok (fold_left1 (binary f) (contents s arg)), s')).
Proof.
  intros Hfirst Hbin Hlk Hk Hmt Hmt1 Hassoc Hcomm Hv Hsh Hst Hb Hn53.
  unfold CudaUFuncDispatcher.reduce.
  rewrite (bind_lift_ok _ _ _ _ Hfirst).
  rewrite decide_False by (intros Hne; by apply Hne).
  unfold ndim, shape0. rewrite Hsh. simpl.
  rewrite (bind_lift_ok _ _ _ _ eq_refl).
  assert (contents s arg
          = map (cell (buffer s (base arg))) (seq (offset arg) n)) as Hc.
  { pose proof (fmap_add_seq (offset arg) 0 n) as Hseq.
    rewrite Nat.add_0_r in Hseq. rewrite <- Hseq.
    unfold contents. rewrite positions_flat by (unfold ndim; rewrite Hsh; done).
    rewrite Hsh. simpl. rewrite Nat.mul_1_r. f_equal.
    apply map_ext. intros t. unfold thread_pos. rewrite Hst. simpl. lia. }
  split; [|split].
  - intros ->. done.
  - intros ->. simpl. exists (cell (buffer s (base arg)) (offset arg)).
    split; [by rewrite Hc|].
    unfold getitem. rewrite Hsh, Hst. simpl. unfold peek.
    by rewrite Nat.add_0_r.
  - intros Hn. rewrite !decide_False by lia.
    rewrite Hc.
    destruct (resid arg) eqn:Hr; unfold is_cuda_ndarray; rewrite Hr.
    + (* a host array is staged *)
      destruct (to_device_spec arg s) as (s0 & Ht & He & Hlen & Hb0 & Hl0).
      rewrite (bind_ok _ _ _ _ _ Ht). rewrite Hsh, Hst.
      destruct (reduce_rec_spec self (dtype arg) rdt k f mt (length (heap s))
                  Hlk Hk Hmt Hmt1 Hassoc Hcomm n n (offset arg) [] s0)
        as (gm & s1 & Hred & Hh1 & Ho1 & Hl1 & Hf1 & Hv1 & _); try lia.
      { by rewrite Hb0. }
      unfold dview in Hred. rewrite (bind_ok _ _ _ _ _ Hred).
      destruct (reduce_fetch (dtype arg) (dtype arg) (length (heap s))
                  (offset arg) s1) as (s2 & Hfetch); [lia|].
      exists s2. unfold dview in Hfetch. rewrite Hfetch.
      by rewrite Hv1, Hb0.
    + (* a device array is reduced in place *)
      rewrite (bind_ok (ret arg) _ s s arg eq_refl).
      assert (arg = dview (dtype arg) (base arg) (offset arg) n) as Harg.
      { destruct arg. simpl in *. unfold dview. by subst. }
      destruct (reduce_rec_spec self (dtype arg) rdt k f mt (base arg)
                  Hlk Hk Hmt Hmt1 Hassoc Hcomm n n (offset arg) [] s)
        as (gm & s1 & Hred & Hh1 & Ho1 & Hl1 & Hf1 & Hv1 & _); try lia.
      { done. }
      rewrite <- Harg in Hred.
      rewrite (bind_ok _ _ _ _ _ Hred).
      destruct (reduce_fetch (dtype arg) (dtype arg) (base arg)
                  (offset arg) s1) as (s2 & Hfetch).
      { unfold valid in Hv. lia. }
      exists s2. rewrite Hfetch. by rewrite Hv1.
Qed.

End Properties.


(** * Instances of the properties *)

Lemma determine_dimensions_geometry_witness :
  ∃ block_count thread_count,
    CudaUFuncDispatcher._determine_dimensions 17 8
      = Ok (block_count, thread_count)
    ∧ thread_count = Z.min 8 17
    ∧ ((block_count - 1) * 8 < 17 ≤ block_count * 8)%Z
    ∧ (17 ≤ block_count * thread_count)%Z
    ∧ (thread_count ≤ 8)%Z.
Proof.
  apply (determine_dimensions_geometry 17 8 (8 * float_one)%Z); [lia|lia|].
  vm_compute. reflexivity.
Defined.

(** C3, as stated, fails.  The quotient is taken in double precision:
    [2^53 + 1] elements under a thread ceiling of 1 get [2^53] blocks of
    one thread, which leave the last element out; and a thread ceiling of
    [2^1024] has no double, so the planner raises [OverflowError] for one
    element. *)
Lemma determine_dimensions_beyond_double_precision :
  CudaUFuncDispatcher._determine_dimensions (2 ^ 53 + 1) 1
  = Ok (2 ^ 53, 1)%Z
  ∧ (2 ^ 53 * 1 < 2 ^ 53 + 1)%Z
  ∧ (- (- (2 ^ 53 + 1) / 1) = 2 ^ 53 + 1)%Z
  ∧ CudaUFuncDispatcher._determine_dimensions 1 (2 ^ 1024)
    = Raise (OverflowError "long int too large to convert to float").
Proof. vm_compute. repeat split. Qed.

(** C4.  The elementwise dispatcher called with a device array and a host
    array: no error is raised; the host array is staged to the device, the
    kernel is launched once and the device output is returned. *)
Lemma ufunc_call_mixed_residency_launches :
  let s := {| heap := [[1; 2; 3]; [10; 20; 30]]%Z; launches := [] |} in
  let r := CudaUFuncDispatcher.__call__ CudaUFuncDispatcher.cls add_dispatcher
             [vector Device int64 0 3; vector Host int64 1 3] (Kwargs None) s in
  r.1 = Ok (vector Device int64 3 3)
  ∧ contents r.2 (vector Device int64 3 3) = [11; 22; 33]%Z
  ∧ length (launches r.2) = 1.
Proof. vm_compute. done. Qed.

(** C5.  An array scalar before a device array of five elements: the
    requirement check passes, and the element count that sizes the launch,
    the output and the trailing kernel argument is 1, the length of the
    first argument, not 5. *)
Lemma element_count_scalar_first :
  let s := {| heap := [[7]; [1; 2; 3; 4; 5]]%Z; launches := [] |} in
  let r := CudaUFuncDispatcher.__call__ CudaUFuncDispatcher.cls add_dispatcher
             [array_scalar Host int64 0; vector Device int64 1 5]
             (Kwargs None) s in
  r.1 = Ok (vector Device int64 4 1)
  ∧ map (λ l, (l_grid l, l_block l, l_count l)) (launches r.2)
    = [(1%Z, 1%Z, Some 1%Z)]
  ∧ contents r.2 (vector Device int64 4 1) = [8%Z].
Proof. vm_compute. done. Qed.

(** C8.  Two device arrays of lengths 3 and 4: the mismatch is found, and
    what is raised is the [TypeError] of the message formatting, not a
    [ValueError] with the argument and the length. *)
Lemma length_mismatch_raises_format_error :
  let s := {| heap := [[1; 2; 3]; [4; 5; 6; 7]]%Z; launches := [] |} in
  CudaUFuncDispatcher._arguments_requirement
    [vector Device int64 0 3; vector Device int64 1 4]
  = Raise (TypeError "not enough arguments for format string")
  ∧ CudaUFuncDispatcher.__call__ CudaUFuncDispatcher.cls add_dispatcher
      [vector Device int64 0 3; vector Device int64 1 4] (Kwargs None) s
    = (Raise (TypeError "not enough arguments for format string"), s).
Proof. vm_compute. done. Qed.

Example allocate_output_with_symbols_matmul :
  ∃ a out s',
    first [host_array float32 0 [2; 3; 4]; host_array int64 1 [2; 4; 5]] = Ok a
    ∧ m_allocate_output CudaGUFuncDispatcher.cls matmul_dispatcher
        [host_array float32 0 [2; 3; 4]; host_array int64 1 [2; 4; 5]]
        int64 empty_state
      = (Ok out, s')
    ∧ dtype out = dtype a
    ∧ shape out = [2; 3; 5]
    ∧ contents s' out = replicate (np_prod [2; 3; 5]) elem_zero
    ∧ ∃ out' s'',
        m_allocate_output CudaUFuncDispatcher.cls matmul_dispatcher
          [host_array float32 0 [2; 3; 4]; host_array int64 1 [2; 4; 5]]
          int64 empty_state
        = (Ok out', s'')
        ∧ dtype out' = int64.
Proof.
  apply (allocate_output_with_symbols matmul_dispatcher
           [host_array float32 0 [2; 3; 4]; host_array int64 1 [2; 4; 5]]
           int64 [2; 3; 5] empty_state).
  vm_compute. reflexivity.
Qed.

Lemma reduce_is_left_fold_witness :
  let s := {| heap := [[1; 2; 3; 4; 5]]%Z; launches := [] |} in
  let arg := vector Host int64 0 5 in
  (5 = 0 →
   CudaUFuncDispatcher.reduce CudaUFuncDispatcher.cls add_dispatcher arg s
   = (Raise (TypeError "Reduction on an empty array."), s))
  ∧ (5 = 1 →
     ∃ x, contents s arg = [x]
          ∧ CudaUFuncDispatcher.reduce CudaUFuncDispatcher.cls add_dispatcher
              arg s
            = (Ok x, s))
  ∧ (2 ≤ 5 →
     ∃ s',
       CudaUFuncDispatcher.reduce CudaUFuncDispatcher.cls add_dispatcher arg s
       = (Ok (fold_left1 (binary (λ l, foldr Z.add 0%Z l)) (contents s arg)),
          s')).
Proof.
  intros s arg.
  apply (reduce_is_left_fold add_dispatcher arg
           ([int64; int64], (int64, add_kernel)) int64 add_kernel
           (λ l, foldr Z.add 0%Z l) 1024 5 s);
    try reflexivity.
  all: try (unfold valid; simpl; lia).
  all: intros; unfold binary; simpl; lia.
Defined.

(** C1, as stated, fails: [first_nonzero] is associative, yet over
    [0, 1, 2, 3] the tree reduction pairs 0 with 2 and 1 with 3 and returns
    2, while the left-to-right fold is 1. *)
Lemma reduce_differs_without_commutativity :
  let s := {| heap := [[0; 1; 2; 3]]%Z; launches := [] |} in
  let arg := vector Device int64 0 4 in
  (∀ x y z,
     binary first_nonzero (binary first_nonzero x y) z
     = binary first_nonzero x (binary first_nonzero y z))
  ∧ (CudaUFuncDispatcher.reduce CudaUFuncDispatcher.cls
       first_nonzero_dispatcher arg s).1 = Ok 2%Z
  ∧ fold_left1 (binary first_nonzero) (contents s arg) = 1%Z.
Proof.
  intros s arg. split; [|split; vm_compute; reflexivity].
  intros x y z. unfold binary, first_nonzero.
  repeat case_decide; congruence.
Qed.

Lemma host_call_broadcasts_column_and_row_witness :
  ∃ r s',
    CudaUFuncDispatcher.__call__ CudaUFuncDispatcher.cls add_dispatcher
      [column; row] (Kwargs None) column_row_state = (Ok r, s')
    ∧ shape r = [2; 3]
    ∧ ∀ i j, i < 2 → j < 3 →
        ∃ x y,
          getitem column [i; 0] column_row_state = (Ok x, column_row_state)
          ∧ getitem row [0; j] column_row_state = (Ok y, column_row_state)
          ∧ getitem r [i; j] s' = (Ok (foldr Z.add 0%Z [x; y]), s').
Proof.
  apply (host_call_broadcasts_column_and_row add_dispatcher column row
           2 3 1 1 3 1 int64 add_kernel (λ l, foldr Z.add 0%Z l) 1024
           column_row_state);
    try reflexivity.
  all: unfold valid; simpl; lia.
Defined.

(** C6.  A generalized dispatcher as its constructor builds it, for the
    signature [(i,j),(j,k)->(i,k)]: [__init__] keeps the signature as
    [inputsig] and [outputsig], and the shape resolution reads
    [input_symbols].  It raises [AttributeError] on inputs of shapes
    (2,3,4) and (2,4,5), which agree on [j], and on inputs of shapes (3,4)
    and (5,5): no shape is returned and no dimension mismatch is
    reported. *)
Lemma determine_output_shape_unset_symbols :
  CudaGUFuncDispatcher._determine_output_shape gufunc_dispatcher
    [host_array int64 0 [2; 3; 4]; host_array int64 1 [2; 4; 5]]
  = Raise (AttributeError "input_symbols")
  ∧ CudaGUFuncDispatcher._determine_output_shape gufunc_dispatcher
      [host_array int64 0 [3; 4]; host_array int64 1 [5; 5]]
    = Raise (AttributeError "input_symbols")
  ∧ inputsig gufunc_dispatcher = [["i"; "j"]; ["j"; "k"]]
  ∧ outputsig gufunc_dispatcher = ["i"; "k"]
  ∧ input_symbols gufunc_dispatcher = None.
Proof. repeat split. Qed.

(** C10.  The same dispatcher on two host arrays of shapes (2,3,4) and
    (2,4,3): [_allocate_output] raises the [AttributeError] of the shape
    resolution and allocates nothing, and so the call without [out=]
    fails before any launch; no zero-filled array is made. *)
Lemma gufunc_allocate_output_unset_symbols :
  let arrays := [host_array int64 0 [2; 3; 4]; host_array int64 1 [2; 4; 3]] in
  m_allocate_output CudaGUFuncDispatcher.cls gufunc_dispatcher arrays int64
    cubes_state
  = (Raise (AttributeError "input_symbols"), cubes_state)
  ∧ (CudaGUFuncDispatcher.__call__ gufunc_dispatcher arrays (Kwargs None)
       cubes_state).1
    = Raise (AttributeError "input_symbols")
  ∧ launches
      (CudaGUFuncDispatcher.__call__ gufunc_dispatcher arrays (Kwargs None)
         cubes_state).2
    = [].
Proof. vm_compute. repeat split. Qed.

(** The shape resolution on a dispatcher object whose [input_symbols] and
    [output_symbols] have been set by hand. *)
Example determine_output_shape_symbols_matmul :
  let arrays := [host_array int64 0 [2; 3; 4]; host_array int64 1 [2; 4; 5]] in
  let b := symbol_bindings arrays [["i"; "j"]; ["j"; "k"]] in
  match CudaGUFuncDispatcher._determine_output_shape matmul_dispatcher arrays
  with
  | Ok sh =>
      consistent b
      ∧ ∃ a rest d rsh inner,
          arrays = a :: rest ∧ shape a = d :: rsh ∧ sh = d :: inner
          ∧ Forall2 (λ sym v, (sym, v) ∈ b) ["i"; "k"] inner
  | Raise (ValueErrorArgs fmt sym val held) =>
      fmt = "dimension %s mismatch: %d != %d"
      ∧ (sym, val) ∈ b ∧ (sym, held) ∈ b ∧ val ≠ held
  | Raise (KeyError sym) =>
      consistent b ∧ sym ∈ ["i"; "k"] ∧ ∀ v, (sym, v) ∉ b
  | Raise (IndexError _) =>
      consistent b ∧ (arrays = [] ∨ ∃ a rest, arrays = a :: rest ∧ shape a = [])
  | Raise _ => False
  end.
Proof.
  apply (determine_output_shape_with_symbols matmul_dispatcher
           [host_array int64 0 [2; 3; 4]; host_array int64 1 [2; 4; 5]]
           [["i"; "j"]; ["j"; "k"]] ["i"; "k"]);
    reflexivity.
Qed.

(** The signature [(i,j),(j,k)->(i,k)] on inputs of shapes (2,3,4) and
    (2,4,5), and on inputs whose lengths for [j] differ. *)
Example matmul_output_shape :
  CudaGUFuncDispatcher._determine_output_shape matmul_dispatcher
    [host_array int64 0 [2; 3; 4]; host_array int64 1 [2; 4; 5]]
  = Ok [2; 3; 5].
Proof. vm_compute. reflexivity. Qed.

Example matmul_dimension_mismatch :
  CudaGUFuncDispatcher._determine_output_shape matmul_dispatcher
    [host_array int64 0 [2; 3; 4]; host_array int64 1 [2; 5; 5]]
  = Raise (ValueErrorArgs "dimension %s mismatch: %d != %d" "j" 5 4).
Proof. vm_compute. reflexivity. Qed.

Lemma execute_launch_by_loop_dimensions_witness :
  ∃ ncta s',
    CUDAGenerializedUFunc.execute gufunc_object add_kernel two_loops
      [device_cube 0; device_cube 1] (device_cube 2) cubes_state = (Ok (), s')
    ∧ ((ncta - 1) * 1024 < 6 ≤ ncta * 1024)%Z
    ∧ launches s' = launches cubes_state ++
        [Launch ncta 1024
           (zip_with (λ p cs, reshaped p (6 :: cs))
              [device_cube 0; device_cube 1] [[4]; [4]]
              ++ [reshaped (device_cube 2) [6; 4]])
           None].
Proof.
  destruct (execute_launch_by_loop_dimensions gufunc_object add_kernel
              two_loops [device_cube 0; device_cube 1] (device_cube 2) [4]
              cubes_state) as (_ & _ & Hcover).
  - simpl. lia.
  - intros _. split; [|split; reflexivity].
    repeat constructor.
  - apply (Hcover 1024%Z); [reflexivity|lia|simpl; lia].
Defined.

Lemma host_call_out_is_returned_witness :
  let args := [host_array int64 0 [2; 2]; host_array int64 1 [2; 2]] in
  let out := host_array int64 2 [2; 2] in
  ∃ r1 s1 s2,
    CudaUFuncDispatcher.__call__ CudaUFuncDispatcher.cls add_dispatcher args
      (Kwargs None) matrices_state = (Ok r1, s1)
    ∧ CudaUFuncDispatcher.__call__ CudaUFuncDispatcher.cls add_dispatcher args
        (Kwargs (Some out)) matrices_state = (Ok out, s2)
    ∧ shape r1 = shape out
    ∧ contents s2 out = contents s1 r1.
Proof.
  intros args out.
  apply (host_call_out_is_returned add_dispatcher args out int64 add_kernel
           (λ l, foldr Z.add 0%Z l) 1024 args (host_array int64 0 [2; 2])
           matrices_state);
    try reflexivity.
  all: try lia.
  - repeat constructor; unfold valid; simpl; lia.
  - simpl. lia.
  - unfold out_fits, valid. simpl. repeat split; try done; lia.
Defined.

(** C9.  A Fortran-ordered output array of the expected shape (2,2): the
    call returns the sums, as the call without [out=] does, but in an
    array on a new buffer; the array the caller passed keeps its zeros. *)
Lemma host_call_out_fortran_order_is_copied :
  let args := [host_array int64 0 [2; 2]; host_array int64 1 [2; 2]] in
  let r0 := CudaUFuncDispatcher.__call__ CudaUFuncDispatcher.cls add_dispatcher
              args (Kwargs None) matrices_state in
  let r := CudaUFuncDispatcher.__call__ CudaUFuncDispatcher.cls add_dispatcher
             args (Kwargs (Some fortran_out)) matrices_state in
  (∃ ret0, r0.1 = Ok ret0 ∧ shape ret0 = shape fortran_out
           ∧ contents r0.2 ret0 = [11; 22; 33; 44]%Z)
  ∧ ∃ ret, r.1 = Ok ret
           ∧ base ret ≠ base fortran_out
           ∧ contents r.2 ret = [11; 22; 33; 44]%Z
           ∧ contents r.2 fortran_out = [0; 0; 0; 0]%Z.
Proof.
  split.
  - eexists. vm_compute. repeat split.
  - eexists. vm_compute. repeat split. lia.
Qed.

(** The whole schedule-driven call on three device arrays of shape (2,3,4)
    under a schedule with two loop dimensions: one launch, on arrays of
    shape (6,4); and the same object called with a device and a host
    array. *)
Example generalized_call_collapses_loops :
  let r := CUDAGenerializedUFunc.__call__ gufunc_object
             [device_cube 0; device_cube 1] (Kwargs (Some (device_cube 2)))
             cubes_state in
  r.1 = Ok (device_cube 2)
  ∧ map (λ l, (l_grid l, l_block l, map shape (l_args l), l_count l))
      (launches r.2)
    = [(1%Z, 1024%Z, [[6; 4]; [6; 4]; [6; 4]], None)].
Proof. vm_compute. done. Qed.

Example generalized_call_mixed_residency :
  CUDAGenerializedUFunc.__call__ gufunc_object
    [device_cube 0; host_array int64 1 [2; 3; 4]] (Kwargs None) cubes_state
  = (Raise (TypeError
              "if device array is used, all arguments must be device array."),
     cubes_state).
Proof. reflexivity. Qed.

(** The reduction of integer addition over arrays of the lengths that
    exercise the odd and even splits. *)
Example reduce_sums :
  map (λ n, (CudaUFuncDispatcher.reduce CudaUFuncDispatcher.cls add_dispatcher
               (vector Host int64 0 n)
               {| heap := [Z.of_nat <$> seq 1 n]; launches := [] |}).1)
      [0; 1; 2; 3; 5; 16; 17]
  = [Raise (TypeError "Reduction on an empty array.");
     Ok 1%Z; Ok 3%Z; Ok 6%Z; Ok 15%Z; Ok 136%Z; Ok 153%Z].
Proof. vm_compute. reflexivity. Qed.


(** * Further properties of the dispatchers *)

Section Further.
Context {V : Type} `{!Elem V}.

(** ** Failures before any work *)

Lemma string_app_empty (x : string) : x +:+ "" = x.
Proof.
  induction x as [|c x IH]; [done|].
  change (String c (x +:+ "") = String c x). by rewrite IH.
Qed.

Lemma unsupported_message (x : string) :
  py_format "Input dtypes not supported by ufunc %s" [x]
  = Ok ("Input dtypes not supported by ufunc " +:+ x).
Proof.
  change (Ok ("Input dtypes not supported by ufunc " +:+ (x +:+ ""))
          = Ok ("Input dtypes not supported by ufunc " +:+ x)).
  by rewrite string_app_empty.
Qed.

(** X1.  A call whose argument dtypes have no entry in the table raises a
    [TypeError] that names the dtypes, whatever the class, the residency of
    the arguments and the keywords are; nothing is allocated and nothing is
    launched. *)
Theorem call_unsupported_dtypes (cls : methods V) (self : dispatcher V)
    (args : list ndarray) (kws : kwargs) (s : state V) :
  table_lookup (functions self) (map dtype args) = None →
  CudaUFuncDispatcher.__call__ cls self args kws s
  = (Raise (TypeError ("Input dtypes not supported by ufunc "
                         +:+ dtypes_repr (map dtype args))), s).
Proof.
  intros Hlk. unfold CudaUFuncDispatcher.__call__.
  unfold CudaUFuncDispatcher._get_function_by_dtype. rewrite Hlk.
  by rewrite unsupported_message.
Qed.

(** X2.  When the thread ceiling is the hardware limit (no smaller
    [max_blocksize] is set) and the autotuner of the kernel reports no
    usable thread count, the call raises the resource exception and leaves
    the store and the launches as they are. *)
Theorem call_autotune_no_threads (cls : methods V) (self : dispatcher V)
    (args : list ndarray) (kws : kwargs) (rdt : np_dtype) (k : kernel V)
    (s : state V) :
  table_lookup (functions self) (map dtype args) = Some (rdt, k) →
  (MAX_THREADS_PER_BLOCK k ≤ CudaUFuncDispatcher.max_blocksize self)%Z →
  autotune k = Some 0%Z →
  CudaUFuncDispatcher.__call__ cls self args kws s
  = (Raise (PyException
              "insufficient resources to run kernelat any thread-per-block."),
     s).
Proof.
  intros Hlk Hmax Hat. unfold CudaUFuncDispatcher.__call__.
  unfold CudaUFuncDispatcher._get_function_by_dtype. rewrite Hlk.
  rewrite (bind_lift_ok _ _ _ _ eq_refl). simpl.
  rewrite Z.min_l by done. rewrite decide_True by done.
  unfold CudaUFuncDispatcher._apply_autotuning. rewrite Hat. done.
Qed.

Lemma max_blocksize_below_limit (self : dispatcher V) (k : kernel V) (b : Z) :
  max_blocksize_attr self = Some b →
  (b < MAX_THREADS_PER_BLOCK k)%Z →
  max_threads_of self k = Ok b.
Proof.
  intros Hb Hlt. unfold max_threads_of, CudaUFuncDispatcher.max_blocksize.
  rewrite Hb. simpl. rewrite Z.min_r by lia. rewrite decide_False by lia. done.
Qed.

(** X3.  A positive [max_blocksize] below the hardware limit is the thread
    ceiling and the autotuner is not asked: on the host path the call then
    succeeds and returns the elementwise result whatever the autotuner of
    the kernel would report, also no usable thread count.
    Counts are within the integers a double holds exactly: the broadcast
    shape has at most [2^53] elements and [max_blocksize] is at most [2^53]. *)
Theorem max_blocksize_bypasses_autotuner (self : dispatcher V)
    (args : list ndarray) (rdt : np_dtype) (k : kernel V) (f : list V → V)
    (b : Z) (bs : list ndarray) (b0 : ndarray) (s : state V) :
  Forall (λ a, resid a = Host ∧ valid s a) args →
  table_lookup (functions self) (map dtype args) = Some (rdt, k) →
  krun k = elementwise f →
  max_blocksize_attr self = Some b →
  (1 ≤ b < MAX_THREADS_PER_BLOCK k)%Z → (b ≤ 2 ^ 53)%Z →
  np_broadcast_arrays args = Ok bs → first bs = Ok b0 →
  (Z.of_nat (np_prod (shape b0)) ≤ 2 ^ 53)%Z →
  ∃ r s',
    CudaUFuncDispatcher.__call__ CudaUFuncDispatcher.cls self args
      (Kwargs None) s = (Ok r, s')
    ∧ contents s' r
      = elementwise_result f (map (contents s) bs) (np_prod (shape b0)).
Proof.
  intros Hargs Hlk Hk Hb Hlt Hb53 Hbr H0 Hn53.
  destruct (host_call_spec self args (Kwargs None) s rdt k f b bs b0)
    as (r & s' & Hc & _ & _ & _ & Hv & _); try done.
  - apply max_blocksize_below_limit; [done|lia].
  - lia.
  - by exists r, s'.
Qed.

(** ** The output argument on the host path *)

(** The host path up to the point where the output array is looked at
    only computes: whatever it raises there, the state is as before. *)
Lemma host_prefix_raises (self : dispatcher V) (args : list ndarray)
    (kws : kwargs) (s : state V) (e : pyerr) (rdt : np_dtype) (k : kernel V)
    (mt : Z) (bs : list ndarray) (b0 : ndarray) :
  existsb is_cuda_ndarray args = false →
  table_lookup (functions self) (map dtype args) = Some (rdt, k) →
  max_threads_of self k = Ok mt →
  np_broadcast_arrays args = Ok bs → first bs = Ok b0 →
  (match kw_out kws with
   | None => CudaUFuncDispatcher._allocate_output self bs rdt
   | Some out =>
       if is_cuda_ndarray out
       then raise (TypeError "output array must not be a device array")
       else
         do o0 <- lift (shape0 out);
         do b <- lift (first bs);
         do b0 <- lift (shape0 b);
         if decide (o0 < b0)
         then raise (ValueError "insufficient storage for output array")
         else ret out
   end) s = (Raise e, s) →
  CudaUFuncDispatcher.__call__ CudaUFuncDispatcher.cls self args kws s
  = (Raise e, s).
Proof.
  intros Hd Hlk Hmt Hb H0 Hout. rewrite call_host_unfold by done.
  unfold CudaUFuncDispatcher._get_function_by_dtype. rewrite Hlk.
  rewrite (bind_lift_ok _ _ _ _ eq_refl).
  rewrite (bind_lift_ok _ _ _ _ Hmt). simpl.
  unfold CudaUFuncDispatcher._prepare_inputs.
  rewrite (bind_lift_ok _ _ _ _ Hb).
  assert (CudaUFuncDispatcher._determine_element_count bs
          = Ok (Z.of_nat (np_prod (shape b0)))) as Hec.
  { unfold CudaUFuncDispatcher._determine_element_count. by rewrite H0. }
  rewrite (bind_lift_ok _ _ _ _ Hec).
  by rewrite (bind_raise _ _ _ _ _ Hout).
Qed.

(** X4.  On the host path a device array given as [out=] is refused with
    a [TypeError], before anything is allocated, staged or launched. *)
Theorem host_call_device_out (self : dispatcher V) (args : list ndarray)
    (out : ndarray) (rdt : np_dtype) (k : kernel V) (mt : Z)
    (bs : list ndarray) (b0 : ndarray) (s : state V) :
  existsb is_cuda_ndarray args = false →
  table_lookup (functions self) (map dtype args) = Some (rdt, k) →
  max_threads_of self k = Ok mt →
  np_broadcast_arrays args = Ok bs → first bs = Ok b0 →
  is_cuda_ndarray out = true →
  CudaUFuncDispatcher.__call__ CudaUFuncDispatcher.cls self args
    (Kwargs (Some out)) s
  = (Raise (TypeError "output array must not be a device array"), s).
Proof.
  intros Hd Hlk Hmt Hb H0 Ho.
  apply (host_prefix_raises self args _ s _ rdt k mt bs b0); try done.
  cbn [kw_out]. by rewrite Ho.
Qed.

(** X5.  On the host path an output array whose first axis is shorter
    than the first axis of the broadcast shape is refused with the
    [ValueError] for insufficient storage, before anything is allocated,
    staged or launched.  Only the first axes are compared. *)
Theorem host_call_out_too_small (self : dispatcher V) (args : list ndarray)
    (out : ndarray) (rdt : np_dtype) (k : kernel V) (mt : Z)
    (bs : list ndarray) (b0 : ndarray) (o0 d0 : nat) (s : state V) :
  existsb is_cuda_ndarray args = false →
  table_lookup (functions self) (map dtype args) = Some (rdt, k) →
  max_threads_of self k = Ok mt →
  np_broadcast_arrays args = Ok bs → first bs = Ok b0 →
  is_cuda_ndarray out = false →
  shape0 out = Ok o0 → shape0 b0 = Ok d0 → o0 < d0 →
  CudaUFuncDispatcher.__call__ CudaUFuncDispatcher.cls self args
    (Kwargs (Some out)) s
  = (Raise (ValueError "insufficient storage for output array"), s).
Proof.
  intros Hd Hlk Hmt Hb H0 Ho Hso Hsb Hlt.
  apply (host_prefix_raises self args _ s _ rdt k mt bs b0); try done.
  cbn [kw_out]. rewrite Ho. unfold bind, lift. rewrite Hso, H0, Hsb.
  by rewrite decide_True.
Qed.

(** X6.  An output array without axes fails the storage check itself: the
    host path raises [IndexError] for a 0-d [out=], also when the broadcast
    shape is 0-d and the call without [out=] would go through. *)
Theorem host_call_out_without_axes (self : dispatcher V) (args : list ndarray)
    (out : ndarray) (rdt : np_dtype) (k : kernel V) (mt : Z)
    (bs : list ndarray) (b0 : ndarray) (s : state V) :
  existsb is_cuda_ndarray args = false →
  table_lookup (functions self) (map dtype args) = Some (rdt, k) →
  max_threads_of self k = Ok mt →
  np_broadcast_arrays args = Ok bs → first bs = Ok b0 →
  is_cuda_ndarray out = false →
  shape out = [] →
  CudaUFuncDispatcher.__call__ CudaUFuncDispatcher.cls self args
    (Kwargs (Some out)) s
  = (Raise (IndexError "tuple index out of range"), s).
Proof.
  intros Hd Hlk Hmt Hb H0 Ho Hso.
  apply (host_prefix_raises self args _ s _ rdt k mt bs b0); try done.
  cbn [kw_out]. rewrite Ho. unfold bind, lift, shape0. by rewrite Hso.
Qed.

(** ** The requirement on device-path arguments *)

Lemma not_1d_message (i : nat) :
  py_format "arg %d is not a 1D array" [pretty i]
  = Ok ("arg " +:+ pretty i +:+ " is not a 1D array").
Proof. reflexivity. Qed.

Lemma check_1d_first_offender (i : nat) (pre post : list ndarray) (a : ndarray) :
  Forall (λ x, ndim x = 1) pre → ndim a ≠ 1 →
  CudaUFuncDispatcher.check_1d i (pre ++ a :: post)
  = Raise (ValueError ("arg " +:+ pretty (i + length pre)
                         +:+ " is not a 1D array")).
Proof.
  intros Hpre Ha. revert i. induction Hpre as [|x pre Hx _ IH]; intros i.
  - rewrite Nat.add_0_r. simpl. by rewrite decide_True.
  - replace (i + length (x :: pre)) with (S i + length pre) by (simpl; lia).
    simpl. rewrite decide_False by (intros Hne; by apply Hne).
    apply IH.
Qed.

Lemma check_1d_ok (i : nat) (args : list ndarray) :
  Forall (λ x, ndim x = 1) args → CudaUFuncDispatcher.check_1d i args = Ok ().
Proof.
  intros Hargs. revert i. induction Hargs as [|x l Hx _ IH]; intros i; [done|].
  simpl. rewrite decide_False by (intros Hne; by apply Hne). apply IH.
Qed.

(** X7.  When some argument is not 1-D, the requirement check raises the
    [ValueError] that names the index of the first such argument. *)
Theorem arguments_requirement_names_first_offender (pre post : list ndarray)
    (a : ndarray) :
  Forall (λ x, ndim x = 1) pre → ndim a ≠ 1 →
  CudaUFuncDispatcher._arguments_requirement (pre ++ a :: post)
  = Raise (ValueError ("arg " +:+ pretty (length pre) +:+ " is not a 1D array")).
Proof.
  intros Hpre Ha. unfold CudaUFuncDispatcher._arguments_requirement.
  by rewrite (check_1d_first_offender 0 pre post a Hpre Ha).
Qed.

(** The lengths the second loop collects: those of the arguments of
    non-zero stride, in order. *)
Lemma collect_shapes_spec (i : nat) (args : list ndarray) :
  Forall (λ a, ndim a = 1 ∧ length (strides a) = 1) args →
  ∃ l, CudaUFuncDispatcher.collect_shapes i args = Ok l
       ∧ map snd l
         = map (λ a, hd 0 (shape a))
             (filter (λ a, hd 0 (strides a) ≠ 0) args).
Proof.
  intros Hargs. revert i.
  induction Hargs as [|a args [Hn Hs] _ IH]; intros i; [by exists []|].
  simpl. unfold strides0, shape0, ndim in *.
  destruct (strides a) as [|st [|? ?]] eqn:Hst; try done.
  destruct (shape a) as [|n [|? ?]] eqn:Hsh; try done. simpl.
  destruct (IH (S i)) as (l & Hl & Hm). rewrite Hl. simpl.
  rewrite filter_cons. rewrite Hst. simpl.
  destruct (decide (st ≠ 0)) as [Hne|He].
  - eexists. split; [done|]. simpl. by rewrite Hm, Hsh.
  - by exists l.
Qed.

Lemma arguments_requirement_iff (args : list ndarray) :
  Forall (λ a, ndim a = 1 ∧ length (strides a) = 1) args →
  CudaUFuncDispatcher._arguments_requirement args = Ok ()
  ↔ (∃ a, a ∈ args ∧ hd 0 (strides a) ≠ 0)
    ∧ ∀ a b, a ∈ args → b ∈ args →
        hd 0 (strides a) ≠ 0 → hd 0 (strides b) ≠ 0 → shape a = shape b.
Proof.
  intros Hargs. unfold CudaUFuncDispatcher._arguments_requirement.
  rewrite check_1d_ok by (eapply Forall_impl; [exact Hargs|]; by intros ? [? ?]).
  simpl. destruct (collect_shapes_spec 0 args Hargs) as (l & -> & Hm). simpl.
  set (P := λ a : ndarray, hd 0 (strides a) ≠ 0) in *.
  assert (∀ a, a ∈ args → shape a = [hd 0 (shape a)]) as Hshape.
  { intros a Ha. rewrite Forall_forall in Hargs.
    destruct (Hargs a Ha) as [Hn _]. unfold ndim in Hn.
    by destruct (shape a) as [|? [|? ?]]. }
  destruct l as [|[i0 ms] rest]; simpl.
  - split; [done|]. intros [(a & Ha & Hst) _]. exfalso.
    assert (a ∈ filter P args) as Hin by (by apply list_elem_of_filter).
    destruct (filter P args); [by apply elem_of_nil in Hin|done].
  - simpl in Hm.
    destruct (check_lengths_outcome ms rest) as [[HF ->]|[HF ->]].
    + split; [intros _|done]. split.
      * destruct (filter P args) as [|a fl] eqn:Hf; [done|].
        exists a.
        assert (a ∈ filter P args) as Hin by (rewrite Hf; by left).
        apply list_elem_of_filter in Hin as [? ?]. done.
      * intros a b Ha Hb Hsa Hsb.
        assert (∀ x, x ∈ filter P args → hd 0 (shape x) = ms) as Hall.
        { assert (Forall (λ n, n = ms) (map snd ((i0, ms) :: rest))) as Hf.
          { simpl. constructor; [done|]. by apply Forall_map. }
          simpl in Hf. rewrite Hm in Hf.
          intros x Hx. rewrite Forall_map, Forall_forall in Hf. by apply Hf. }
        rewrite (Hshape a Ha), (Hshape b Hb).
        rewrite (Hall a), (Hall b); try done; by apply list_elem_of_filter.
    + split; [done|]. intros [_ Heq]. exfalso. apply HF.
      assert (Forall (λ n, n = ms) (map snd rest)) as Hf;
        [|by rewrite Forall_map in Hf].
      destruct (filter P args) as [|a0 fl] eqn:Hfl; [done|].
      simpl in Hm. injection Hm as Hms Hrest. rewrite Hrest.
      apply Forall_map, Forall_forall. intros x Hx. simpl.
      assert (a0 ∈ filter P args) as H0 by (rewrite Hfl; by left).
      assert (x ∈ filter P args) as H1 by (rewrite Hfl; by right).
      apply list_elem_of_filter in H0 as [? ?].
      apply list_elem_of_filter in H1 as [? ?].
      rewrite Hms. f_equal. by apply Heq.
Qed.

(** X8.  For 1-D arguments, the requirement check passes exactly when
    some argument has a non-zero stride and all arguments of non-zero
    stride have the same length. *)
Theorem arguments_requirement_accepts (args : list ndarray) :
  Forall (λ a, ndim a = 1 ∧ length (strides a) = 1) args →
  CudaUFuncDispatcher._arguments_requirement args = Ok ()
  ↔ (∃ a, a ∈ args ∧ hd 0 (strides a) ≠ 0)
    ∧ ∀ a b, a ∈ args → b ∈ args →
        hd 0 (strides a) ≠ 0 → hd 0 (strides b) ≠ 0 → shape a = shape b.
Proof. apply arguments_requirement_iff. Qed.

(** X9.  When every argument is a 1-D array of zero stride (and also when
    there is no argument), no length is collected and the check raises
    [IndexError] instead of passing. *)
Theorem arguments_requirement_all_zero_stride (args : list ndarray) :
  Forall (λ a, ndim a = 1 ∧ strides a = [0]) args →
  CudaUFuncDispatcher._arguments_requirement args
  = Raise (IndexError "list index out of range").
Proof.
  intros Hargs. unfold CudaUFuncDispatcher._arguments_requirement.
  rewrite check_1d_ok by (eapply Forall_impl; [exact Hargs|]; by intros ? [? ?]).
  simpl.
  assert (CudaUFuncDispatcher.collect_shapes 0 args = Ok []) as ->; [|done].
  generalize 0. induction Hargs as [|a args [Hn Hs] _ IH]; intros i; [done|].
  simpl. unfold strides0. rewrite Hs. simpl. apply IH.
Qed.

(** ** Launch geometry *)

(** X10.  The geometry wastes less than one block: for an element count
    from 1 to [2^53] and a positive thread ceiling that has a double,
    blocks times threads stay below the count plus the ceiling; a count
    within the ceiling gets one block of exactly that many threads, and a
    larger count gets full blocks. *)
Theorem determine_dimensions_tight (n max_thread : Z) (y : pyfloat) :
  (1 ≤ n ≤ 2 ^ 53)%Z → (1 ≤ max_thread)%Z →
  float_of_int max_thread = Ok y →
  ∃ block_count thread_count,
    CudaUFuncDispatcher._determine_dimensions n max_thread
    = Ok (block_count, thread_count)
    ∧ (block_count * thread_count < n + max_thread)%Z
    ∧ ((n ≤ max_thread)%Z → block_count = 1%Z ∧ thread_count = n)
    ∧ ((max_thread ≤ n)%Z → thread_count = max_thread).
Proof.
  intros Hn Hm Hy. eexists _, _.
  split; [apply (determine_dimensions_spec n max_thread y); [lia|done|done]|].
  pose proof (ceiling_bounds n max_thread Hm) as Hc.
  set (c := (- ((- n) / max_thread))%Z) in *.
  assert (1 ≤ c)%Z by nia.
  split; [|split].
  - destruct (Z.min_spec max_thread n) as [[? ->]|[? ->]]; nia.
  - intros Hle. split; [nia|lia].
  - lia.
Qed.

(** ** The generalized ufunc object *)

(** X11.  The generalized ufunc object refuses, with a [TypeError] and
    before it does anything else, every call whose arguments are not all
    device arrays or all host arrays; a call without arguments is refused
    in the same way. *)
Theorem generalized_call_residency_check (self : CUDAGenerializedUFunc.t)
    (args : list ndarray) (kws : kwargs) (s : state V) :
  args = []
  ∨ ((∃ a, a ∈ args ∧ is_cuda_ndarray a = true)
     ∧ ∃ b, b ∈ args ∧ is_cuda_ndarray b = false) →
  CUDAGenerializedUFunc.__call__ self args kws s
  = (Raise (TypeError
              "if device array is used, all arguments must be device array."),
     s).
Proof.
  intros [->|[(a & Ha & Hda) (b & Hb & Hdb)]]; [done|].
  by apply (generalized_call_rejects_mixed self args kws s a b).
Qed.

Lemma launch_kernel_outcome (self : CUDAGenerializedUFunc.t) (k : kernel V)
    (nelem : Z) (args : list ndarray) (s : state V) :
  (∃ e, CUDAGenerializedUFunc._launch_kernel self k nelem args s = (Raise e, s))
  ∨ ∃ s' l,
      CUDAGenerializedUFunc._launch_kernel self k nelem args s = (Ok (), s')
      ∧ launches s' = launches s ++ [l]
      ∧ l_args l = args ∧ l_count l = None
      ∧ length (heap s') = length (heap s).
Proof.
  unfold CUDAGenerializedUFunc._launch_kernel, bind, lift.
  destruct (CUDAGenerializedUFunc._apply_autotuning k _) as [ntid|e];
    [|left; by exists e].
  destruct (float_of_int nelem) as [x|e]; [|left; by exists e].
  destruct (float_of_int ntid) as [y|e]; [|left; by exists e].
  destruct (float_div x y) as [q|e]; [|left; by exists e].
  destruct (int_of_float q) as [t|e]; [|left; by exists e].
  right. unfold launch_kernel. eexists _, _. split; [reflexivity|].
  simpl. repeat split. destruct (last args); [|done].
  by rewrite length_insert.
Qed.

(** X12.  The launch block of the schedule-driven call either fails and
    then leaves the store and the launches exactly as they were, or makes a
    single launch, without a trailing count, of as many arrays as there are
    inputs zipped with the schedule plus the output. *)
Theorem execute_all_or_nothing (self : CUDAGenerializedUFunc.t) (k : kernel V)
    (sch : schedule_t) (params : list ndarray) (retval : ndarray)
    (s : state V) :
  (∃ e, CUDAGenerializedUFunc.execute self k sch params retval s = (Raise e, s))
  ∨ ∃ s' l,
      CUDAGenerializedUFunc.execute self k sch params retval s = (Ok (), s')
      ∧ launches s' = launches s ++ [l]
      ∧ l_count l = None
      ∧ map base (l_args l)
        = map base (match loopdims sch with
                    | _ :: _ :: _ => take (length (ishapes sch)) params
                    | _ => params
                    end ++ [retval])
      ∧ length (heap s') = length (heap s).
Proof.
  unfold CUDAGenerializedUFunc.execute.
  destruct (decide (loopn sch ≤ 0)%Z); [left; by eexists|].
  assert (∀ d ps shs r,
            CUDAGenerializedUFunc.reshape_all d ps shs = Ok r →
            map base r = map base (take (length shs) ps)) as Hre.
  { intros d ps. induction ps as [|p ps IH]; intros [|cs shs] r Hr;
      simpl in *; try by injection Hr as <-.
    unfold device_reshape in Hr. destruct (decide _); [|done]. simpl in Hr.
    destruct (CUDAGenerializedUFunc.reshape_all d ps shs) as [r'|] eqn:Hr';
      [|done].
    injection Hr as <-. simpl. f_equal. by apply IH. }
  destruct (loopdims sch) as [|d1 [|d2 rest]].
  - destruct (CUDAGenerializedUFunc.reshape_all 1 params (map shape params))
      as [np|err] eqn:Hnp; [|left; by eexists].
    rewrite (bind_lift_ok _ _ _ _ eq_refl).
    destruct (device_reshape retval (1 :: shape retval)) as [nr|err] eqn:Hnr;
      [|left; by eexists].
    rewrite (bind_lift_ok _ _ _ _ eq_refl).
    assert (base nr = base retval) as Hbr.
    { unfold device_reshape in Hnr. destruct (decide _); [|done].
      by injection Hnr as <-. }
    destruct (launch_kernel_outcome self k (loopn sch) (np ++ [nr]) s)
      as [[err He]|(s' & l & Hl & Hla & Hargs & Hc & Hh)].
    + left. exists err. exact He.
    + right. exists s', l. split; [exact Hl|]. repeat split; try done.
      rewrite Hargs, !map_app. simpl. rewrite Hbr. f_equal.
      rewrite (Hre _ _ _ _ Hnp), length_map.
      by rewrite firstn_all.
  - destruct (launch_kernel_outcome self k (loopn sch) (params ++ [retval]) s)
      as [[err He]|(s' & l & Hl & Hla & Hargs & Hc & Hh)].
    + left. by exists err.
    + right. exists s', l. split; [exact Hl|]. repeat split; try done.
      by rewrite Hargs.
  - destruct (CUDAGenerializedUFunc.reshape_all _ params (ishapes sch))
      as [np|err] eqn:Hnp; [|left; by eexists].
    rewrite (bind_lift_ok _ _ _ _ eq_refl).
    destruct (first (oshapes sch)) as [osh|err]; [|left; by eexists].
    rewrite (bind_lift_ok _ _ _ _ eq_refl).
    destruct (device_reshape retval (Z.to_nat (loopn sch) :: osh))
      as [nr|err] eqn:Hnr; [|left; by eexists].
    rewrite (bind_lift_ok _ _ _ _ eq_refl).
    assert (base nr = base retval) as Hbr.
    { unfold device_reshape in Hnr. destruct (decide _); [|done].
      by injection Hnr as <-. }
    destruct (launch_kernel_outcome self k (loopn sch) (np ++ [nr]) s)
      as [[err He]|(s' & l & Hl & Hla & Hargs & Hc & Hh)].
    + left. exists err. exact He.
    + right. exists s', l. split; [exact Hl|]. repeat split; try done.
      rewrite Hargs, !map_app. simpl. rewrite Hbr. f_equal.
      by apply (Hre _ _ _ _ Hnp).
Qed.

(** ** Validation in [reduce] *)

(** X13.  [reduce] checks its inputs before any device work: an empty
    table is an [IndexError]; a table whose first key does not have two
    dtypes is refused as not binary, whatever the other entries are; for a
    binary table, an argument that is not 1-D is refused.  In each case
    the store and the launches are as before. *)
Theorem reduce_validation (cls : methods V) (self : dispatcher V)
    (arg : ndarray) (s : state V) :
  (functions self = [] →
   CudaUFuncDispatcher.reduce cls self arg s
   = (Raise (IndexError "list index out of range"), s))
  ∧ (∀ key v rest, functions self = (key, v) :: rest → length key ≠ 2 →
     CudaUFuncDispatcher.reduce cls self arg s
     = (Raise (AssertionError "must be a binary ufunc"), s))
  ∧ (∀ key v rest, functions self = (key, v) :: rest → length key = 2 →
     ndim arg ≠ 1 →
     CudaUFuncDispatcher.reduce cls self arg s
     = (Raise (AssertionError "must use 1d array"), s)).
Proof.
  unfold CudaUFuncDispatcher.reduce. split; [|split].
  - intros ->. done.
  - intros key v rest -> Hk. simpl.
    rewrite (bind_lift_ok _ _ _ _ eq_refl). simpl. by rewrite decide_True.
  - intros key v rest -> Hk Hn. simpl.
    rewrite (bind_lift_ok _ _ _ _ eq_refl). simpl.
    rewrite decide_False by (intros Hne; by apply Hne).
    by rewrite decide_True.
Qed.

(** ** Flattening and the host path *)

(** X14.  [_adjust_dimension] keeps the number of arrays; every array of
    at most one axis is passed on as it is, every other array is replaced
    by a 1-D array of the same elements in row-major order; arrays already
    in the store keep their elements and nothing is launched. *)
Theorem adjust_dimension_flattens (l : list ndarray) (s : state V) :
  Forall (λ a, valid s a ∧ resid a = Host) l →
  ∃ bs s',
    CudaUFuncDispatcher._adjust_dimension l s = (Ok bs, s')
    ∧ Forall2 (λ a b, ndim b ≤ 1
                      ∧ contents s' b = contents s a
                      ∧ (ndim a ≤ 1 → b = a)
                      ∧ (1 < ndim a → shape b = [np_prod (shape a)])) l bs
    ∧ extends s s'
    ∧ launches s' = launches s.
Proof.
  intros Hl.
  destruct (mapM_spec
              (λ ary, if decide (1 < ndim ary) then ravel ary else ret ary)
              (λ st a, valid st a ∧ resid a = Host ∧ valid s a)
              (λ st a b, flattened st a b ∧ valid s a ∧ (ndim a ≤ 1 → b = a)
                         ∧ (1 < ndim a → shape b = [np_prod (shape a)]))
              l s) as (bs & s' & Hm & He & Hla & HQ).
  - intros s0 s1 a He0 (Hv & Hr & Hv0). split; [by eapply valid_extends|done].
  - intros s0 s1 a b He0 (Hf & H1 & H2).
    split; [by eapply flattened_extends|done].
  - intros s0 a _ (Hv & Hr & Hv0). destruct (decide (1 < ndim a)) as [Hn|Hn].
    + destruct (ravel_spec a s0 Hv Hr) as (b & s1 & H1 & H2 & H3 & H4 & H5 & _).
      exists b, s1. split; [done|]. split; [done|]. split; [done|].
      split; [done|]. split; [done|]. split; [intros; lia|done].
    + exists a, s0. split; [done|]. split; [done|]. split; [done|].
      split; [|split; [done|split; [done|intros; lia]]].
      repeat split; try done. lia.
  - eapply Forall_impl; [exact Hl|]. simpl. tauto.
  - exists bs, s'. split; [exact Hm|]. split; [|done].
    eapply Forall2_impl; [exact HQ|]. simpl.
    intros a b ((Hva & Hvb & Hn & Hr & Hp & Hc) & Hv0 & H1 & H2).
    repeat split; try done. rewrite Hc. by apply contents_extends.
Qed.

(** X15.  The host path for any number of inputs: host arrays that
    broadcast to one shape, an elementwise kernel registered for their
    dtypes and a positive thread ceiling.  The call returns a host array of
    the broadcast shape and the registered result dtype whose elements, in
    row-major order, are the scalar function applied to the elements of
    the broadcast inputs; one launch is made.
    Counts are within the integers a double holds exactly: the broadcast
    shape has at most [2^53] elements and the thread ceiling is at most
    [2^53]. *)
Theorem host_call_elementwise (self : dispatcher V) (args : list ndarray)
    (rdt : np_dtype) (k : kernel V) (f : list V → V) (mt : Z)
    (bs : list ndarray) (b0 : ndarray) (s : state V) :
  Forall (λ a, resid a = Host ∧ valid s a) args →
  table_lookup (functions self) (map dtype args) = Some (rdt, k) →
  krun k = elementwise f →
  max_threads_of self k = Ok mt → (1 ≤ mt ≤ 2 ^ 53)%Z →
  np_broadcast_arrays args = Ok bs → first bs = Ok b0 →
  (Z.of_nat (np_prod (shape b0)) ≤ 2 ^ 53)%Z →
  ∃ r s',
    CudaUFuncDispatcher.__call__ CudaUFuncDispatcher.cls self args
      (Kwargs None) s = (Ok r, s')
    ∧ resid r = Host ∧ dtype r = rdt ∧ shape r = shape b0
    ∧ contents s' r
      = elementwise_result f (map (contents s) bs) (np_prod (shape b0))
    ∧ length (launches s') = S (length (launches s)).
Proof.
  intros Hargs Hlk Hk Hmt Hmt1 Hb H0 Hn53.
  destruct (host_call_spec self args (Kwargs None) s rdt k f mt bs b0)
    as (r & s' & Hc & Hsh & _ & Hr & Hv & (Hd & _) & Hl); try done.
  exists r, s'. repeat split; done.
Qed.

(** ** The device path *)

Lemma scalar_promotion_id (args : list ndarray) (s : state V) :
  Forall (λ a, shape a ≠ []) args →
  mapM_ CudaUFuncDispatcher.scalar_to_zero_strided args s = (Ok args, s).
Proof.
  induction 1 as [|a args Ha _ IH]; [done|]. simpl.
  unfold CudaUFuncDispatcher.scalar_to_zero_strided at 1.
  destruct (shape a); [done|].
  rewrite (bind_ok (ret a) _ s s a eq_refl).
  by rewrite (bind_ok _ _ _ _ _ IH).
Qed.

Lemma auto_device_id (args : list ndarray) (s : state V) :
  Forall (λ a, resid a = Device) args →
  mapM_ _auto_device args s = (Ok (map (λ a, (a, false)) args), s).
Proof.
  induction 1 as [|a args Ha _ IH]; [done|]. simpl.
  unfold _auto_device at 1, is_cuda_ndarray. rewrite Ha.
  rewrite (bind_ok (ret (a, false)) _ s s _ eq_refl).
  by rewrite (bind_ok _ _ _ _ _ IH).
Qed.

Lemma writes_fresh (g : nat → nat) (h : nat → V) (n : nat) (x : V) :
  (∀ t, t < n → g t = t) →
  writes g h n (replicate n x) = map h (seq 0 n).
Proof.
  intros Hg. apply list_eq. intros i.
  change (map h (seq 0 n)) with (h <$> seq 0 n). rewrite list_lookup_fmap.
  destruct (decide (i < n)) as [Hi|Hi].
  - rewrite lookup_seq_lt by done. simpl. rewrite <- (Hg i Hi) at 1.
    apply writes_lookup; [|done|].
    + intros t1 t2 H1 H2. rewrite !Hg by done. done.
    + rewrite length_replicate, Hg by done. done.
  - rewrite lookup_seq_ge by lia. simpl. apply lookup_ge_None.
    rewrite length_writes, length_replicate. lia.
Qed.

(** X16.  The device path without [out=]: device arrays of one length
    [n], one of them at least of non-zero stride, with an elementwise
    kernel registered for their dtypes and a positive thread ceiling.  The
    call returns a new 1-D device array of that length and the result
    dtype; the store grows by exactly the buffer of the result, which
    holds the scalar function applied to the elements of the inputs, so
    no input is changed and nothing is copied to the host; one launch is
    made, with the length as trailing count.
    Counts are within the integers a double holds exactly: [n] and the
    thread ceiling are at most [2^53]. *)
Theorem device_call_elementwise (self : dispatcher V) (args : list ndarray)
    (rdt : np_dtype) (k : kernel V) (f : list V → V) (mt : Z) (n : nat)
    (s : state V) :
  Forall (λ a, resid a = Device ∧ valid s a ∧ shape a = [n]
               ∧ length (strides a) = 1) args →
  (∃ a, a ∈ args ∧ hd 0 (strides a) ≠ 0) →
  table_lookup (functions self) (map dtype args) = Some (rdt, k) →
  krun k = elementwise f →
  max_threads_of self k = Ok mt → (1 ≤ mt ≤ 2 ^ 53)%Z →
  (Z.of_nat n ≤ 2 ^ 53)%Z →
  let r := {| resid := Device; dtype := rdt; shape := [n]; strides := [1];
              base := length (heap s); offset := 0 |} in
  ∃ bc tc,
    CudaUFuncDispatcher.__call__ CudaUFuncDispatcher.cls self args
      (Kwargs None) s
    = (Ok r,
       {| heap := heap s
                  ++ [elementwise_result f (map (contents s) args) n];
          launches := launches s
                      ++ [Launch bc tc (args ++ [r]) (Some (Z.of_nat n))] |}).
Proof.
  intros Hargs (a1 & Ha1 & Hst1) Hlk Hk Hmt Hmt1 Hn53 r.
  assert (∃ a0 rest, args = a0 :: rest) as (a0 & rest & Hcons).
  { destruct args; [by apply elem_of_nil in Ha1|by eexists _, _]. }
  assert (shape a0 = [n] ∧ resid a0 = Device) as [Hs0 Hr0].
  { rewrite Hcons in Hargs.
    apply Forall_cons in Hargs as [(Hr & _ & Hs & _) _]. done. }
  rewrite call_device_unfold.
  2:{ rewrite Hcons. simpl. unfold is_cuda_ndarray. by rewrite Hr0. }
  unfold CudaUFuncDispatcher._get_function_by_dtype. rewrite Hlk.
  rewrite (bind_lift_ok _ _ _ _ eq_refl).
  rewrite (bind_lift_ok _ _ _ _ Hmt).
  unfold device_path.
  assert (Forall (λ a, shape a ≠ []) args) as Hne.
  { eapply Forall_impl; [exact Hargs|]. intros a (_ & _ & -> & _). done. }
  rewrite (bind_ok _ _ _ _ _ (scalar_promotion_id args s Hne)).
  cbn [m_arguments_requirement m_determine_element_count
       m_determine_output_shape CudaUFuncDispatcher.cls kw_out].
  assert (CudaUFuncDispatcher._arguments_requirement args = Ok ()) as Hreq.
  { apply arguments_requirement_iff.
    - eapply Forall_impl; [exact Hargs|].
      intros a (_ & _ & Hsa & Hl). unfold ndim. by rewrite Hsa.
    - split; [by exists a1|]. intros a b Ha Hb _ _.
      rewrite Forall_forall in Hargs.
      destruct (Hargs a Ha) as (_ & _ & -> & _).
      by destruct (Hargs b Hb) as (_ & _ & -> & _). }
  rewrite (bind_lift_ok _ _ _ _ Hreq).
  assert (Forall (λ a, resid a = Device) args) as Hdev.
  { eapply Forall_impl; [exact Hargs|]. by intros a (? & _). }
  rewrite (bind_ok _ _ _ _ _ (auto_device_id args s Hdev)).
  rewrite map_map. simpl. rewrite map_id.
  assert (CudaUFuncDispatcher._determine_element_count args
          = Ok (Z.of_nat n)) as Hec.
  { unfold CudaUFuncDispatcher._determine_element_count.
    rewrite Hcons. simpl. rewrite Hs0. simpl. by rewrite Nat.mul_1_r. }
  rewrite (bind_lift_ok _ _ _ _ Hec).
  destruct (threads_of_launch n mt Hmt1 Hn53) as (bc & tc & Hdim & HT).
  rewrite (bind_lift_ok _ _ _ _ Hdim).
  assert (CudaUFuncDispatcher._determine_output_shape self args = Ok [n])
    as Hos.
  { unfold CudaUFuncDispatcher._determine_output_shape.
    rewrite Hcons. simpl. by rewrite Hs0. }
  rewrite (bind_ok _ _ _ _ _
             (bind_lift_ok _ (λ sh, device_array sh rdt) s [n] Hos)).
  change (c_strides [n]) with [1]. fold r.
  replace (np_prod [n]) with n by (simpl; lia).
  set (s1 := {| heap := heap s ++ [replicate n elem_uninit];
                launches := launches s |}).
  assert (extends s s1) as He by (by eexists).
  assert (buffer s1 (base r) = replicate n elem_uninit) as Hb1.
  { unfold buffer, s1. simpl. rewrite lookup_app_r by done.
    by rewrite Nat.sub_diag. }
  rewrite (bind_ok _ _ _ _ _ (launch_kernel_snoc k bc tc args r _ s1)).
  exists bc, tc. unfold ret. f_equal. f_equal.
  rewrite Hk, elementwise_snoc, HT, Hb1. simpl.
  rewrite insert_app_r_alt by done. rewrite Nat.sub_diag. simpl. f_equal.
  f_equal. rewrite (writes_fresh _ _ n).
  2:{ intros t Ht. unfold thread_pos. simpl. lia. }
  unfold elementwise_result. apply map_ext_in. intros t Ht%in_seq.
  f_equal. rewrite !map_map. simpl. apply map_ext_in. intros a Ha.
  rewrite Forall_forall in Hargs.
  destruct (Hargs a ltac:(by apply list_elem_of_In)) as (_ & Hv & Hsa & _).
  rewrite (buffer_extends s s1) by done.
  symmetry. apply cell_contents_flat.
  - unfold ndim. by rewrite Hsa.
  - rewrite Hsa. simpl. lia.
Qed.

(** X17.  An array scalar after a device array is broadcast: the call on
    a device array of [n] elements and non-zero stride and a host array
    scalar returns a new device array of [n] elements, of the result dtype,
    whose element [i] is the scalar function applied to element [i] of the
    device array and the scalar converted to [float64]; the device array is
    not changed.
    Counts are within the integers a double holds exactly: [n] and the
    thread ceiling are at most [2^53]. *)
Theorem device_call_broadcasts_scalar (self : dispatcher V) (d x : ndarray)
    (rdt : np_dtype) (k : kernel V) (f : list V → V) (mt : Z) (n st : nat)
    (s : state V) :
  resid d = Device → valid s d → shape d = [n] → strides d = [st] → st ≠ 0 →
  resid x = Host → shape x = [] →
  table_lookup (functions self) [dtype d; dtype x] = Some (rdt, k) →
  krun k = elementwise f →
  max_threads_of self k = Ok mt → (1 ≤ mt ≤ 2 ^ 53)%Z →
  (Z.of_nat n ≤ 2 ^ 53)%Z →
  ∃ r s',
    CudaUFuncDispatcher.__call__ CudaUFuncDispatcher.cls self [d; x]
      (Kwargs None) s = (Ok r, s')
    ∧ resid r = Device ∧ dtype r = rdt ∧ shape r = [n]
    ∧ contents s' r
      = map (λ u, f [u; as_float64 (peek s (base x) (offset x))])
          (contents s d)
    ∧ contents s' d = contents s d.
Proof.
  intros Hrd Hvd Hsd Hstd Hst Hrx Hsx Hlk Hk Hmt Hmt1 Hn53.
  rewrite call_device_unfold.
  2:{ simpl. unfold is_cuda_ndarray. by rewrite Hrd. }
  unfold CudaUFuncDispatcher._get_function_by_dtype. simpl. rewrite Hlk.
  rewrite (bind_lift_ok _ _ _ _ eq_refl).
  rewrite (bind_lift_ok _ _ _ _ Hmt).
  unfold device_path.
  set (v := as_float64 (peek s (base x) (offset x))).
  set (x1 := {| resid := Host; dtype := float64; shape := [1]; strides := [0];
                base := length (heap s); offset := 0 |}).
  set (s1 := {| heap := heap s ++ [[v]]; launches := launches s |}).
  assert (mapM_ CudaUFuncDispatcher.scalar_to_zero_strided [d; x] s
          = (Ok [d; x1], s1)) as Hprom.
  { simpl. unfold CudaUFuncDispatcher.scalar_to_zero_strided.
    rewrite Hsd, Hsx. unfold getitem. rewrite Hsx. reflexivity. }
  rewrite (bind_ok _ _ _ _ _ Hprom).
  cbn [m_arguments_requirement m_determine_element_count
       m_determine_output_shape CudaUFuncDispatcher.cls kw_out].
  assert (CudaUFuncDispatcher._arguments_requirement [d; x1] = Ok ()) as Hreq.
  { unfold CudaUFuncDispatcher._arguments_requirement. simpl.
    unfold ndim, strides0, shape0. rewrite Hsd, Hstd. simpl.
    by rewrite decide_True. }
  rewrite (bind_lift_ok _ _ _ _ Hreq).
  set (x2 := {| resid := Device; dtype := float64; shape := [1];
                strides := [0]; base := S (length (heap s)); offset := 0 |}).
  set (s2 := {| heap := (heap s ++ [[v]]) ++ [[v]]; launches := launches s |}).
  assert (mapM_ _auto_device [d; x1] s1 = (Ok [(d, false); (x2, true)], s2))
    as Hauto.
  { simpl. unfold _auto_device at 1, is_cuda_ndarray. rewrite Hrd.
    rewrite (bind_ok (ret (d, false)) _ s1 s1 _ eq_refl).
    unfold _auto_device, to_device, alloc, bind, ret, buffer. simpl.
    rewrite lookup_app_r by done. rewrite Nat.sub_diag. simpl.
    unfold x2, s2. rewrite length_app. simpl.
    by rewrite Nat.add_1_r. }
  rewrite (bind_ok _ _ _ _ _ Hauto). simpl map.
  assert (CudaUFuncDispatcher._determine_element_count [d; x2]
          = Ok (Z.of_nat n)) as Hec.
  { unfold CudaUFuncDispatcher._determine_element_count. simpl.
    rewrite Hsd. simpl. by rewrite Nat.mul_1_r. }
  rewrite (bind_lift_ok _ _ _ _ Hec).
  destruct (threads_of_launch n mt Hmt1 Hn53) as (bc & tc & Hdim & HT).
  rewrite (bind_lift_ok _ _ _ _ Hdim).
  assert (CudaUFuncDispatcher._determine_output_shape self [d; x2] = Ok [n])
    as Hos.
  { unfold CudaUFuncDispatcher._determine_output_shape. simpl.
    by rewrite Hsd. }
  rewrite (bind_ok _ _ _ _ _
             (bind_lift_ok _ (λ sh, device_array sh rdt) s2 [n] Hos)).
  change (c_strides [n]) with [1].
  replace (np_prod [n]) with n by (simpl; lia).
  set (r := {| resid := Device; dtype := rdt; shape := [n]; strides := [1];
               base := length (heap s2); offset := 0 |}).
  set (s3 := {| heap := heap s2 ++ [replicate n elem_uninit];
                launches := launches s2 |}).
  change [d; x2; r] with ([d; x2] ++ [r]).
  rewrite (bind_ok _ _ _ _ _ (launch_kernel_snoc k bc tc [d; x2] r _ s3)).
  eexists r, _. split; [reflexivity|].
  split; [done|]. split; [done|]. split; [done|].
  assert (extends s s3) as He.
  { exists ([[v]] ++ [[v]] ++ [replicate n elem_uninit]).
    unfold s3, s2. simpl. by rewrite <- !app_assoc. }
  assert (base r ≠ base d) as Hne.
  { unfold valid in Hvd. simpl. rewrite !length_app. simpl. lia. }
  assert (base r < length (heap s3)) as Hlt.
  { unfold s3. simpl. rewrite !length_app. simpl. lia. }
  assert (contents s d = map (λ t, cell (buffer s (base d)) (thread_pos d t))
                            (seq 0 n)) as Hcd.
  { unfold contents. rewrite positions_flat by (unfold ndim; rewrite Hsd; done).
    rewrite Hsd. replace (np_prod [n]) with n by (simpl; lia).
    by rewrite <- list_fmap_compose. }
  assert (buffer s3 (base d) = buffer s (base d)) as Hbd
    by (by apply buffer_extends).
  split.
  - rewrite Hcd. unfold contents. rewrite positions_flat by done.
    change (shape r) with [n]. replace (np_prod [n]) with n by (simpl; lia).
    unfold peek. rewrite buffer_insert, decide_True by done.
    rewrite Hk, elementwise_snoc, HT.
    assert (buffer s3 (base r) = replicate n elem_uninit) as ->.
    { unfold buffer, s3. simpl heap. simpl base.
      rewrite lookup_app_r by done. by rewrite Nat.sub_diag. }
    rewrite (writes_fresh _ _ n).
    2:{ intros t Ht. unfold thread_pos. simpl. lia. }
    rewrite <- !list_fmap_compose.
    apply list_eq. intros i. rewrite !list_lookup_fmap.
    destruct (decide (i < n)) as [Hi|Hi].
    + rewrite lookup_seq_lt by done. simpl. f_equal.
      replace (thread_pos r i) with i by (unfold thread_pos; simpl; lia).
      unfold cell at 1.
      change (map ?h (seq 0 n)) with (h <$> seq 0 n).
      rewrite list_lookup_fmap, lookup_seq_lt by done. simpl.
      rewrite Hbd. do 2 f_equal.
      assert (buffer s3 (S (length (heap s))) = [v]) as ->.
      { unfold buffer, s3, s2. simpl heap. rewrite <- !app_assoc.
        rewrite lookup_app_r by lia.
        replace (S (length (heap s)) - length (heap s)) with 1 by lia.
        done. }
      unfold thread_pos. simpl. by rewrite Nat.mul_0_r.
    + by rewrite lookup_seq_ge by lia.
  - unfold contents, peek. rewrite buffer_insert, decide_False by tauto.
    by rewrite Hbd.
Qed.

(** ** The reduction for any binary operation *)

Lemma even_cost (n : nat) :
  n mod 2 = 0 → 2 ≤ n → 2 * Nat.log2 (n / 2) + 2 = 2 * Nat.log2 n.
Proof.
  intros Hm Hn. pose proof (Nat.div_mod n 2 ltac:(done)) as Hd.
  assert (n = 2 * (n / 2)) as Hn2 by lia.
  rewrite Hn2 at 2. rewrite Nat.log2_double by lia. lia.
Qed.

Section ReduceOrder.
Context (self : dispatcher V) (dt rdt : np_dtype) (k : kernel V)
  (f : list V → V) (mt : Z) (bb : nat).
Hypothesis Hlk : table_lookup (functions self) [dt; dt] = Some (rdt, k).
Hypothesis Hk : krun k = elementwise f.
Hypothesis Hmt : max_threads_of self k = Ok mt.
Hypothesis Hmt1 : (1 ≤ mt ≤ 2 ^ 53)%Z.

(** [__reduce] on the view of [n] cells at [o] of the buffer [bb]: it
    returns the one-cell view at [o], which then holds the halving fold
    of the cells; the cells outside the view and the other buffers are
    kept; between one and [2 * log2 n] launches are made. *)
Lemma reduce_rec_effects (fuel : nat) :
  ∀ n o gm s,
    2 ≤ n → n ≤ fuel → (Z.of_nat n ≤ 2 ^ 53)%Z →
    o + n ≤ length (buffer s bb) → bb < length (heap s) →
    ∃ gm' s',
      CudaUFuncDispatcher.__reduce fuel CudaUFuncDispatcher.cls self
        (dview dt bb o n) gm s
      = (Ok (dview dt bb o 1, gm'), s')
      ∧ length (heap s') = length (heap s)
      ∧ (∀ b', b' ≠ bb → buffer s' b' = buffer s b')
      ∧ length (buffer s' bb) = length (buffer s bb)
      ∧ (∀ p, p < o ∨ o + n ≤ p →
           cell (buffer s' bb) p = cell (buffer s bb) p)
      ∧ cell (buffer s' bb) o
        = halving_fold fuel (binary f) (map (cell (buffer s bb)) (seq o n))
      ∧ length (launches s) < length (launches s')
      ∧ length (launches s') + (if decide (n mod 2 = 0) then 1 else 0)
        ≤ length (launches s) + 2 * Nat.log2 n.
Proof.
  induction fuel as [|fuel IH]; intros n o gm s Hn Hf Hn53 Hb Hbb; [lia|].
  rewrite reduce_unfold. rewrite (bind_lift_ok _ _ _ n eq_refl).
  cbn [halving_fold]. rewrite length_map, length_seq.
  change (map ?g ?l) with (g <$> l).
  destruct (decide (n mod 2 ≠ 0)) as [Hodd|Heven].
  - (* odd *)
    rewrite split_dview. replace (n - (n - 1)) with 1 by lia.
    assert (n ≠ 2) by (intros ->; by apply Hodd).
    destruct (IH (n - 1) o (gm ++ [dview dt bb o (n - 1);
                                   dview dt bb (o + (n - 1)) 1]) s)
      as (gm1 & s1 & Hr & Hh1 & Ho1 & Hl1 & Hf1 & Hv1 & Hla1 & Hlb1);
      try lia.
    rewrite (bind_ok _ _ _ _ _ Hr).
    destruct (device_call_in_place self dt rdt k f mt bb o (o + (n - 1)) 1 s1
                Hlk Hk Hmt Hmt1 ltac:(lia)) as (l & Hcall).
    rewrite (bind_ok _ _ _ _ _ Hcall).
    eexists _, _. split; [reflexivity|].
    destruct (in_place_store s1 bb o (o + (n - 1)) 1 f (launches s1 ++ [l]))
      as (Hh2 & Ho2 & Hl2 & Hf2 & Hv2); [lia|lia|].
    split; [lia|]. split; [intros b' Hne; by rewrite Ho2, Ho1|].
    split; [lia|]. split.
    { intros p Hp. rewrite Hf2 by lia. apply Hf1. lia. }
    split.
    { specialize (Hv2 0 ltac:(lia)). rewrite !Nat.add_0_r in Hv2.
      rewrite Hv2, Hv1. rewrite (Hf1 (o + (n - 1))) by lia.
      rewrite <- fmap_take, take_seq.
      replace ((n - 1) `min` n) with (n - 1) by lia.
      f_equal. unfold cell at 2.
      rewrite list_lookup_fmap, lookup_seq_lt by lia. done. }
    simpl. rewrite length_app. simpl.
    split; [lia|].
    assert ((n - 1) mod 2 = 0) as Hev.
    { pose proof (Nat.div_mod n 2 ltac:(done)) as Hd.
      pose proof (Nat.mod_upper_bound n 2 ltac:(done)) as Hu.
      assert (n - 1 = 2 * (n / 2)) as -> by lia.
      by rewrite Nat.mul_comm, Nat.Div0.mod_mul. }
    rewrite decide_True in Hlb1 by done.
    rewrite decide_False by done.
    pose proof (Nat.log2_le_mono (n - 1) n ltac:(lia)). lia.
  - (* even *)
    assert (n mod 2 = 0) as Hmod.
    { destruct (decide (n mod 2 = 0)); [done|]. by destruct Heven. }
    rewrite (decide_True (P := n mod 2 = 0)) by done.
    set (h := n / 2).
    assert (n = h + h) as Hnh.
    { pose proof (Nat.div_mod n 2 ltac:(done)). unfold h. lia. }
    pose proof (even_cost n Hmod Hn) as Hcost. fold h in Hcost.
    rewrite split_dview. replace (n - h) with h by lia.
    destruct (device_call_in_place self dt rdt k f mt bb o (o + h) h s
                Hlk Hk Hmt Hmt1 ltac:(lia)) as (l & Hcall).
    rewrite (bind_ok _ _ _ _ _ Hcall).
    destruct (in_place_store s bb o (o + h) h f (launches s ++ [l]))
      as (Hh1 & Ho1 & Hl1 & Hf1 & Hv1); [lia|lia|].
    set (s1 := {| heap := _; launches := _ |}) in *.
    assert (cell (buffer s1 bb) <$> seq o h
            = zip_with (binary f)
                (take h (cell (buffer s bb) <$> seq o n))
                (drop h (cell (buffer s bb) <$> seq o n))) as Hz.
    { rewrite <- fmap_take, <- fmap_drop, take_seq, drop_seq.
      replace (h `min` n) with h by lia. replace (n - h) with h by lia.
      by apply cells_zip. }
    rewrite <- Hz.
    destruct (decide (1 < h)) as [Hh|Hh].
    + destruct (IH h o (gm ++ [dview dt bb o h; dview dt bb (o + h) h]) s1)
        as (gm2 & s2 & Hr & Hh2 & Ho2 & Hl2 & Hf2 & Hv2 & Hla2 & Hlb2);
        try lia.
      exists gm2, s2. split; [exact Hr|].
      split; [lia|]. split; [intros b' Hne; by rewrite Ho2, Ho1|].
      split; [lia|]. split.
      { intros p Hp. rewrite Hf2 by lia. apply Hf1. lia. }
      split; [exact Hv2|].
      unfold s1 in Hla2, Hlb2. simpl in Hla2, Hlb2.
      rewrite length_app in Hla2, Hlb2. simpl in Hla2, Hlb2.
      destruct (decide (h mod 2 = 0)); lia.
    + assert (h = 1) as Hh1' by lia.
      eexists _, s1. split; [by rewrite Hh1'|].
      split; [done|]. split; [done|]. split; [done|]. split.
      { intros p Hp. apply Hf1. lia. }
      split.
      { rewrite Hh1'. simpl. done. }
      unfold s1. simpl. rewrite length_app. simpl. lia.
Qed.
End ReduceOrder.

(** The end of [reduce] only adds the one-element host buffer. *)
Lemma reduce_fetch_effects (dt dt' : np_dtype) (bb o : nat) (s : state V) :
  bb < length (heap s) →
  ∃ s',
    (do buf <- np_array_one dt';
     do _ <- copy_to_host (dview dt bb o 1) (Some buf);
     getitem buf [0]) s
    = (Ok (cell (buffer s bb) o), s')
    ∧ launches s' = launches s
    ∧ ∀ b, b < length (heap s) → buffer s' b = buffer s b.
Proof.
  intros Hbb. unfold np_array_one.
  destruct (alloc_spec [elem_one] s) as (s1 & Ha & He & Hlen & Hb & Hl).
  rewrite (bind_ok _ _ _ _ _ (bind_ok _ _ _ _ _ Ha)).
  rewrite (bind_ok _ _ _ _ _ (copy_to_host_some _ _ _)).
  eexists. split; [|split].
  - unfold getitem. simpl. f_equal. f_equal.
    unfold peek. rewrite buffer_insert, decide_True by (split; [done|lia]).
    rewrite Hb. unfold contents, peek. simpl.
    rewrite (buffer_extends s s1) by done.
    rewrite Nat.add_0_r. done.
  - done.
  - intros b Hlt. simpl base. rewrite buffer_insert.
    rewrite decide_False by lia. by apply buffer_extends.
Qed.

(** What [reduce] does on an array of at least two elements, for any
    binary operation. *)
Lemma reduce_outcome (self : dispatcher V) (arg : ndarray)
    (entry : list np_dtype * (np_dtype * kernel V)) (rdt : np_dtype)
    (k : kernel V) (f : list V → V) (mt : Z) (n : nat) (s : state V) :
  first (functions self) = Ok entry → length entry.1 = 2 →
  table_lookup (functions self) [dtype arg; dtype arg] = Some (rdt, k) →
  krun k = elementwise f →
  max_threads_of self k = Ok mt → (1 ≤ mt ≤ 2 ^ 53)%Z →
  valid s arg → shape arg = [n] → strides arg = [1] →
  offset arg + n ≤ length (buffer s (base arg)) → 2 ≤ n →
  (Z.of_nat n ≤ 2 ^ 53)%Z →
  ∃ s',
    CudaUFuncDispatcher.reduce CudaUFuncDispatcher.cls self arg s
    = (Ok (halving_fold n (binary f) (contents s arg)), s')
    ∧ length (launches s) < length (launches s')
    ∧ length (launches s') ≤ length (launches s) + 2 * Nat.log2 n
    ∧ (∀ b, b < length (heap s) → b ≠ base arg →
         buffer s' b = buffer s b)
    ∧ (resid arg = Host → buffer s' (base arg) = buffer s (base arg))
    ∧ (resid arg = Device →
       length (buffer s' (base arg)) = length (buffer s (base arg))
       ∧ cell (buffer s' (base arg)) (offset arg)
         = halving_fold n (binary f) (contents s arg)
       ∧ ∀ p, p < offset arg ∨ offset arg + n ≤ p →
           cell (buffer s' (base arg)) p = cell (buffer s (base arg)) p).
Proof.
  intros Hfirst Hbin Hlk Hk Hmt Hmt1 Hv Hsh Hst Hb Hn Hn53.
  unfold CudaUFuncDispatcher.reduce.
  rewrite (bind_lift_ok _ _ _ _ Hfirst).
  rewrite decide_False by (intros Hne; by apply Hne).
  unfold ndim, shape0. rewrite Hsh. simpl.
  rewrite (bind_lift_ok _ _ _ _ eq_refl).
  assert (contents s arg
          = map (cell (buffer s (base arg))) (seq (offset arg) n)) as Hc.
  { pose proof (fmap_add_seq (offset arg) 0 n) as Hseq.
    rewrite Nat.add_0_r in Hseq. rewrite <- Hseq.
    unfold contents. rewrite positions_flat by (unfold ndim; rewrite Hsh; done).
    rewrite Hsh. simpl. rewrite Nat.mul_1_r. f_equal.
    apply map_ext. intros t. unfold thread_pos. rewrite Hst. simpl. lia. }
  rewrite !decide_False by lia.
  rewrite Hc.
  assert (base arg < length (heap s)) as Hva by (unfold valid in Hv; lia).
  destruct (resid arg) eqn:Hr; unfold is_cuda_ndarray; rewrite Hr.
  - (* a host array is staged *)
    destruct (to_device_spec arg s) as (s0 & Ht & He & Hlen & Hb0 & Hl0).
    rewrite (bind_ok _ _ _ _ _ Ht). rewrite Hsh, Hst.
    destruct (reduce_rec_effects self (dtype arg) rdt k f mt (length (heap s))
                Hlk Hk Hmt Hmt1 n n (offset arg) [] s0)
      as (gm & s1 & Hred & Hh1 & Ho1 & Hl1 & Hf1 & Hv1 & Hla & Hlb);
      try lia.
    { by rewrite Hb0. }
    unfold dview in Hred. rewrite (bind_ok _ _ _ _ _ Hred).
    destruct (reduce_fetch_effects (dtype arg) (dtype arg) (length (heap s))
                (offset arg) s1) as (s2 & Hfetch & Hl2 & Hb2); [lia|].
    exists s2. unfold dview in Hfetch. rewrite Hfetch.
    split; [by rewrite Hv1, Hb0|].
    rewrite Hl2, <- Hl0.
    split; [done|].
    split; [destruct (decide (n mod 2 = 0)); lia|].
    assert (∀ b, b < length (heap s) → buffer s2 b = buffer s b) as Hkeep.
    { intros b Hlt. rewrite Hb2 by lia. rewrite Ho1 by lia.
      by apply buffer_extends. }
    split; [intros b Hlt _; by apply Hkeep|].
    split; [intros _; by apply Hkeep|done].
  - (* a device array is reduced in place *)
    rewrite (bind_ok (ret arg) _ s s arg eq_refl).
    assert (arg = dview (dtype arg) (base arg) (offset arg) n) as Harg.
    { destruct arg. simpl in *. unfold dview. by subst. }
    destruct (reduce_rec_effects self (dtype arg) rdt k f mt (base arg)
                Hlk Hk Hmt Hmt1 n n (offset arg) [] s)
      as (gm & s1 & Hred & Hh1 & Ho1 & Hl1 & Hf1 & Hv1 & Hla & Hlb);
      try lia.
    rewrite <- Harg in Hred.
    rewrite (bind_ok _ _ _ _ _ Hred).
    destruct (reduce_fetch_effects (dtype arg) (dtype arg) (base arg)
                (offset arg) s1) as (s2 & Hfetch & Hl2 & Hb2); [lia|].
    exists s2. rewrite Hfetch.
    split; [by rewrite Hv1|].
    rewrite Hl2.
    split; [done|].
    split; [destruct (decide (n mod 2 = 0)); lia|].
    split; [intros b Hlt Hne; rewrite Hb2 by lia; by apply Ho1|].
    split; [done|]. intros _.
    rewrite Hb2 by lia.
    split; [done|]. split; [done|]. exact Hf1.
Qed.

(** X18.  The reduction for any binary operation: on a 1-D array of unit
    stride with at least two elements, [reduce] returns the halving fold
    of the elements, which is the order in which [__reduce] combines
    them, and makes at least one and at most [2 * log2 n] launches.
    Counts are within the integers a double holds exactly: the array has at
    most [2^53] elements and the thread ceiling is at most [2^53]. *)
Theorem reduce_is_halving_fold (self : dispatcher V) (arg : ndarray)
    (entry : list np_dtype * (np_dtype * kernel V)) (rdt : np_dtype)
    (k : kernel V) (f : list V → V) (mt : Z) (n : nat) (s : state V) :
  first (functions self) = Ok entry → length entry.1 = 2 →
  table_lookup (functions self) [dtype arg; dtype arg] = Some (rdt, k) →
  krun k = elementwise f →
  max_threads_of self k = Ok mt → (1 ≤ mt ≤ 2 ^ 53)%Z →
  valid s arg → shape arg = [n] → strides arg = [1] →
  offset arg + n ≤ length (buffer s (base arg)) → 2 ≤ n →
  (Z.of_nat n ≤ 2 ^ 53)%Z →
  ∃ s',
    CudaUFuncDispatcher.reduce CudaUFuncDispatcher.cls self arg s
    = (Ok (halving_fold n (binary f) (contents s arg)), s')
    ∧ length (launches s) < length (launches s')
    ∧ length (launches s') ≤ length (launches s) + 2 * Nat.log2 n.
Proof.
  intros Hfirst Hbin Hlk Hk Hmt Hmt1 Hv Hsh Hst Hb Hn Hn53.
  destruct (reduce_outcome self arg entry rdt k f mt n s)
    as (s' & Hred & Hl1 & Hl2 & _); try done.
  by exists s'.
Qed.

(** X19.  What the reduction leaves in the store: every buffer that
    existed before the call and is not the buffer of the argument is
    kept; the buffer of a host argument is kept as well; a device
    argument is reduced in place: after the call its first element holds
    the returned value, while the cells of its buffer outside the array
    are kept.
    Counts are within the integers a double holds exactly: the array has at
    most [2^53] elements and the thread ceiling is at most [2^53]. *)
Theorem reduce_overwrites_device_argument (self : dispatcher V)
    (arg : ndarray) (entry : list np_dtype * (np_dtype * kernel V))
    (rdt : np_dtype) (k : kernel V) (f : list V → V) (mt : Z) (n : nat)
    (s : state V) :
  first (functions self) = Ok entry → length entry.1 = 2 →
  table_lookup (functions self) [dtype arg; dtype arg] = Some (rdt, k) →
  krun k = elementwise f →
  max_threads_of self k = Ok mt → (1 ≤ mt ≤ 2 ^ 53)%Z →
  valid s arg → shape arg = [n] → strides arg = [1] →
  offset arg + n ≤ length (buffer s (base arg)) → 2 ≤ n →
  (Z.of_nat n ≤ 2 ^ 53)%Z →
  ∃ x s',
    CudaUFuncDispatcher.reduce CudaUFuncDispatcher.cls self arg s
    = (Ok x, s')
    ∧ (∀ b, b < length (heap s) → b ≠ base arg → buffer s' b = buffer s b)
    ∧ (resid arg = Host → contents s' arg = contents s arg)
    ∧ (resid arg = Device →
       cell (contents s' arg) 0 = x
       ∧ ∀ p, p < offset arg ∨ offset arg + n ≤ p →
           peek s' (base arg) p = peek s (base arg) p).
Proof.
  intros Hfirst Hbin Hlk Hk Hmt Hmt1 Hv Hsh Hst Hb Hn Hn53.
  destruct (reduce_outcome self arg entry rdt k f mt n s)
    as (s' & Hred & _ & _ & Hother & Hhost & Hdev); try done.
  eexists _, s'. split; [exact Hred|]. split; [exact Hother|].
  split.
  - intros Hr. unfold contents, peek. by rewrite Hhost.
  - intros Hr. destruct (Hdev Hr) as (Hlen & Hx & Hframe).
    split; [|exact Hframe].
    rewrite <- Hx. unfold contents, peek. rewrite Hsh, Hst.
    destruct n as [|n']; [lia|]. simpl. unfold cell at 1. simpl.
    by rewrite Nat.add_0_r.
Qed.

(** ** The generalized dispatcher as it is constructed *)

Lemma bind_Ok_inv {A B} (m : M V A) (g : A → M V B) (s s' : state V) (b : B) :
  bind m g s = (Ok b, s') →
  ∃ a s1, m s = (Ok a, s1) ∧ g a s1 = (Ok b, s').
Proof.
  unfold bind. destruct (m s) as [[a|e] s1]; [|done].
  intros Hg. by exists a, s1.
Qed.

(** Both paths of the inherited [__call__] ask for the output shape when
    no [out=] is given, and a dispatcher without [input_symbols] has
    none. *)
Lemma gufunc_call_never_returns
    (types_to_retty_kernel : list (list np_dtype * (np_dtype * kernel V)))
    (signature : list (list string) * list string)
    (args : list ndarray) (s s' : state V) (r : ndarray) :
  CudaGUFuncDispatcher.__call__
    (CudaGUFuncDispatcher.__init__ types_to_retty_kernel signature)
    args (Kwargs None) s
  ≠ (Ok r, s').
Proof.
  intros H. unfold CudaGUFuncDispatcher.__call__,
    CudaUFuncDispatcher.__call__ in H.
  apply bind_Ok_inv in H as ([rdt k] & s1 & _ & H).
  apply bind_Ok_inv in H as (mt & s2 & _ & H).
  destruct (existsb is_cuda_ndarray args).
  - apply bind_Ok_inv in H as (args1 & s3 & _ & H).
    apply bind_Ok_inv in H as (? & s4 & _ & H).
    apply bind_Ok_inv in H as (conv & s5 & _ & H).
    apply bind_Ok_inv in H as (ec & s6 & _ & H).
    apply bind_Ok_inv in H as ([nctaid ntid] & s7 & _ & H).
    apply bind_Ok_inv in H as (dout & s8 & H & _).
    cbn [kw_out] in H.
    apply bind_Ok_inv in H as (sh & s9 & H & _).
    done.
  - apply bind_Ok_inv in H as (bs & s3 & _ & H).
    apply bind_Ok_inv in H as (ec & s4 & _ & H).
    apply bind_Ok_inv in H as (out & s5 & H & _).
    cbn [kw_out m_allocate_output CudaGUFuncDispatcher.cls] in H.
    unfold CudaGUFuncDispatcher._allocate_output in H.
    apply bind_Ok_inv in H as (sh & s6 & H & _).
    done.
Qed.

(** Computations without launches compose. *)
Lemma quiet_ret {A} (a : A) : quiet (V := V) (ret a).
Proof. done. Qed.

Lemma quiet_raise {A} (e : pyerr) : quiet (V := V) (A := A) (raise e).
Proof. done. Qed.

Lemma quiet_lift {A} (r : res A) : quiet (V := V) (lift r).
Proof. done. Qed.

Lemma quiet_bind {A B} (m : M V A) (g : A → M V B) :
  quiet m → (∀ a, quiet (g a)) → quiet (bind m g).
Proof.
  intros Hm Hg s. unfold bind. specialize (Hm s).
  destruct (m s) as [[a|e] s1]; simpl in *; [|done].
  by rewrite Hg.
Qed.

Lemma quiet_bind_fail {A B} (m : M V A) (g : A → M V B) :
  quiet m → (∀ s a s', m s ≠ (Ok a, s')) → quiet (bind m g).
Proof.
  intros Hm Hf s. unfold bind. specialize (Hm s). specialize (Hf s).
  destruct (m s) as [[a|e] s1]; simpl in *; [|done].
  by destruct (Hf a s1).
Qed.

Lemma quiet_mapM {A B} (g : A → M V B) (l : list A) :
  (∀ a, quiet (g a)) → quiet (mapM_ g l).
Proof.
  intros Hg. induction l as [|a l IH]; [done|]. simpl.
  apply quiet_bind; [done|]. intros b.
  apply quiet_bind; [done|]. intros bs. done.
Qed.

Lemma quiet_host_copy (a : ndarray) (sh : list nat) : quiet (V := V) (host_copy a sh).
Proof. done. Qed.

Lemma quiet_ascontiguousarray (a : ndarray) : quiet (V := V) (np_ascontiguousarray a).
Proof.
  unfold np_ascontiguousarray. destruct (shape a); [done|].
  by destruct (is_c_contiguous a).
Qed.

Lemma quiet_auto_device (a : ndarray) : quiet (V := V) (_auto_device a).
Proof. unfold _auto_device. by destruct (is_cuda_ndarray a). Qed.

Lemma quiet_scalar_to_zero_strided (a : ndarray) :
  quiet (V := V) (CudaUFuncDispatcher.scalar_to_zero_strided a).
Proof.
  unfold CudaUFuncDispatcher.scalar_to_zero_strided.
  destruct (shape a) eqn:Hs; [|done].
  intros s. unfold bind, getitem. rewrite Hs. done.
Qed.

(** X20.  [CudaGUFuncDispatcher.__init__] stores the signature as
    [inputsig] and [outputsig] and sets no [input_symbols], which
    [_determine_output_shape] reads.  So a call without [out=] of a
    dispatcher as constructed raises an exception, whatever the
    arguments are, and no launch is made. *)
Theorem gufunc_call_needs_out
    (types_to_retty_kernel : list (list np_dtype * (np_dtype * kernel V)))
    (signature : list (list string) * list string)
    (args : list ndarray) (s : state V) :
  ∃ e s',
    CudaGUFuncDispatcher.__call__
      (CudaGUFuncDispatcher.__init__ types_to_retty_kernel signature)
      args (Kwargs None) s
    = (Raise e, s')
    ∧ launches s' = launches s.
Proof.
  set (self := CudaGUFuncDispatcher.__init__ types_to_retty_kernel signature).
  assert (quiet (CudaGUFuncDispatcher.__call__ self args (Kwargs None)))
    as Hq.
  { unfold CudaGUFuncDispatcher.__call__, CudaUFuncDispatcher.__call__.
    apply quiet_bind; [apply quiet_lift|]. intros [rdt k].
    apply quiet_bind; [apply quiet_lift|]. intros mt.
    destruct (existsb is_cuda_ndarray args).
    - apply quiet_bind;
        [apply quiet_mapM, quiet_scalar_to_zero_strided|]. intros args1.
      apply quiet_bind; [apply quiet_lift|]. intros _.
      apply quiet_bind; [apply quiet_mapM, quiet_auto_device|]. intros conv.
      apply quiet_bind; [apply quiet_lift|]. intros ec.
      apply quiet_bind; [apply quiet_lift|]. intros [nctaid ntid].
      apply quiet_bind_fail.
      + cbn [kw_out]. apply quiet_bind_fail; [apply quiet_lift|done].
      + intros s0 a s1 H. cbn [kw_out] in H.
        by apply bind_Ok_inv in H as (sh & s2 & H & _).
    - apply quiet_bind;
        [apply quiet_mapM, quiet_ascontiguousarray|]. intros bs.
      apply quiet_bind; [apply quiet_lift|]. intros ec.
      apply quiet_bind_fail.
      + cbn [kw_out m_allocate_output CudaGUFuncDispatcher.cls].
        apply quiet_bind_fail; [apply quiet_lift|done].
      + intros s0 a s1 H.
        cbn [kw_out m_allocate_output CudaGUFuncDispatcher.cls] in H.
        by apply bind_Ok_inv in H as (sh & s2 & H & _). }
  specialize (Hq s).
  destruct (CudaGUFuncDispatcher.__call__ self args (Kwargs None) s)
    as [[r|e] s'] eqn:Hc.
  - by apply gufunc_call_never_returns in Hc.
  - by exists e, s'.
Qed.

(** ** The output check of the generalized ufunc object *)

Lemma residency_flags (args : list ndarray) (r : residency) :
  args ≠ [] → Forall (λ a, resid a = r) args →
  existsb id (map is_cuda_ndarray args)
  = match r with Device => true | Host => false end
  ∧ forallb id (map is_cuda_ndarray args)
    = match r with Device => true | Host => false end.
Proof.
  intros Hne Hall.
  assert (map is_cuda_ndarray args
          = map (λ _, match r with Device => true | Host => false end) args)
    as ->.
  { clear Hne. induction Hall as [|a l Ha _ IH]; [done|]. simpl.
    f_equal; [unfold is_cuda_ndarray; by rewrite Ha|exact IH]. }
  destruct args as [|a args]; [done|]. clear Hne Hall.
  destruct r; simpl; split; try done.
  - induction args as [|b l IH]; simpl; done.
  - induction args as [|b l IH]; simpl; done.
Qed.

Lemma np_array_all (args : list ndarray) (s : state V) :
  ∃ inputs s',
    mapM_ np_array args s = (Ok inputs, s')
    ∧ extends s s' ∧ launches s' = launches s
    ∧ map shape inputs = map shape args
    ∧ map dtype inputs = map dtype args.
Proof.
  destruct (mapM_spec np_array (λ _ _, True)
              (λ _ a b, shape b = shape a ∧ dtype b = dtype a) args s)
    as (bs & s' & Hm & He & Hl & Hq); try done.
  - intros s0 a _ _. unfold np_array.
    destruct (host_copy_spec a (shape a) s0 eq_refl)
      as (s1 & Hc & He & _ & _ & Hl).
    eexists _, s1. by rewrite Hc.
  - by apply Forall_forall.
  - exists bs, s'. repeat split; try done.
    + clear Hm. induction Hq as [|a b l l' [Hs _] _ IH]; [done|].
      simpl. by rewrite Hs, IH.
    + clear Hm. induction Hq as [|a b l l' [_ Hd] _ IH]; [done|].
      simpl. by rewrite Hd, IH.
Qed.

(** X21.  The output check of the generalized ufunc object: when the
    arguments are all device arrays or all host arrays, the engine gives a
    schedule and the table a kernel, and the array given as [out=] has not
    the first output shape of the schedule, the call raises the
    [ValueError] for an output shape mismatch.  No launch is made and the
    store of before is kept; for device arguments the store is not touched
    at all. *)
Theorem generalized_call_output_shape_mismatch (self : CUDAGenerializedUFunc.t)
    (args : list ndarray) (o : ndarray) (r : residency) (sch : schedule_t)
    (rdt : np_dtype) (k : kernel V) (osh : list nat) (s : state V) :
  args ≠ [] → Forall (λ a, resid a = r) args →
  schedule (CUDAGenerializedUFunc.engine self) (map shape args) = Ok sch →
  table_lookup (CUDAGenerializedUFunc.kernelmap self) (map dtype args)
  = Some (rdt, k) →
  first (output_shapes sch) = Ok osh → osh ≠ shape o →
  ∃ s',
    CUDAGenerializedUFunc.__call__ self args (Kwargs (Some o)) s
    = (Raise (ValueError "output shape mismatch"), s')
    ∧ launches s' = launches s ∧ extends s s'
    ∧ (r = Device → s' = s).
Proof.
  intros Hne Hall Hsch Hlk Hosh Hmis.
  unfold CUDAGenerializedUFunc.__call__.
  destruct (residency_flags args r Hne Hall) as [-> ->].
  destruct r; cbn [eqb negb].
  - destruct (np_array_all args s) as (inputs & s1 & Hm & He & Hl & Hs & Hd).
    rewrite (bind_ok _ _ _ _ _ Hm). rewrite Hs, Hd.
    rewrite (bind_lift_ok _ _ _ _ Hsch). rewrite Hlk.
    rewrite (bind_lift_ok _ _ _ _ eq_refl).
    cbn [kw_out]. rewrite Hosh. simpl res_bind.
    rewrite decide_True by done.
    exists s1. by repeat split.
  - rewrite (bind_ok (ret args) _ s s args eq_refl).
    rewrite (bind_lift_ok _ _ _ _ Hsch). rewrite Hlk.
    rewrite (bind_lift_ok _ _ _ _ eq_refl).
    cbn [kw_out]. rewrite Hosh. simpl res_bind.
    rewrite decide_True by done.
    exists s. by repeat split.
Qed.

(** ** The device path with [out=] *)

(** Device arrays of one length pass the checks of the device path
    untouched; what is left of the call is the test of [out=] and the
    launch. *)
Lemma device_call_out_unfold (self : dispatcher V) (args : list ndarray)
    (o : ndarray) (rdt : np_dtype) (k : kernel V) (mt : Z) (n : nat)
    (s : state V) :
  Forall (λ a, resid a = Device ∧ valid s a ∧ shape a = [n]
               ∧ length (strides a) = 1) args →
  (∃ a, a ∈ args ∧ hd 0 (strides a) ≠ 0) →
  table_lookup (functions self) (map dtype args) = Some (rdt, k) →
  max_threads_of self k = Ok mt → (1 ≤ mt ≤ 2 ^ 53)%Z →
  (Z.of_nat n ≤ 2 ^ 53)%Z →
  ∃ bc tc,
    Z.to_nat (Z.min (bc * tc) (Z.of_nat n)) = n
    ∧ CudaUFuncDispatcher.__call__ CudaUFuncDispatcher.cls self args
        (Kwargs (Some o)) s
      = (do device_out <-
           (if is_cuda_ndarray o then ret o
            else raise (TypeError "output array must be a device array"));
         do _ <- launch_kernel k bc tc (args ++ [device_out])
                   (Some (Z.of_nat n));
         ret device_out) s.
Proof.
  intros Hargs (a1 & Ha1 & Hst1) Hlk Hmt Hmt1 Hn53.
  assert (∃ a0 rest, args = a0 :: rest) as (a0 & rest & Hcons).
  { destruct args; [by apply elem_of_nil in Ha1|by eexists _, _]. }
  assert (shape a0 = [n] ∧ resid a0 = Device) as [Hs0 Hr0].
  { rewrite Hcons in Hargs.
    apply Forall_cons in Hargs as [(Hr & _ & Hs & _) _]. done. }
  rewrite call_device_unfold.
  2:{ rewrite Hcons. simpl. unfold is_cuda_ndarray. by rewrite Hr0. }
  unfold CudaUFuncDispatcher._get_function_by_dtype. rewrite Hlk.
  rewrite (bind_lift_ok _ _ _ _ eq_refl).
  rewrite (bind_lift_ok _ _ _ _ Hmt).
  unfold device_path.
  assert (Forall (λ a, shape a ≠ []) args) as Hne.
  { eapply Forall_impl; [exact Hargs|]. intros a (_ & _ & -> & _). done. }
  rewrite (bind_ok _ _ _ _ _ (scalar_promotion_id args s Hne)).
  cbn [m_arguments_requirement m_determine_element_count
       m_determine_output_shape CudaUFuncDispatcher.cls kw_out].
  assert (CudaUFuncDispatcher._arguments_requirement args = Ok ()) as Hreq.
  { apply arguments_requirement_iff.
    - eapply Forall_impl; [exact Hargs|].
      intros a (_ & _ & Hsa & Hl). unfold ndim. by rewrite Hsa.
    - split; [by exists a1|]. intros a b Ha Hb _ _.
      rewrite Forall_forall in Hargs.
      destruct (Hargs a Ha) as (_ & _ & -> & _).
      by destruct (Hargs b Hb) as (_ & _ & -> & _). }
  rewrite (bind_lift_ok _ _ _ _ Hreq).
  assert (Forall (λ a, resid a = Device) args) as Hdev.
  { eapply Forall_impl; [exact Hargs|]. by intros a (? & _). }
  rewrite (bind_ok _ _ _ _ _ (auto_device_id args s Hdev)).
  rewrite map_map. simpl. rewrite map_id.
  assert (CudaUFuncDispatcher._determine_element_count args
          = Ok (Z.of_nat n)) as Hec.
  { unfold CudaUFuncDispatcher._determine_element_count.
    rewrite Hcons. simpl. rewrite Hs0. simpl. by rewrite Nat.mul_1_r. }
  rewrite (bind_lift_ok _ _ _ _ Hec).
  destruct (threads_of_launch n mt Hmt1 Hn53) as (bc & tc & Hdim & HT).
  rewrite (bind_lift_ok _ _ _ _ Hdim).
  by exists bc, tc.
Qed.

(** X22.  On the device path a host array as [out=] is refused: for
    device arrays of one length that pass the checks of the arguments, the
    call raises the [TypeError] for the output array, makes no launch and
    leaves the store as it was.
    Counts are within the integers a double holds exactly: the length and
    the thread ceiling are at most [2^53]. *)
Theorem device_call_host_out (self : dispatcher V) (args : list ndarray)
    (o : ndarray) (rdt : np_dtype) (k : kernel V) (mt : Z) (n : nat)
    (s : state V) :
  Forall (λ a, resid a = Device ∧ valid s a ∧ shape a = [n]
               ∧ length (strides a) = 1) args →
  (∃ a, a ∈ args ∧ hd 0 (strides a) ≠ 0) →
  table_lookup (functions self) (map dtype args) = Some (rdt, k) →
  max_threads_of self k = Ok mt → (1 ≤ mt ≤ 2 ^ 53)%Z →
  (Z.of_nat n ≤ 2 ^ 53)%Z →
  resid o = Host →
  CudaUFuncDispatcher.__call__ CudaUFuncDispatcher.cls self args
    (Kwargs (Some o)) s
  = (Raise (TypeError "output array must be a device array"), s).
Proof.
  intros Hargs Hst Hlk Hmt Hmt1 Hn53 Ho.
  destruct (device_call_out_unfold self args o rdt k mt n s)
    as (bc & tc & _ & ->); try done.
  unfold is_cuda_ndarray. by rewrite Ho.
Qed.

(** X23.  On the device path a device array given as [out=] is written
    in place and is itself returned; neither its shape nor its dtype is
    checked.  For device arrays of one length [n] that pass the checks of
    the arguments and an output of non-zero stride whose first [n] cells
    lie within its buffer: cell [t] of the output holds the scalar
    function of the elements [t] of the inputs as they were before the
    call, for every [t] below [n]; every other cell of that buffer and
    every other buffer is kept; one launch is made.
    Counts are within the integers a double holds exactly: [n] and the
    thread ceiling are at most [2^53]. *)
Theorem device_call_out_in_place (self : dispatcher V) (args : list ndarray)
    (o : ndarray) (rdt : np_dtype) (k : kernel V) (f : list V → V) (mt : Z)
    (n : nat) (s : state V) :
  Forall (λ a, resid a = Device ∧ valid s a ∧ shape a = [n]
               ∧ length (strides a) = 1) args →
  (∃ a, a ∈ args ∧ hd 0 (strides a) ≠ 0) →
  table_lookup (functions self) (map dtype args) = Some (rdt, k) →
  krun k = elementwise f →
  max_threads_of self k = Ok mt → (1 ≤ mt ≤ 2 ^ 53)%Z →
  (Z.of_nat n ≤ 2 ^ 53)%Z →
  resid o = Device → valid s o → hd 0 (strides o) ≠ 0 →
  (∀ t, t < n → thread_pos o t < length (buffer s (base o))) →
  ∃ s',
    CudaUFuncDispatcher.__call__ CudaUFuncDispatcher.cls self args
      (Kwargs (Some o)) s
    = (Ok o, s')
    ∧ length (launches s') = S (length (launches s))
    ∧ length (heap s') = length (heap s)
    ∧ (∀ b, b ≠ base o → buffer s' b = buffer s b)
    ∧ (∀ t, t < n →
         peek s' (base o) (thread_pos o t)
         = f (map (λ a, peek s (base a) (thread_pos a t)) args))
    ∧ (∀ p, (∀ t, t < n → thread_pos o t ≠ p) →
         peek s' (base o) p = peek s (base o) p).
Proof.
  intros Hargs Hst Hlk Hk Hmt Hmt1 Hn53 Ho Hvo Hso Hfit.
  destruct (device_call_out_unfold self args o rdt k mt n s)
    as (bc & tc & HT & ->); try done.
  unfold is_cuda_ndarray. rewrite Ho.
  rewrite (bind_ok (ret o) _ s s o eq_refl).
  rewrite (bind_ok _ _ _ _ _ (launch_kernel_snoc k bc tc args o _ s)).
  eexists. split; [reflexivity|].
  rewrite Hk, elementwise_snoc, HT.
  split; [simpl; rewrite length_app; simpl; lia|].
  split; [simpl; by rewrite length_insert|].
  split.
  { intros b Hne. rewrite buffer_insert. rewrite decide_False; [done|].
    intros [Heq _]. by apply Hne. }
  unfold peek. rewrite buffer_insert.
  rewrite decide_True by (split; [done|exact Hvo]).
  split.
  - intros t Ht. unfold cell at 1.
    rewrite (writes_lookup (thread_pos o) _ n _ t); [| |done|by apply Hfit].
    + simpl. f_equal. rewrite map_map. done.
    + intros t1 t2 _ _. unfold thread_pos. intros Heq.
      assert (t1 * hd 0 (strides o) = t2 * hd 0 (strides o)) as Hm by lia.
      by apply Nat.mul_cancel_r in Hm.
  - intros p Hp. unfold cell. by rewrite writes_other.
Qed.

(** ** The generalized dispatcher on host arrays with [out=] *)

Lemma ascontiguousarray_all (args : list ndarray) (s : state V) :
  Forall (λ a, valid s a ∧ shape a ≠ []) args →
  ∃ bs s',
    mapM_ np_ascontiguousarray args s = (Ok bs, s')
    ∧ extends s s' ∧ launches s' = launches s
    ∧ Forall2 (λ a b, shape b = shape a ∧ valid s' b) args bs.
Proof.
  apply (mapM_spec np_ascontiguousarray (λ s a, valid s a ∧ shape a ≠ [])
           (λ s a b, shape b = shape a ∧ valid s b)).
  - intros s0 s1 a He [Hv Hs]. split; [by eapply valid_extends|done].
  - intros s0 s1 a b He [Hs Hv]. split; [done|by eapply valid_extends].
  - intros s0 a _ [Hv Hs]. unfold np_ascontiguousarray.
    destruct (shape a) as [|d sh] eqn:Hsh; [done|].
    destruct (is_c_contiguous a).
    + exists a, s0. by repeat split.
    + destruct (host_copy_spec a (d :: sh) s0) as (s1 & Hc & He & Hl & _ & Hla).
      { by rewrite Hsh. }
      eexists _, s1. split; [exact Hc|]. split; [done|]. split; [done|].
      split; [done|]. unfold valid. simpl. lia.
Qed.

(** X24.  The generalized dispatcher on host arrays with [out=]: for
    host arrays of at least one axis, a kernel for their dtypes and a
    positive thread ceiling, and a host array as [out=] whose first axis
    is at least as long as the first axis of the first argument, the call
    returns the array given as [out=] itself, whatever its strides and
    its other axes, and makes one launch, without a trailing count, of one
    device array per argument and one for the output.
    Counts are within the integers a double holds exactly: the first axis of
    the first argument and the thread ceiling are at most [2^53]. *)
Theorem gufunc_host_call_returns_out (self : dispatcher V)
    (args : list ndarray) (a0 o : ndarray) (rdt : np_dtype) (k : kernel V)
    (mt : Z) (n d : nat) (s : state V) :
  Forall (λ a, resid a = Host ∧ valid s a ∧ shape a ≠ []) args →
  first args = Ok a0 → shape0 a0 = Ok n →
  table_lookup (functions self) (map dtype args) = Some (rdt, k) →
  max_threads_of self k = Ok mt → (1 ≤ mt ≤ 2 ^ 53)%Z →
  (Z.of_nat n ≤ 2 ^ 53)%Z →
  resid o = Host → valid s o → shape0 o = Ok d → n ≤ d →
  ∃ s' l,
    CudaGUFuncDispatcher.__call__ self args (Kwargs (Some o)) s = (Ok o, s')
    ∧ launches s' = launches s ++ [l]
    ∧ l_count l = None
    ∧ length (l_args l) = S (length args)
    ∧ Forall (λ a, resid a = Device) (l_args l).
Proof.
  intros Hargs Hfirst Hn Hlk Hmt Hmt1 Hn53 Hro Hvo Hd Hnd.
  unfold CudaGUFuncDispatcher.__call__.
  rewrite call_host_unfold.
  2:{ clear Hfirst Hlk. induction Hargs as [|a l (Hr & _) _ IH]; [done|].
      simpl. unfold is_cuda_ndarray at 1. by rewrite Hr. }
  unfold CudaUFuncDispatcher._get_function_by_dtype. rewrite Hlk.
  rewrite (bind_lift_ok _ _ _ _ eq_refl).
  rewrite (bind_lift_ok _ _ _ _ Hmt).
  cbn [m_prepare_inputs m_determine_element_count CudaGUFuncDispatcher.cls
       kw_out].
  unfold CudaGUFuncDispatcher._prepare_inputs.
  destruct (ascontiguousarray_all args s) as (bs & s1 & Hprep & He1 & Hl1 & Hbs).
  { eapply Forall_impl; [exact Hargs|]. by intros a (_ & Hv & Hs). }
  rewrite (bind_ok _ _ _ _ _ Hprep).
  assert (Forall (valid s1) bs) as Hvbs.
  { clear -Hbs.
    induction Hbs as [|? ? ? ? [_ Hv] _ IH]; [constructor|by constructor]. }
  assert (length bs = length args) as Hlen
    by (symmetry; by eapply Forall2_length).
  destruct args as [|a args']; [done|]. simpl in Hfirst.
  injection Hfirst as ->.
  destruct bs as [|b0 bs']; [by apply Forall2_length in Hbs|].
  pose proof Hbs as Hbs0.
  apply Forall2_cons in Hbs0 as [[Hsb0 Hvb0] _].
  assert (shape0 b0 = Ok n) as Hb0 by (unfold shape0 in *; by rewrite Hsb0).
  assert (CudaGUFuncDispatcher._determine_element_count (b0 :: bs')
          = Ok (Z.of_nat n)) as Hec.
  { unfold CudaGUFuncDispatcher._determine_element_count. simpl.
    by rewrite Hb0. }
  rewrite (bind_lift_ok _ _ _ _ Hec).
  unfold is_cuda_ndarray at 1. rewrite Hro.
  assert ((do o0 <- lift (shape0 o);
           do b <- lift (first (b0 :: bs'));
           do b1 <- lift (shape0 b);
           if decide (o0 < b1)
           then raise (ValueError "insufficient storage for output array")
           else ret o) s1 = (Ok o, s1)) as Hout.
  { rewrite (bind_lift_ok _ _ _ _ Hd).
    rewrite (bind_lift_ok _ _ _ b0 eq_refl).
    rewrite (bind_lift_ok _ _ _ _ Hb0).
    by rewrite decide_False by lia. }
  rewrite (bind_ok _ _ _ _ _ Hout).
  unfold host_tail.
  cbn [m_adjust_dimension CudaGUFuncDispatcher.cls].
  unfold CudaGUFuncDispatcher._adjust_dimension.
  rewrite (bind_ok (ret [o]) _ s1 s1 _ eq_refl).
  rewrite (bind_ok (ret (b0 :: bs')) _ s1 s1 _ eq_refl).
  destruct (threads_of_launch n mt Hmt1 Hn53) as (bc & tc & Hdim & HT).
  rewrite (bind_lift_ok _ _ _ _ Hdim).
  destruct (to_device_all (b0 :: bs') s1 Hvbs)
    as (dins & s2 & Hdev & He2 & Hl2 & Hst).
  rewrite (bind_ok _ _ _ _ _ Hdev).
  unfold device_array_like.
  destruct (alloc_spec (replicate (extent (shape o) (strides o)) elem_uninit)
              s2) as (s3 & Ha & He3 & Hlen3 & Hb3 & Hl3).
  rewrite (bind_ok _ _ _ _ _ (bind_ok _ _ _ _ _ Ha)).
  rewrite (bind_ok _ _ _ _ _ (launch_kernel_snoc k bc tc dins _ None s3)).
  rewrite (bind_ok _ _ _ _ _ (copy_to_host_some _ _ _)).
  unfold reshape.
  rewrite decide_False by (intros Hne; by apply Hne).
  rewrite decide_True by done.
  eexists _, _. split; [reflexivity|]. simpl.
  rewrite Hl3, Hl2, Hl1. split; [reflexivity|]. simpl.
  split; [done|]. split.
  - rewrite length_app. simpl. apply Forall2_length in Hst.
    simpl in Hst, Hlen. lia.
  - apply Forall_app. split; [|by constructor].
    clear -Hst. induction Hst as [|? ? ? ? Hs _ IH]; [constructor|].
    constructor; [|done]. unfold staged in Hs. tauto.
Qed.

(** ** The generalized ufunc object from call to result *)

Lemma generalized_launch_snoc (self : CUDAGenerializedUFunc.t) (k : kernel V)
    (nelem ntid : Z) (ins : list ndarray) (out : ndarray) (s : state V) :
  CUDAGenerializedUFunc._apply_autotuning k
    (Z.min (MAX_THREADS_PER_BLOCK k) (CUDAGenerializedUFunc.max_blocksize self))
  = Ok ntid →
  (1 ≤ ntid ≤ 2 ^ 53)%Z → (0 ≤ nelem ≤ 2 ^ 53)%Z →
  ∃ ncta,
    CUDAGenerializedUFunc._launch_kernel self k nelem (ins ++ [out]) s
    = (Ok (),
       {| heap := <[base out :=
                      krun k ncta ntid
                        (map (λ a, (a, buffer s (base a))) ins
                           ++ [(out, buffer s (base out))]) None]> (heap s);
          launches := launches s ++ [Launch ncta ntid (ins ++ [out]) None] |}).
Proof.
  intros Ha Ht Hn.
  destruct (launch_kernel_geometry self k nelem ntid (ntid * float_one)%Z
              (ins ++ [out]) s Ha) as (ncta & -> & _); [lia| |done|].
  { apply float_of_int_exact. lia. }
  eexists. apply launch_kernel_snoc.
Qed.

(** The execute block succeeds when the loop count and the thread count
    are positive and the schedule fits the arrays. *)
Lemma execute_succeeds (self : CUDAGenerializedUFunc.t) (k : kernel V)
    (sch : schedule_t) (params : list ndarray) (retval : ndarray)
    (osh : list nat) (ntid : Z) (s : state V) :
  (0 < loopn sch)%Z → (loopn sch ≤ 2 ^ 53)%Z →
  CUDAGenerializedUFunc._apply_autotuning k
    (Z.min (MAX_THREADS_PER_BLOCK k) (CUDAGenerializedUFunc.max_blocksize self))
  = Ok ntid →
  (1 ≤ ntid ≤ 2 ^ 53)%Z →
  (1 < length (loopdims sch) →
   Forall2 (λ p cs, np_prod (shape p) = Z.to_nat (loopn sch) * np_prod cs)
     params (ishapes sch)
   ∧ first (oshapes sch) = Ok osh
   ∧ np_prod (shape retval) = Z.to_nat (loopn sch) * np_prod osh) →
  ∃ s' l,
    CUDAGenerializedUFunc.execute self k sch params retval s = (Ok (), s')
    ∧ launches s' = launches s ++ [l]
    ∧ l_count l = None
    ∧ length (l_args l) = S (length params)
    ∧ length (heap s') = length (heap s)
    ∧ ∀ b, b ≠ base retval → buffer s' b = buffer s b.
Proof.
  intros Hn Hn53 Ha Ht Hfit. unfold CUDAGenerializedUFunc.execute.
  rewrite decide_False by lia.
  assert (∀ ins out,
            base out = base retval → length ins = length params →
            ∃ s' l,
              CUDAGenerializedUFunc._launch_kernel self k (loopn sch)
                (ins ++ [out]) s = (Ok (), s')
              ∧ launches s' = launches s ++ [l]
              ∧ l_count l = None
              ∧ length (l_args l) = S (length params)
              ∧ length (heap s') = length (heap s)
              ∧ ∀ b, b ≠ base retval → buffer s' b = buffer s b) as Hlaunch.
  { intros ins out Hb Hl.
    destruct (generalized_launch_snoc self k (loopn sch) ntid ins out s Ha Ht)
      as (ncta & ->); [lia|].
    eexists _, _. split; [reflexivity|]. split; [reflexivity|].
    split; [done|]. split; [simpl; rewrite length_app; simpl; lia|].
    split; [simpl; by rewrite length_insert|].
    intros b Hne. rewrite buffer_insert. rewrite decide_False; [done|].
    intros [Heq _]. apply Hne. by rewrite <- Heq. }
  destruct (loopdims sch) as [|d1 [|d2 rest]].
  - rewrite reshape_all_prefix_one.
    rewrite (bind_lift_ok _ _ _ _ eq_refl).
    rewrite device_reshape_ok by (simpl; lia).
    rewrite (bind_lift_ok _ _ _ _ eq_refl).
    apply Hlaunch; [done|by rewrite length_map].
  - by apply Hlaunch.
  - destruct Hfit as (Hp & Ho & Hr); [simpl; lia|].
    rewrite (reshape_all_ok _ _ _ Hp).
    rewrite (bind_lift_ok _ _ _ _ eq_refl).
    rewrite (bind_lift_ok _ _ _ _ Ho).
    rewrite device_reshape_ok by (simpl; lia).
    rewrite (bind_lift_ok _ _ _ _ eq_refl).
    apply Hlaunch; [done|].
    rewrite length_zip_with. apply Forall2_length in Hp. lia.
Qed.

Lemma to_device_shapes (l : list ndarray) (s : state V) :
  ∃ ds s',
    mapM_ to_device l s = (Ok ds, s')
    ∧ extends s s' ∧ launches s' = launches s
    ∧ map shape ds = map shape l ∧ length ds = length l.
Proof.
  destruct (mapM_spec to_device (λ _ _, True)
              (λ _ a b, shape b = shape a) l s)
    as (bs & s' & Hm & He & Hl & Hq); try done.
  - intros s0 a _ _.
    destruct (to_device_spec a s0) as (s1 & Ht & He & _ & _ & Hl).
    eexists _, s1. by rewrite Ht.
  - by apply Forall_forall.
  - exists bs, s'. repeat split; try done.
    + clear Hm. induction Hq as [|a b k k' Hs _ IH]; [done|].
      simpl. by rewrite Hs, IH.
    + symmetry. by eapply Forall2_length.
Qed.

Lemma fits_by_shape (odim : nat) (l l' : list ndarray)
    (shapes : list (list nat)) :
  map shape l' = map shape l →
  Forall2 (λ p cs, np_prod (shape p) = odim * np_prod cs) l shapes →
  Forall2 (λ p cs, np_prod (shape p) = odim * np_prod cs) l' shapes.
Proof.
  intros Hs Hf.
  apply (Forall2_fmap_l shape (λ sh cs, np_prod sh = odim * np_prod cs)).
  change (shape <$> l') with (map shape l'). rewrite Hs.
  by apply (Forall2_fmap_l shape (λ sh cs, np_prod sh = odim * np_prod cs)).
Qed.

(** X25.  The generalized ufunc object from call to result.  The
    arguments are all host arrays or all device arrays; the engine gives a
    schedule with a positive loop count that fits the arrays, the table a
    kernel, and the thread count is positive; an array given as [out=] has
    the first output shape of the schedule.  Then the call returns the
    array given as [out=] itself, and without [out=] a new array of the
    first output shape and the dtype of the table, on the host for host
    arguments and on the device for device arguments.  One launch is
    made, without a trailing count, of one array per argument and the
    output; no buffer of before is dropped.
    Counts are within the integers a double holds exactly: the loop count
    and the thread count are at most [2^53]. *)
Theorem generalized_call_returns (self : CUDAGenerializedUFunc.t)
    (args : list ndarray) (kws : kwargs) (r : residency) (sch : schedule_t)
    (rdt : np_dtype) (k : kernel V) (osh ish : list nat) (ntid : Z)
    (s : state V) :
  args ≠ [] → Forall (λ a, resid a = r) args →
  schedule (CUDAGenerializedUFunc.engine self) (map shape args) = Ok sch →
  table_lookup (CUDAGenerializedUFunc.kernelmap self) (map dtype args)
  = Some (rdt, k) →
  first (output_shapes sch) = Ok osh →
  (∀ o, kw_out kws = Some o → shape o = osh) →
  (0 < loopn sch)%Z → (loopn sch ≤ 2 ^ 53)%Z →
  CUDAGenerializedUFunc._apply_autotuning k
    (Z.min (MAX_THREADS_PER_BLOCK k) (CUDAGenerializedUFunc.max_blocksize self))
  = Ok ntid →
  (1 ≤ ntid ≤ 2 ^ 53)%Z →
  (1 < length (loopdims sch) →
   Forall2 (λ p cs, np_prod (shape p) = Z.to_nat (loopn sch) * np_prod cs)
     args (ishapes sch)
   ∧ first (oshapes sch) = Ok ish
   ∧ np_prod osh = Z.to_nat (loopn sch) * np_prod ish) →
  ∃ res s' l,
    CUDAGenerializedUFunc.__call__ self args kws s = (Ok res, s')
    ∧ shape res = osh
    ∧ match kw_out kws with
      | Some o => res = o
      | None => resid res = r ∧ dtype res = rdt
      end
    ∧ launches s' = launches s ++ [l]
    ∧ l_count l = None
    ∧ length (l_args l) = S (length args)
    ∧ length (heap s) ≤ length (heap s').
Proof.
  intros Hne Hall Hsch Hlk Hosh Hout Hn Hn53 Ha Ht Hfit.
  unfold CUDAGenerializedUFunc.__call__.
  destruct (residency_flags args r Hne Hall) as [-> ->].
  assert (lift (match kw_out kws with
                | Some o =>
                    try osh0 <- first (output_shapes sch);
                    if decide (osh0 ≠ shape o)
                    then Raise (ValueError "output shape mismatch")
                    else Ok ()
                | None => Ok ()
                end) = ret (V := V) ()) as Hcheck.
  { destruct (kw_out kws) as [o|] eqn:Hk; [|done].
    rewrite Hosh. simpl. rewrite decide_False; [done|].
    intros Hneq. apply Hneq. symmetry. by apply Hout. }
  destruct r; cbn [eqb negb].
  - (* host arguments *)
    destruct (np_array_all args s) as (inputs & s1 & Hm & He1 & Hl1 & Hs1 & Hd1).
    rewrite (bind_ok _ _ _ _ _ Hm). rewrite Hs1, Hd1.
    rewrite (bind_lift_ok _ _ _ _ Hsch). rewrite Hlk.
    rewrite (bind_lift_ok _ _ _ _ eq_refl).
    rewrite Hcheck. rewrite (bind_ok (ret ()) _ s1 s1 () eq_refl).
    destruct (to_device_shapes inputs s1)
      as (params & s2 & Hdev & He2 & Hl2 & Hs2 & Hlen2).
    rewrite (bind_ok _ _ _ _ _ Hdev).
    set (retval := {| resid := Device; dtype := rdt; shape := osh;
                      strides := c_strides osh; base := length (heap s2);
                      offset := 0 |}).
    destruct (alloc_spec (replicate (np_prod osh) elem_uninit) s2)
      as (s3 & Hal & He3 & Hlen3 & Hb3 & Hl3).
    assert ((match kw_out kws with
             | Some _ =>
                 do osh0 <- lift (first (output_shapes sch));
                 device_array osh0 rdt
             | None =>
                 do osh0 <- lift (first (output_shapes sch));
                 device_array osh0 rdt
             end) s2 = (Ok retval, s3)) as Hret.
    { assert ((do osh0 <- lift (first (output_shapes sch));
               device_array osh0 rdt) s2 = (Ok retval, s3)) as Hd.
      { rewrite (bind_lift_ok _ _ _ _ Hosh). unfold device_array.
        by rewrite (bind_ok _ _ _ _ _ Hal). }
      by destruct (kw_out kws). }
    rewrite (bind_ok _ _ _ _ _ Hret).
    destruct (execute_succeeds self k sch params retval ish ntid s3 Hn Hn53 Ha Ht)
      as (s4 & l & Hex & Hl4 & Hc4 & Hla4 & Hh4 & _).
    { intros Hm1. destruct (Hfit Hm1) as (Hp & Ho & Hr).
      split; [|done].
      apply (fits_by_shape _ args); [by rewrite Hs2, Hs1|done]. }
    rewrite (bind_ok _ _ _ _ _ Hex).
    assert (length (heap s) ≤ length (heap s4)) as Hheap.
    { apply extends_length in He1, He2, He3. lia. }
    assert (length params = length args) as Hlen.
    { rewrite Hlen2. rewrite <- (length_map shape inputs), Hs1.
      by rewrite length_map. }
    destruct (kw_out kws) as [o|] eqn:Hk.
    + rewrite copy_to_host_some. eexists o, _, l.
      split; [reflexivity|]. split; [by apply Hout|]. split; [done|].
      simpl. rewrite Hl4, Hl3, Hl2, Hl1. split; [done|]. split; [done|].
      split; [lia|]. rewrite length_insert. lia.
    + unfold copy_to_host.
      rewrite (bind_ok (get_contents retval) _ s4 s4 (contents s4 retval)
                 eq_refl).
      destruct (alloc_spec (contents s4 retval) s4)
        as (s5 & Hal5 & He5 & Hlen5 & _ & Hl5).
      rewrite (bind_ok _ _ _ _ _ Hal5).
      eexists _, s5, l. split; [reflexivity|]. split; [done|].
      split; [done|]. rewrite Hl5, Hl4, Hl3, Hl2, Hl1.
      split; [done|]. split; [done|]. split; lia.
  - (* device arguments *)
    rewrite (bind_ok (ret args) _ s s args eq_refl).
    rewrite (bind_lift_ok _ _ _ _ Hsch). rewrite Hlk.
    rewrite (bind_lift_ok _ _ _ _ eq_refl).
    rewrite Hcheck. rewrite (bind_ok (ret ()) _ s s () eq_refl).
    rewrite (bind_ok (ret args) _ s s args eq_refl).
    destruct (kw_out kws) as [o|] eqn:Hk.
    + rewrite (bind_ok (ret o) _ s s o eq_refl).
      destruct (execute_succeeds self k sch args o ish ntid s Hn Hn53 Ha Ht)
        as (s4 & l & Hex & Hl4 & Hc4 & Hla4 & Hh4 & _).
      { intros Hm1. destruct (Hfit Hm1) as (Hp & Ho & Hr).
        split; [done|]. split; [done|]. by rewrite (Hout o). }
      rewrite (bind_ok _ _ _ _ _ Hex).
      exists o, s4, l. split; [done|]. split; [by apply Hout|].
      repeat split; try done. lia.
    + set (retval := {| resid := Device; dtype := rdt; shape := osh;
                        strides := c_strides osh; base := length (heap s);
                        offset := 0 |}).
      destruct (alloc_spec (replicate (np_prod osh) elem_uninit) s)
        as (s3 & Hal & He3 & Hlen3 & Hb3 & Hl3).
      assert ((do osh0 <- lift (first (output_shapes sch));
               device_array osh0 rdt) s = (Ok retval, s3)) as Hret.
      { rewrite (bind_lift_ok _ _ _ _ Hosh). unfold device_array.
        by rewrite (bind_ok _ _ _ _ _ Hal). }
      rewrite (bind_ok _ _ _ _ _ Hret).
      destruct (execute_succeeds self k sch args retval ish ntid s3 Hn Hn53 Ha Ht)
        as (s4 & l & Hex & Hl4 & Hc4 & Hla4 & Hh4 & _).
      { intros Hm1. destruct (Hfit Hm1) as (Hp & Ho & Hr). done. }
      rewrite (bind_ok _ _ _ _ _ Hex).
      exists retval, s4, l. split; [done|]. split; [done|].
      split; [done|]. rewrite Hl4, Hl3. repeat split; try done. lia.
Qed.

End Further.

(** * Instances of the further properties *)

Lemma call_unsupported_dtypes_witness :
  CudaUFuncDispatcher.__call__ CudaUFuncDispatcher.cls add_dispatcher
    [vector Host float32 0 3; vector Host float32 1 3] (Kwargs None)
    column_row_state
  = (Raise (TypeError
              "Input dtypes not supported by ufunc (dtype('float32'), dtype('float32'))"),
     column_row_state).
Proof.
  apply (call_unsupported_dtypes CudaUFuncDispatcher.cls add_dispatcher
           [vector Host float32 0 3; vector Host float32 1 3]).
  reflexivity.
Defined.

Lemma call_autotune_no_threads_witness :
  CudaUFuncDispatcher.__call__ CudaUFuncDispatcher.cls starved_dispatcher
    [vector Host int64 0 4; vector Host int64 1 4] (Kwargs None)
    matrices_state
  = (Raise (PyException
              "insufficient resources to run kernelat any thread-per-block."),
     matrices_state).
Proof.
  apply (call_autotune_no_threads CudaUFuncDispatcher.cls starved_dispatcher
           [vector Host int64 0 4; vector Host int64 1 4] (Kwargs None)
           int64 starved_kernel matrices_state).
  - reflexivity.
  - vm_compute. discriminate.
  - reflexivity.
Defined.

Lemma max_blocksize_bypasses_autotuner_witness :
  ∃ r s',
    CudaUFuncDispatcher.__call__ CudaUFuncDispatcher.cls capped_dispatcher
      [vector Host int64 0 4; vector Host int64 1 4] (Kwargs None)
      matrices_state = (Ok r, s')
    ∧ contents s' r
      = elementwise_result (λ l, foldr Z.add 0%Z l)
          (map (contents matrices_state)
             [vector Host int64 0 4; vector Host int64 1 4])
          (np_prod (shape (vector Host int64 0 4))).
Proof.
  apply (max_blocksize_bypasses_autotuner capped_dispatcher
           [vector Host int64 0 4; vector Host int64 1 4] int64
           starved_kernel (λ l, foldr Z.add 0%Z l) 2
           [vector Host int64 0 4; vector Host int64 1 4]
           (vector Host int64 0 4) matrices_state).
  - repeat constructor; unfold valid; simpl; lia.
  - reflexivity.
  - reflexivity.
  - reflexivity.
  - simpl. lia.
  - lia.
  - reflexivity.
  - reflexivity.
  - simpl. lia.
Defined.

Lemma host_call_device_out_witness :
  CudaUFuncDispatcher.__call__ CudaUFuncDispatcher.cls add_dispatcher
    [vector Host int64 0 4; vector Host int64 1 4]
    (Kwargs (Some (vector Device int64 2 4))) matrices_state
  = (Raise (TypeError "output array must not be a device array"),
     matrices_state).
Proof.
  apply (host_call_device_out add_dispatcher
           [vector Host int64 0 4; vector Host int64 1 4]
           (vector Device int64 2 4) int64 add_kernel 1024
           [vector Host int64 0 4; vector Host int64 1 4]
           (vector Host int64 0 4) matrices_state); reflexivity.
Defined.

Lemma host_call_out_too_small_witness :
  CudaUFuncDispatcher.__call__ CudaUFuncDispatcher.cls add_dispatcher
    [vector Host int64 0 4; vector Host int64 1 4]
    (Kwargs (Some (vector Host int64 2 3))) matrices_state
  = (Raise (ValueError "insufficient storage for output array"),
     matrices_state).
Proof.
  apply (host_call_out_too_small add_dispatcher
           [vector Host int64 0 4; vector Host int64 1 4]
           (vector Host int64 2 3) int64 add_kernel 1024
           [vector Host int64 0 4; vector Host int64 1 4]
           (vector Host int64 0 4) 3 4 matrices_state);
    try reflexivity.
  lia.
Defined.

Lemma host_call_out_without_axes_witness :
  CudaUFuncDispatcher.__call__ CudaUFuncDispatcher.cls add_dispatcher
    [vector Host int64 0 4; vector Host int64 1 4]
    (Kwargs (Some (array_scalar Host int64 2))) matrices_state
  = (Raise (IndexError "tuple index out of range"), matrices_state).
Proof.
  apply (host_call_out_without_axes add_dispatcher
           [vector Host int64 0 4; vector Host int64 1 4]
           (array_scalar Host int64 2) int64 add_kernel 1024
           [vector Host int64 0 4; vector Host int64 1 4]
           (vector Host int64 0 4) matrices_state); reflexivity.
Defined.

Lemma arguments_requirement_names_first_offender_witness :
  CudaUFuncDispatcher._arguments_requirement
    ([vector Device int64 0 4] ++ host_array int64 1 [2; 2] :: [])
  = Raise (ValueError ("arg " +:+ pretty (length [vector Device int64 0 4])
                         +:+ " is not a 1D array")).
Proof.
  apply (arguments_requirement_names_first_offender
           [vector Device int64 0 4] [] (host_array int64 1 [2; 2])).
  - by repeat constructor.
  - unfold ndim. simpl. lia.
Defined.

Lemma arguments_requirement_accepts_witness :
  CudaUFuncDispatcher._arguments_requirement
    [vector Device int64 0 4; repeated Device int64 1 7] = Ok ()
  ↔ (∃ a, a ∈ [vector Device int64 0 4; repeated Device int64 1 7]
          ∧ hd 0 (strides a) ≠ 0)
    ∧ ∀ a b, a ∈ [vector Device int64 0 4; repeated Device int64 1 7] →
        b ∈ [vector Device int64 0 4; repeated Device int64 1 7] →
        hd 0 (strides a) ≠ 0 → hd 0 (strides b) ≠ 0 → shape a = shape b.
Proof.
  apply (arguments_requirement_accepts
           [vector Device int64 0 4; repeated Device int64 1 7]).
  by repeat constructor.
Defined.

Lemma arguments_requirement_all_zero_stride_witness :
  CudaUFuncDispatcher._arguments_requirement
    [repeated Device int64 0 4; repeated Device int64 1 4]
  = Raise (IndexError "list index out of range").
Proof.
  apply (arguments_requirement_all_zero_stride
           [repeated Device int64 0 4; repeated Device int64 1 4]).
  by repeat constructor.
Defined.

Lemma determine_dimensions_tight_witness :
  ∃ block_count thread_count,
    CudaUFuncDispatcher._determine_dimensions 17 8
    = Ok (block_count, thread_count)
    ∧ (block_count * thread_count < 17 + 8)%Z
    ∧ ((17 ≤ 8)%Z → block_count = 1%Z ∧ thread_count = 17%Z)
    ∧ ((8 ≤ 17)%Z → thread_count = 8%Z).
Proof.
  apply (determine_dimensions_tight 17 8 (8 * float_one)%Z); [lia|lia|].
  vm_compute. reflexivity.
Defined.

Lemma generalized_call_residency_check_witness :
  CUDAGenerializedUFunc.__call__ gufunc_object
    [device_cube 0; host_array int64 1 [2; 3; 4]] (Kwargs None) cubes_state
  = (Raise (TypeError
              "if device array is used, all arguments must be device array."),
     cubes_state).
Proof.
  apply (generalized_call_residency_check gufunc_object
           [device_cube 0; host_array int64 1 [2; 3; 4]] (Kwargs None)
           cubes_state).
  right. split.
  - exists (device_cube 0). split; [apply list_elem_of_here|reflexivity].
  - exists (host_array int64 1 [2; 3; 4]).
    split; [apply list_elem_of_further, list_elem_of_here|reflexivity].
Defined.

Lemma reduce_validation_witness :
  CudaUFuncDispatcher.reduce CudaUFuncDispatcher.cls add_dispatcher column
    column_row_state
  = (Raise (AssertionError "must use 1d array"), column_row_state).
Proof.
  destruct (reduce_validation CudaUFuncDispatcher.cls add_dispatcher column
              column_row_state) as (_ & _ & H).
  apply (H [int64; int64] (int64, add_kernel) []).
  - reflexivity.
  - reflexivity.
  - unfold ndim. simpl. lia.
Defined.

Lemma adjust_dimension_flattens_witness :
  ∃ bs s',
    CudaUFuncDispatcher._adjust_dimension [column; row] column_row_state
    = (Ok bs, s')
    ∧ Forall2 (λ a b, ndim b ≤ 1
                      ∧ contents s' b = contents column_row_state a
                      ∧ (ndim a ≤ 1 → b = a)
                      ∧ (1 < ndim a → shape b = [np_prod (shape a)]))
        [column; row] bs
    ∧ extends column_row_state s'
    ∧ launches s' = launches column_row_state.
Proof.
  apply (adjust_dimension_flattens [column; row] column_row_state).
  repeat constructor; unfold valid; simpl; lia.
Defined.

Lemma host_call_elementwise_witness :
  ∃ r s',
    CudaUFuncDispatcher.__call__ CudaUFuncDispatcher.cls add_dispatcher
      [vector Host int64 0 4; vector Host int64 1 4] (Kwargs None)
      matrices_state = (Ok r, s')
    ∧ resid r = Host ∧ dtype r = int64
    ∧ shape r = shape (vector Host int64 0 4)
    ∧ contents s' r
      = elementwise_result (λ l, foldr Z.add 0%Z l)
          (map (contents matrices_state)
             [vector Host int64 0 4; vector Host int64 1 4])
          (np_prod (shape (vector Host int64 0 4)))
    ∧ length (launches s') = S (length (launches matrices_state)).
Proof.
  apply (host_call_elementwise add_dispatcher
           [vector Host int64 0 4; vector Host int64 1 4] int64 add_kernel
           (λ l, foldr Z.add 0%Z l) 1024
           [vector Host int64 0 4; vector Host int64 1 4]
           (vector Host int64 0 4) matrices_state);
    try reflexivity.
  - repeat constructor; unfold valid; simpl; lia.
  - lia.
  - simpl. lia.
Defined.

Lemma device_call_elementwise_witness :
  ∃ bc tc,
    CudaUFuncDispatcher.__call__ CudaUFuncDispatcher.cls add_dispatcher
      [vector Device int64 0 4; repeated Device int64 1 4] (Kwargs None)
      matrices_state
    = (Ok (vector Device int64 3 4),
       {| heap := heap matrices_state
                  ++ [elementwise_result (λ l, foldr Z.add 0%Z l)
                        (map (contents matrices_state)
                           [vector Device int64 0 4;
                            repeated Device int64 1 4]) 4];
          launches := launches matrices_state
                      ++ [Launch bc tc
                            ([vector Device int64 0 4;
                              repeated Device int64 1 4]
                               ++ [vector Device int64 3 4])
                            (Some (Z.of_nat 4))] |}).
Proof.
  apply (device_call_elementwise add_dispatcher
           [vector Device int64 0 4; repeated Device int64 1 4] int64
           add_kernel (λ l, foldr Z.add 0%Z l) 1024 4 matrices_state);
    try reflexivity.
  - repeat constructor; unfold valid; simpl; lia.
  - exists (vector Device int64 0 4).
    split; [apply list_elem_of_here|simpl; lia].
  - lia.
  - lia.
Defined.

Lemma device_call_broadcasts_scalar_witness :
  ∃ r s',
    CudaUFuncDispatcher.__call__ CudaUFuncDispatcher.cls add_dispatcher
      [vector Device int64 0 4; array_scalar Host int64 1] (Kwargs None)
      matrices_state = (Ok r, s')
    ∧ resid r = Device ∧ dtype r = int64 ∧ shape r = [4]
    ∧ contents s' r
      = map (λ u, foldr Z.add 0%Z
                    [u; as_float64
                          (peek matrices_state
                             (base (array_scalar Host int64 1))
                             (offset (array_scalar Host int64 1)))])
          (contents matrices_state (vector Device int64 0 4))
    ∧ contents s' (vector Device int64 0 4)
      = contents matrices_state (vector Device int64 0 4).
Proof.
  apply (device_call_broadcasts_scalar add_dispatcher
           (vector Device int64 0 4) (array_scalar Host int64 1) int64
           add_kernel (λ l, foldr Z.add 0%Z l) 1024 4 1 matrices_state);
    try reflexivity.
  - unfold valid. simpl. lia.
  - lia.
  - lia.
  - lia.
Defined.

Lemma reduce_is_halving_fold_witness :
  ∃ s',
    CudaUFuncDispatcher.reduce CudaUFuncDispatcher.cls
      first_nonzero_dispatcher (vector Host int64 0 5) five_state
    = (Ok (halving_fold 5 (binary first_nonzero)
             (contents five_state (vector Host int64 0 5))), s')
    ∧ length (launches five_state) < length (launches s')
    ∧ length (launches s') ≤ length (launches five_state) + 2 * Nat.log2 5.
Proof.
  apply (reduce_is_halving_fold first_nonzero_dispatcher
           (vector Host int64 0 5)
           ([int64; int64], (int64, first_nonzero_kernel)) int64
           first_nonzero_kernel first_nonzero 1024 5 five_state);
    try reflexivity.
  all: unfold valid; simpl; lia.
Defined.

Lemma reduce_overwrites_device_argument_witness :
  ∃ x s',
    CudaUFuncDispatcher.reduce CudaUFuncDispatcher.cls add_dispatcher
      (vector Device int64 0 5) five_state
    = (Ok x, s')
    ∧ (∀ b, b < length (heap five_state) →
         b ≠ base (vector Device int64 0 5) →
         buffer s' b = buffer five_state b)
    ∧ (resid (vector Device int64 0 5) = Host →
       contents s' (vector Device int64 0 5)
       = contents five_state (vector Device int64 0 5))
    ∧ (resid (vector Device int64 0 5) = Device →
       cell (contents s' (vector Device int64 0 5)) 0 = x
       ∧ ∀ p, p < offset (vector Device int64 0 5)
              ∨ offset (vector Device int64 0 5) + 5 ≤ p →
           peek s' (base (vector Device int64 0 5)) p
           = peek five_state (base (vector Device int64 0 5)) p).
Proof.
  apply (reduce_overwrites_device_argument add_dispatcher
           (vector Device int64 0 5) ([int64; int64], (int64, add_kernel))
           int64 add_kernel (λ l, foldr Z.add 0%Z l) 1024 5 five_state);
    try reflexivity.
  all: unfold valid; simpl; lia.
Defined.

Lemma generalized_call_output_shape_mismatch_witness :
  ∃ s',
    CUDAGenerializedUFunc.__call__ gufunc_object
      [device_cube 0; device_cube 1]
      (Kwargs (Some (vector Device int64 2 24))) cubes_state
    = (Raise (ValueError "output shape mismatch"), s')
    ∧ launches s' = launches cubes_state ∧ extends cubes_state s'
    ∧ (Device = Device → s' = cubes_state).
Proof.
  apply (generalized_call_output_shape_mismatch gufunc_object
           [device_cube 0; device_cube 1] (vector Device int64 2 24) Device
           two_loops int64 add_kernel [2; 3; 4] cubes_state);
    try reflexivity.
  - discriminate.
  - by repeat constructor.
  - discriminate.
Defined.

Lemma device_call_host_out_witness :
  CudaUFuncDispatcher.__call__ CudaUFuncDispatcher.cls add_dispatcher
    [vector Device int64 0 4; vector Device int64 1 4]
    (Kwargs (Some (vector Host int64 2 4))) matrices_state
  = (Raise (TypeError "output array must be a device array"),
     matrices_state).
Proof.
  apply (device_call_host_out add_dispatcher
           [vector Device int64 0 4; vector Device int64 1 4]
           (vector Host int64 2 4) int64 add_kernel 1024 4 matrices_state);
    try reflexivity.
  - repeat constructor; unfold valid; simpl; lia.
  - exists (vector Device int64 0 4).
    split; [apply list_elem_of_here|simpl; lia].
  - lia.
  - lia.
Defined.

Lemma device_call_out_in_place_witness :
  ∃ s',
    CudaUFuncDispatcher.__call__ CudaUFuncDispatcher.cls add_dispatcher
      [vector Device int64 0 4; vector Device int64 1 4]
      (Kwargs (Some (vector Device int64 0 4))) matrices_state
    = (Ok (vector Device int64 0 4), s')
    ∧ length (launches s') = S (length (launches matrices_state))
    ∧ length (heap s') = length (heap matrices_state)
    ∧ (∀ b, b ≠ base (vector Device int64 0 4) →
         buffer s' b = buffer matrices_state b)
    ∧ (∀ t, t < 4 →
         peek s' (base (vector Device int64 0 4))
           (thread_pos (vector Device int64 0 4) t)
         = foldr Z.add 0%Z
             (map (λ a, peek matrices_state (base a) (thread_pos a t))
                [vector Device int64 0 4; vector Device int64 1 4]))
    ∧ (∀ p, (∀ t, t < 4 → thread_pos (vector Device int64 0 4) t ≠ p) →
         peek s' (base (vector Device int64 0 4)) p
         = peek matrices_state (base (vector Device int64 0 4)) p).
Proof.
  apply (device_call_out_in_place add_dispatcher
           [vector Device int64 0 4; vector Device int64 1 4]
           (vector Device int64 0 4) int64 add_kernel
           (λ l, foldr Z.add 0%Z l) 1024 4 matrices_state);
    try reflexivity.
  - repeat constructor; unfold valid; simpl; lia.
  - exists (vector Device int64 0 4).
    split; [apply list_elem_of_here|simpl; lia].
  - lia.
  - lia.
  - unfold valid. simpl. lia.
  - simpl. lia.
  - intros t Ht. unfold thread_pos. simpl. lia.
Defined.

Lemma gufunc_host_call_returns_out_witness :
  ∃ s' l,
    CudaGUFuncDispatcher.__call__ gufunc_dispatcher
      [host_array int64 0 [2; 2]; host_array int64 1 [2; 2]]
      (Kwargs (Some fortran_out)) matrices_state
    = (Ok fortran_out, s')
    ∧ launches s' = launches matrices_state ++ [l]
    ∧ l_count l = None
    ∧ length (l_args l)
      = S (length [host_array int64 0 [2; 2]; host_array int64 1 [2; 2]])
    ∧ Forall (λ a, resid a = Device) (l_args l).
Proof.
  apply (gufunc_host_call_returns_out gufunc_dispatcher
           [host_array int64 0 [2; 2]; host_array int64 1 [2; 2]]
           (host_array int64 0 [2; 2]) fortran_out int64 add_kernel 1024
           2 2 matrices_state);
    try reflexivity.
  - repeat constructor; unfold valid; simpl; try lia; discriminate.
  - lia.
  - lia.
  - unfold valid. simpl. lia.
Defined.

Lemma generalized_call_returns_witness :
  ∃ res s' l,
    CUDAGenerializedUFunc.__call__ gufunc_object
      [device_cube 0; device_cube 1] (Kwargs None) cubes_state
    = (Ok res, s')
    ∧ shape res = [2; 3; 4]
    ∧ match kw_out (Kwargs None) with
      | Some o => res = o
      | None => resid res = Device ∧ dtype res = int64
      end
    ∧ launches s' = launches cubes_state ++ [l]
    ∧ l_count l = None
    ∧ length (l_args l) = S (length [device_cube 0; device_cube 1])
    ∧ length (heap cubes_state) ≤ length (heap s').
Proof.
  apply (generalized_call_returns gufunc_object
           [device_cube 0; device_cube 1] (Kwargs None) Device two_loops
           int64 add_kernel [2; 3; 4] [4] 1024 cubes_state);
    try reflexivity.
  - discriminate.
  - by repeat constructor.
  - discriminate.
  - simpl. lia.
  - lia.
  - intros _. split; [|split]; try reflexivity.
    repeat constructor.
Defined.
